(** * Falcon/ECDSA V2X simulator: fragmentation, reassembly and verification

    A shallow embedding of [falcon-sim/Vehicle.h],
    [falcon-sim/src/Vehicle.cpp] and the option handling of
    [falcon-sim/src/main.cpp], with the properties of the loading,
    signing, transmission, reassembly and verification paths proved over
    it.

    Conventions of the embedding.
    - Fixed-width integers are [Z] values; every narrowing cast of the
      source is written out as a reduction modulo a power of two.
    - Byte buffers ([std::vector<uint8_t>], [std::array<uint8_t, N>],
      [unsigned char[]]) are [list byte]; in-place writes are stdpp's
      [list_inserts], and every access the C++ code performs without a
      bounds check is checked here and yields [Undefined] when it leaves
      the object.
    - [exit(EXIT_FAILURE)] is the outcome [Exit 1].
    - Time points are microsecond counts since the epoch in a signed 64-bit
      integer, as [std::chrono::time_point<system_clock, microseconds>].
    - The cryptographic primitives of [v2vcrypto.h], the key files and the
      byte image of [tbsData] are parameters of the development. *)

From Stdlib Require Import ZArith QArith Strings.Byte Strings.Ascii DecimalString Lia.
From stdpp Require Import base tactics option list strings gmap.

Local Open Scope Z_scope.

(** ** Outcomes of a C++ computation *)

Inductive outcome (A : Type) : Type :=
  | Done (a : A)
  | Exit (status : Z)
  | Undefined.
Arguments Done {A} a.
Arguments Exit {A} status.
Arguments Undefined {A}.

Definition EXIT_FAILURE : Z := 1.

Definition outcome_bind {A B} (f : A -> outcome B) (m : outcome A) : outcome B :=
  match m with
  | Done a => f a
  | Exit s => Exit s
  | Undefined => Undefined
  end.

#[global] Instance outcome_ret : MRet outcome := fun A a => Done a.
#[global] Instance outcome_mbind : MBind outcome := fun A B f m => outcome_bind f m.

(** ** Integer types and casts *)

Definition to_uint8 (x : Z) : Z := x mod 2 ^ 8.
Definition to_uint16 (x : Z) : Z := x mod 2 ^ 16.
Definition to_uint32 (x : Z) : Z := x mod 2 ^ 32.
Definition to_size_t (x : Z) : Z := x mod 2 ^ 64.

Definition INT64_MIN : Z := - 2 ^ 63.
Definition INT64_MAX : Z := 2 ^ 63 - 1.

(** Signed 64-bit subtraction; overflow is undefined behaviour. *)
Definition int64_sub (a b : Z) : outcome Z :=
  if bool_decide (INT64_MIN <= a - b <= INT64_MAX) then Done (a - b) else Undefined.

(** Comparison of doubles, carried as rationals. *)
#[global] Instance Qlt_decision (x y : Q) : Decision (x < y)%Q :=
  decide (Qnum x * QDen y < Qnum y * QDen x).

(** ** Byte buffers *)

Definition zero_byte : byte := x00.

Definition zeros (n : Z) : list byte := replicate (Z.to_nat n) zero_byte.

(** [v.size()] *)
Definition zlength {A} (l : list A) : Z := Z.of_nat (length l).

(** [v[i]] without bounds check. *)
Definition index {A} (l : list A) (i : Z) : outcome A :=
  if bool_decide (0 <= i) then
    match l !! Z.to_nat i with
    | Some x => Done x
    | None => Undefined
    end
  else Undefined.

(** [std::copy_n(src.begin(), n, dst.begin() + off)] and
    [memcpy(dst + off, src, n)]: reads [src[0..n)], writes [dst[off..off+n)]. *)
Definition copy_n (src : list byte) (n : Z) (dst : list byte) (off : Z) : outcome (list byte) :=
  if bool_decide (0 <= n <= zlength src) then
    if bool_decide (0 <= off /\ off + n <= zlength dst) then
      Done (list_inserts (Z.to_nat off) (take (Z.to_nat n) src) dst)
    else Undefined
  else Undefined.

(** The source indices [copy_n] dereferences. *)
Definition copy_n_reads (n : Z) : list Z := seqZ 0 n.

(** ** Vehicle.h *)

Inductive signature_scheme : Type := ECDSA | FALCON.

Definition scheme_code (s : signature_scheme) : Z :=
  match s with ECDSA => 0 | FALCON => 1 end.

#[global] Instance signature_scheme_eq_dec : EqDecision signature_scheme.
Proof. solve_decision. Defined.

Record pqc_options : Type := {
  scheme : signature_scheme;
  falcon_fragment_size : Z;
}.

Definition MAX_SIGNATURE_FRAGMENT_SIZE : Z := 512.
Definition MAX_SIGNATURE_TOTAL_SIZE : Z := 1536.
Definition CERTIFICATE_SIGNATURE_SIZE : Z := 72.

(** A [float] is carried as its 32-bit image. *)
Definition float : Type := Z.
(** [time_point<system_clock, microseconds>]: microseconds since the epoch. *)
Definition time_point : Type := Z.
(** [ecdsa_explicit_certificate] is opaque to this code: its byte image. *)
Definition ecdsa_explicit_certificate : Type := list byte.

Record bsm : Type := {
  latitude : float;
  longitude : float;
  elevation : float;
  speed : float;
  heading : float;
}.

Record header_info : Type := { timestamp : time_point }.

Record tbs_data : Type := {
  message : bsm;
  headerInfo : header_info;
}.

Record signed_data : Type := {
  tbsData : tbs_data;
  cert : ecdsa_explicit_certificate;
}.

Record ieee1609dot2data_ecdsa_explicit : Type := {
  signedData : signed_data;
  certificate_signature : list byte;
}.

Record spdu_fragment : Type := {
  vehicle_id : Z;
  sequence_number : Z;
  llc_dsap_ssap : Z;
  llc_control : Z;
  llc_type : Z;
  wsmp_n_subtype_opt_version : Z;
  wsmp_n_tpid : Z;
  wsmp_t_header_length_and_psid : Z;
  wsmp_t_length : Z;
  spdu_signature_scheme : Z;
  fragment_index : Z;
  fragment_count : Z;
  signature_buffer_length : Z;
  fragment_length : Z;
  signature_offset : Z;
  certificate_signature_buffer_length : Z;
  data : ieee1609dot2data_ecdsa_explicit;
  signature_fragment : list byte;
}.

(** Field updates, one per assignment form of the source. *)
Definition set_vehicle_id (v : Z) (f : spdu_fragment) : spdu_fragment :=
  {| vehicle_id := v; sequence_number := sequence_number f;
     llc_dsap_ssap := llc_dsap_ssap f; llc_control := llc_control f;
     llc_type := llc_type f;
     wsmp_n_subtype_opt_version := wsmp_n_subtype_opt_version f;
     wsmp_n_tpid := wsmp_n_tpid f;
     wsmp_t_header_length_and_psid := wsmp_t_header_length_and_psid f;
     wsmp_t_length := wsmp_t_length f;
     spdu_signature_scheme := spdu_signature_scheme f;
     fragment_index := fragment_index f; fragment_count := fragment_count f;
     signature_buffer_length := signature_buffer_length f;
     fragment_length := fragment_length f;
     signature_offset := signature_offset f;
     certificate_signature_buffer_length := certificate_signature_buffer_length f;
     data := data f; signature_fragment := signature_fragment f |}.

Definition set_sequence_number (v : Z) (f : spdu_fragment) : spdu_fragment :=
  {| vehicle_id := vehicle_id f; sequence_number := v;
     llc_dsap_ssap := llc_dsap_ssap f; llc_control := llc_control f;
     llc_type := llc_type f;
     wsmp_n_subtype_opt_version := wsmp_n_subtype_opt_version f;
     wsmp_n_tpid := wsmp_n_tpid f;
     wsmp_t_header_length_and_psid := wsmp_t_header_length_and_psid f;
     wsmp_t_length := wsmp_t_length f;
     spdu_signature_scheme := spdu_signature_scheme f;
     fragment_index := fragment_index f; fragment_count := fragment_count f;
     signature_buffer_length := signature_buffer_length f;
     fragment_length := fragment_length f;
     signature_offset := signature_offset f;
     certificate_signature_buffer_length := certificate_signature_buffer_length f;
     data := data f; signature_fragment := signature_fragment f |}.

Definition set_signature_scheme (v : Z) (f : spdu_fragment) : spdu_fragment :=
  {| vehicle_id := vehicle_id f; sequence_number := sequence_number f;
     llc_dsap_ssap := llc_dsap_ssap f; llc_control := llc_control f;
     llc_type := llc_type f;
     wsmp_n_subtype_opt_version := wsmp_n_subtype_opt_version f;
     wsmp_n_tpid := wsmp_n_tpid f;
     wsmp_t_header_length_and_psid := wsmp_t_header_length_and_psid f;
     wsmp_t_length := wsmp_t_length f;
     spdu_signature_scheme := v;
     fragment_index := fragment_index f; fragment_count := fragment_count f;
     signature_buffer_length := signature_buffer_length f;
     fragment_length := fragment_length f;
     signature_offset := signature_offset f;
     certificate_signature_buffer_length := certificate_signature_buffer_length f;
     data := data f; signature_fragment := signature_fragment f |}.

(** The five fragmentation fields and the payload array, assigned together
    by both signers. *)
Definition set_fragmentation
    (index count buffer_length length offset : Z) (payload : list byte)
    (f : spdu_fragment) : spdu_fragment :=
  {| vehicle_id := vehicle_id f; sequence_number := sequence_number f;
     llc_dsap_ssap := llc_dsap_ssap f; llc_control := llc_control f;
     llc_type := llc_type f;
     wsmp_n_subtype_opt_version := wsmp_n_subtype_opt_version f;
     wsmp_n_tpid := wsmp_n_tpid f;
     wsmp_t_header_length_and_psid := wsmp_t_header_length_and_psid f;
     wsmp_t_length := wsmp_t_length f;
     spdu_signature_scheme := spdu_signature_scheme f;
     fragment_index := index; fragment_count := count;
     signature_buffer_length := buffer_length;
     fragment_length := length;
     signature_offset := offset;
     certificate_signature_buffer_length := certificate_signature_buffer_length f;
     data := data f; signature_fragment := payload |}.

Definition set_certificate_signature_buffer_length (v : Z) (f : spdu_fragment)
    : spdu_fragment :=
  {| vehicle_id := vehicle_id f; sequence_number := sequence_number f;
     llc_dsap_ssap := llc_dsap_ssap f; llc_control := llc_control f;
     llc_type := llc_type f;
     wsmp_n_subtype_opt_version := wsmp_n_subtype_opt_version f;
     wsmp_n_tpid := wsmp_n_tpid f;
     wsmp_t_header_length_and_psid := wsmp_t_header_length_and_psid f;
     wsmp_t_length := wsmp_t_length f;
     spdu_signature_scheme := spdu_signature_scheme f;
     fragment_index := fragment_index f; fragment_count := fragment_count f;
     signature_buffer_length := signature_buffer_length f;
     fragment_length := fragment_length f;
     signature_offset := signature_offset f;
     certificate_signature_buffer_length := v;
     data := data f; signature_fragment := signature_fragment f |}.

Definition set_data (v : ieee1609dot2data_ecdsa_explicit) (f : spdu_fragment)
    : spdu_fragment :=
  {| vehicle_id := vehicle_id f; sequence_number := sequence_number f;
     llc_dsap_ssap := llc_dsap_ssap f; llc_control := llc_control f;
     llc_type := llc_type f;
     wsmp_n_subtype_opt_version := wsmp_n_subtype_opt_version f;
     wsmp_n_tpid := wsmp_n_tpid f;
     wsmp_t_header_length_and_psid := wsmp_t_header_length_and_psid f;
     wsmp_t_length := wsmp_t_length f;
     spdu_signature_scheme := spdu_signature_scheme f;
     fragment_index := fragment_index f; fragment_count := fragment_count f;
     signature_buffer_length := signature_buffer_length f;
     fragment_length := fragment_length f;
     signature_offset := signature_offset f;
     certificate_signature_buffer_length := certificate_signature_buffer_length f;
     data := v; signature_fragment := signature_fragment f |}.

(** [Vehicle::spdu_fragment x{}]: value-initialisation followed by the
    default member initialisers of the struct. *)
Definition spdu_fragment_default (sizeof_certificate : Z) : spdu_fragment :=
  {| vehicle_id := 0; sequence_number := 0;
     llc_dsap_ssap := 43690; llc_control := 3; llc_type := 35036;
     wsmp_n_subtype_opt_version := 3; wsmp_n_tpid := 0;
     wsmp_t_header_length_and_psid := 32; wsmp_t_length := 0;
     spdu_signature_scheme := 0;
     fragment_index := 0; fragment_count := 1;
     signature_buffer_length := 0; fragment_length := 0;
     signature_offset := 0; certificate_signature_buffer_length := 0;
     data := {| signedData :=
                  {| tbsData :=
                       {| message := {| latitude := 0; longitude := 0;
                                        elevation := 0; speed := 0;
                                        heading := 0 |};
                          headerInfo := {| timestamp := 0 |} |};
                     cert := zeros sizeof_certificate |};
                certificate_signature := zeros CERTIFICATE_SIGNATURE_SIZE |};
     signature_fragment := zeros MAX_SIGNATURE_FRAGMENT_SIZE |}.

(** An [EC_KEY] handle is carried as the key material it stands for. *)
Definition EC_KEY : Type := list byte.

(** The members of [class Vehicle] the signing path reads or writes. *)
Record Vehicle : Type := {
  number : Z;
  pqc : pqc_options;
  private_ec_key : EC_KEY;
  cert_private_ec_key : EC_KEY;
  vehicle_certificate_ecdsa : ecdsa_explicit_certificate;
  this_certificate_signature : list byte;
  certificate_buffer_length : Z;
  falcon_private_key : list byte;
  timestep : list (list float);
}.

Definition set_certificate_scratch (buf : list byte) (len : Z) (v : Vehicle) : Vehicle :=
  {| number := number v; pqc := pqc v;
     private_ec_key := private_ec_key v;
     cert_private_ec_key := cert_private_ec_key v;
     vehicle_certificate_ecdsa := vehicle_certificate_ecdsa v;
     this_certificate_signature := buf;
     certificate_buffer_length := len;
     falcon_private_key := falcon_private_key v;
     timestep := timestep v |}.

(** ** Vehicle.cpp, anonymous namespace *)

Definition make_message_key (vehicle_id sequence_number : Z) : Z :=
  Z.lor (Z.shiftl vehicle_id 32) sequence_number.

Definition clamp_fragment_size (requested maximum : Z) : Z :=
  if bool_decide (requested = 0) then maximum
  else Z.min requested maximum.

(** A computation that returns or throws: [Throws what] is an exception
    whose [what()] is [what]. *)
Inductive except (A : Type) : Type :=
  | Returns (a : A)
  | Throws (what : string).
Arguments Returns {A} a.
Arguments Throws {A} what.

#[global] Instance except_ret : MRet except := fun A a => Returns a.
#[global] Instance except_mbind : MBind except := fun A B f m =>
  match m with
  | Returns a => f a
  | Throws what => Throws what
  end.

(** A [std::string] is the list of its characters, a [char] its code in
    0 .. 255.  The range tests of [decode_hex_char] give the same answer
    for a signed and for an unsigned [char]: a code above 127 fails each
    of them either way. *)
Definition char_code (c : ascii) : Z := Z.of_N (N_of_ascii c).

Definition literal (s : string) : list ascii := String.list_ascii_of_string s.

(** [static_cast<uint8_t>], stored into a byte buffer. *)
Definition uint8_byte (x : Z) : byte :=
  default zero_byte (Byte.of_N (Z.to_N (to_uint8 x))).

Definition decode_hex_char (c : ascii) : except Z :=
  if bool_decide (char_code "0" <= char_code c <= char_code "9") then
    Returns (to_uint8 (char_code c - char_code "0"))
  else if bool_decide (char_code "a" <= char_code c <= char_code "f") then
    Returns (to_uint8 (char_code c - char_code "a" + 10))
  else if bool_decide (char_code "A" <= char_code c <= char_code "F") then
    Returns (to_uint8 (char_code c - char_code "A" + 10))
  else Throws "Invalid hex character".

(** The loop of [hex_to_bytes], two characters per round.  On a last
    single character [hex[i + 1]] is [hex[hex.size()]], the terminator. *)
Fixpoint hex_to_bytes_loop (hex : list ascii) : except (list byte) :=
  match hex with
  | [] => Returns []
  | [c1] =>
      msn ← decode_hex_char c1;
      lsn ← decode_hex_char zero;
      mret [uint8_byte (Z.lor (Z.shiftl msn 4) lsn)]
  | c1 :: c2 :: rest =>
      msn ← decode_hex_char c1;
      lsn ← decode_hex_char c2;
      bytes ← hex_to_bytes_loop rest;
      mret (uint8_byte (Z.lor (Z.shiftl msn 4) lsn) :: bytes)
  end.

Definition hex_to_bytes (hex : list ascii) : except (list byte) :=
  if bool_decide (zlength hex mod 2 ≠ 0) then Throws "Hex string length must be even"
  else hex_to_bytes_loop hex.

(** [get_test_port].  [getenv] is the process environment; [strtol text]
    is the value [std::strtol (text, &end, 10)] returns together with the
    number of characters it consumed ([end - text]). *)
Definition get_test_port (getenv : string -> option (list ascii))
    (strtol : list ascii -> Z * Z) : Z :=
  match getenv "V2X_TEST_PORT" with
  | Some env =>
      let '(value, consumed) := strtol env in
      if bool_decide (consumed ≠ 0 /\ value > 0 /\ value < 65536)
      then to_uint16 value
      else 6666
  | None => 6666
  end.

(** ** The signing side *)

(** Calls into [v2vcrypto.h], in program order. *)
Inductive crypto_call : Type :=
  | Call_sha256sum (bytes : list byte)
  | Call_ecdsa_sign (digest : list byte) (key : EC_KEY)
  | Call_falcon_sign (msg : list byte) (secret_key : list byte).

Record tx_state : Type := {
  this : Vehicle;
  calls : list crypto_call;
}.

(** State ([*this] and the call log) over outcomes. *)
Definition tx (A : Type) : Type := tx_state -> outcome (A * tx_state).

#[global] Instance tx_ret : MRet tx := fun A a s => Done (a, s).
#[global] Instance tx_mbind : MBind tx := fun A B f m s =>
  match m s with
  | Done (a, s') => f a s'
  | Exit c => Exit c
  | Undefined => Undefined
  end.

Definition get_this : tx Vehicle := fun s => Done (this s, s).
Definition put_this (v : Vehicle) : tx unit :=
  fun s => Done (tt, {| this := v; calls := calls s |}).
Definition calls_so_far : tx nat := fun s => Done (length (calls s), s).
Definition record_call (c : crypto_call) : tx unit :=
  fun s => Done (tt, {| this := this s; calls := calls s ++ [c] |}).
Definition lift {A} (o : outcome A) : tx A :=
  fun s => match o with
           | Done a => Done (a, s)
           | Exit c => Exit c
           | Undefined => Undefined
           end.
Definition tx_exit {A} (status : Z) : tx A := fun _ => Exit status.

(** Loop collecting the results of [body] in order ([push_back]). *)
Fixpoint collect {A B} (body : A -> outcome B) (l : list A) : outcome (list B) :=
  match l with
  | [] => Done []
  | x :: l' =>
      match body x with
      | Done y =>
          match collect body l' with
          | Done ys => Done (y :: ys)
          | Exit c => Exit c
          | Undefined => Undefined
          end
      | Exit c => Exit c
      | Undefined => Undefined
      end
  end.

(** Equality of fragments is decidable. *)
#[global] Instance byte_eq_decision : EqDecision byte := byte_eq_dec.
#[global] Instance bsm_eq_dec : EqDecision bsm.
Proof. unfold float. solve_decision. Defined.
#[global] Instance header_info_eq_dec : EqDecision header_info.
Proof. unfold time_point. solve_decision. Defined.
#[global] Instance tbs_data_eq_dec : EqDecision tbs_data.
Proof. solve_decision. Defined.
#[global] Instance signed_data_eq_dec : EqDecision signed_data.
Proof. unfold ecdsa_explicit_certificate. solve_decision. Defined.
#[global] Instance ieee1609dot2data_eq_dec : EqDecision ieee1609dot2data_ecdsa_explicit.
Proof. solve_decision. Defined.
#[global] Instance spdu_fragment_eq_dec : EqDecision spdu_fragment.
Proof. solve_decision. Defined.

(** What [Vehicle::transmit] does to the outside world. *)
Inductive tx_event : Type :=
  | Ev_sendto (fragment : spdu_fragment)
  | Ev_sleep_ms (ms : Z).

Record tx_channel : Type := {
  events : list tx_event;
  sendto_calls : nat;
  draws_used : nat;
}.

(** ** The receiving side: state of [Vehicle::receive] *)

Record PendingMessage : Type := {
  template_fragment : spdu_fragment;
  signature_buffer : list byte;
  fragments_received : list bool;
  first_fragment_time : time_point;
}.

Record receiver_state : Type := {
  pending_messages : gmap Z PendingMessage;
  completed_messages : Z;
  first_fragment_seen : bool;
  run_first_fragment_time : time_point;
  last_completion_time : time_point;
}.

(** What one pass through the loop body did: whether the entry was
    initialised, and the call of [verify_message] with its verdict when the
    SPDU completed. *)
Record completion : Type := {
  completed_spdu : spdu_fragment;
  completed_signature : list byte;
  completed_valid : bool;
}.

Record report : Type := {
  initialised : bool;
  completed : option completion;
}.

(** ** The loaders of [Vehicle.cpp], at the level of file contents

    [files path] is the content of the file [path] opens, [None] when it
    cannot be opened.  The lengths of liboqs and [std::stof] are
    parameters.  A loader that can end in [exit] or in an exception no
    handler catches has an [outcome (except _)]. *)

Module Files.

Definition file_system : Type := list ascii -> option (list ascii).

(** [std::to_string (int)] *)
Definition to_string (n : Z) : list ascii :=
  literal (NilZero.string_of_int (Z.to_int n)).

Definition falcon_private_key_path (number : Z) : list ascii :=
  literal "falcon_keys/" ++ to_string number ++ literal "/falcon.key".

Definition falcon_public_key_path (number : Z) : list ascii :=
  literal "falcon_keys/" ++ to_string number ++ literal "/falcon.pub".

Definition trace_path (number : Z) : list ascii :=
  literal "trace_files/" ++ to_string number ++ literal ".csv".

(** [std::getline (stream, line, delim)] on a stream that is not at its
    end: the characters before the next [delim], which is consumed and
    dropped, or all of them when there is none; and what is left of the
    stream. *)
Fixpoint getline (delim : ascii) (stream : list ascii) : list ascii * list ascii :=
  match stream with
  | [] => ([], [])
  | c :: rest =>
      if decide (c = delim) then ([], rest)
      else let '(line, rest') := getline delim rest in (c :: line, rest')
  end.

(** [while (getline (stream, line, delim))]: the lines read until a call
    extracts nothing.  Every successful call consumes a character, so
    [length stream] rounds suffice. *)
Fixpoint getlines (rounds : nat) (delim : ascii) (stream : list ascii)
    : list (list ascii) :=
  match rounds, stream with
  | S rounds, _ :: _ =>
      let '(line, rest) := getline delim stream in
      line :: getlines rounds delim rest
  | _, _ => []
  end.

Definition all_lines (delim : ascii) (stream : list ascii) : list (list ascii) :=
  getlines (length stream) delim stream.

Definition newline : ascii := "010".

Section loaders.

Variable OQS_SIG_falcon_512_length_secret_key : Z.
Variable OQS_SIG_falcon_512_length_public_key : Z.
Variable stof : list ascii -> except float.

(** [Vehicle::load_falcon_private_key]: the new value of the member
    [falcon_private_key]. *)
Definition load_falcon_private_key (files : file_system) (number : Z)
    : outcome (list byte) :=
  match files (falcon_private_key_path number) with
  | None => Exit EXIT_FAILURE
  | Some hex_key =>
      match hex_to_bytes hex_key with
      | Returns key =>
          if bool_decide (zlength key ≠ OQS_SIG_falcon_512_length_secret_key)
          then Exit EXIT_FAILURE
          else Done key
      | Throws _ => Exit EXIT_FAILURE
      end
  end.

(** [Vehicle::load_falcon_public_key], with its function-local static
    [cache] passed in and out: the key stored into [dest], and the cache
    afterwards. *)
Definition load_falcon_public_key (files : file_system) (number : Z)
    (cache : gmap Z (list byte)) : outcome (list byte * gmap Z (list byte)) :=
  match cache !! number with
  | Some key => Done (key, cache)
  | None =>
      match files (falcon_public_key_path number) with
      | None => Exit EXIT_FAILURE
      | Some hex_key =>
          match hex_to_bytes hex_key with
          | Returns buffer =>
              if bool_decide (zlength buffer ≠ OQS_SIG_falcon_512_length_public_key)
              then Exit EXIT_FAILURE
              else Done (buffer, <[number := buffer]> cache)
          | Throws _ => Exit EXIT_FAILURE
          end
      end
  end.

(** The inner loop of [load_trace] on one line: [timestep_data]. *)
Fixpoint parse_words (words : list (list ascii)) : except (list float) :=
  match words with
  | [] => Returns []
  | word :: rest =>
      value ← stof word;
      values ← parse_words rest;
      mret (value :: values)
  end.

Fixpoint parse_lines (lines : list (list ascii)) : except (list (list float)) :=
  match lines with
  | [] => Returns []
  | line :: rest =>
      timestep_data ← parse_words (all_lines "," line);
      rows ← parse_lines rest;
      mret (timestep_data :: rows)
  end.

(** [Vehicle::load_trace]: the member [timestep] afterwards.  An exception
    of [std::stof] leaves the function. *)
Definition load_trace (files : file_system) (number : Z)
    (timestep : list (list float)) : outcome (except (list (list float))) :=
  match files (trace_path number) with
  | Some text =>
      Done (rows ← parse_lines (all_lines newline text); mret (timestep ++ rows))
  | None => Exit EXIT_FAILURE
  end.

End loaders.

End Files.

(** ** [Vehicle::transmit] and [Vehicle::receive]: ports and loss rate *)

Definition transmit_port (getenv : string -> option (list ascii))
    (strtol : list ascii -> Z * Z) (test : bool) : Z :=
  let test_port := get_test_port getenv strtol in
  if test then test_port else 52001.

Definition receive_port (getenv : string -> option (list ascii))
    (strtol : list ascii -> Z * Z) (test : bool) : Z :=
  let test_port := get_test_port getenv strtol in
  if test then test_port else 4444.

(** A [double]: the finite values as rationals, the infinities, NaN. *)
Inductive double : Type :=
  | Finite (q : Q)
  | Infinite (negative : bool)
  | NaN.

(** [x < y] on doubles; every comparison with NaN is false. *)
Definition double_lt (x y : double) : bool :=
  match x, y with
  | NaN, _ | _, NaN => false
  | Finite a, Finite b => bool_decide (a < b)%Q
  | Finite _, Infinite negative => negb negative
  | Infinite negative, Finite _ => negative
  | Infinite a, Infinite b => a && negb b
  end.

(** The loss rate [Vehicle::transmit] works with: [V2X_PACKET_LOSS_RATE]
    through [std::strtod], then the two clamping tests. *)
Definition packet_loss_rate (getenv : string -> option (list ascii))
    (strtod : list ascii -> double) : double :=
  match getenv "V2X_PACKET_LOSS_RATE" with
  | Some loss_env =>
      let drop_rate := strtod loss_env in
      let drop_rate := if double_lt drop_rate (Finite 0) then Finite 0 else drop_rate in
      let drop_rate := if double_lt (Finite 1) drop_rate then Finite 1 else drop_rate in
      drop_rate
  | None => Finite 0
  end.

(** [drop_rate > 0.0 && dist(rng) < drop_rate] on doubles. *)
Definition drop_test (drop_rate : double) (draw : Q) : bool :=
  double_lt (Finite 0) drop_rate && double_lt (Finite draw) drop_rate.

(** ** [Vehicle::print_spdu]

    The lines written to [std::cout]; [to_time_t] is
    [std::chrono::system_clock::to_time_t]. *)

Definition tab : ascii := "009".

Definition print_spdu (to_time_t : time_point -> Z) (spdu : spdu_fragment)
    (valid : bool) : list (list ascii) :=
  [ literal "SPDU received!";
    tab :: literal "ID:" ++ tab :: Files.to_string (vehicle_id spdu);
    tab :: literal "Sequence:" ++ tab :: Files.to_string (sequence_number spdu);
    tab :: literal "Valid:" ++ tab :: literal (if valid then "TRUE" else "FALSE");
    tab :: literal "Fragments:" ++ tab :: Files.to_string (fragment_count spdu);
    tab :: literal "Scheme:" ++ tab ::
      literal (if bool_decide (spdu_signature_scheme spdu = to_uint8 (scheme_code FALCON))
               then "Falcon" else "ECDSA");
    tab :: literal "Sent:" ++ tab ::
      Files.to_string
        (to_time_t (timestamp (headerInfo (tbsData (signedData (data spdu)))))) ].

(** ** [Vehicle::receive]: the metrics written after the loop *)

Record metric : Type := {
  total_us : Z;
  first_us : time_point;
  last_us : time_point;
}.

(** The [if (first_fragment_seen)] block after the loop: the numbers of the
    METRIC line, [None] when nothing is written. *)
Definition receive_metric (st : receiver_state) : outcome (option metric) :=
  if first_fragment_seen st then
    total_duration ← int64_sub (last_completion_time st) (run_first_fragment_time st);
    mret (Some {| total_us := total_duration;
                  first_us := run_first_fragment_time st;
                  last_us := last_completion_time st |})
  else mret None.

(** ** main.cpp

    [program_arguments] and its enumerations are declared in
    [arguments.h]; the record has the members [main] assigns, and [args]
    starts from the value [program_arguments args;] leaves in it. *)

Inductive technology : Type := DSRC | CV2X.
Inductive simulation_mode : Type := TRANSMITTER | RECEIVER.

Record program_arguments : Type := {
  tech_choice : technology;
  sim_mode : simulation_mode;
  tkgui : bool;
  webgui : bool;
  test : bool;
}.

(** [std::string (argv[i]) == text].  [argv[argc]] is the null pointer,
    from which no [std::string] can be constructed. *)
Definition argv_equals (argv : list (list ascii)) (i : Z) (text : string)
    : outcome bool :=
  match argv !! Z.to_nat i with
  | Some argument => Done (bool_decide (argument = literal text))
  | None => Undefined
  end.

(** Lines 22 to 72 of [main]: the command line. *)
Definition main_arguments (argv : list (list ascii)) (args : program_arguments)
    : outcome program_arguments :=
  let argc := zlength argv in
  if bool_decide (argc < 3 \/ argc > 5) then Exit EXIT_FAILURE
  else
    dsrc ← argv_equals argv 1 "dsrc";
    args ←
      (if dsrc : bool then
         mret {| tech_choice := DSRC; sim_mode := sim_mode args;
                 tkgui := tkgui args; webgui := webgui args; test := test args |}
       else
         cv2x ← argv_equals argv 1 "cv2x";
         if cv2x : bool then
           mret {| tech_choice := CV2X; sim_mode := sim_mode args;
                   tkgui := tkgui args; webgui := webgui args; test := test args |}
         else Exit EXIT_FAILURE);
    transmitter ← argv_equals argv 2 "transmitter";
    args ←
      (if transmitter : bool then
         mret {| tech_choice := tech_choice args; sim_mode := TRANSMITTER;
                 tkgui := tkgui args; webgui := webgui args; test := test args |}
       else
         receiver ← argv_equals argv 2 "receiver";
         if receiver : bool then
           mret {| tech_choice := tech_choice args; sim_mode := RECEIVER;
                   tkgui := tkgui args; webgui := webgui args; test := test args |}
         else Exit EXIT_FAILURE);
    is_tkgui ← argv_equals argv 3 "tkgui";
    args ←
      (if is_tkgui : bool then
         mret {| tech_choice := tech_choice args; sim_mode := sim_mode args;
                 tkgui := true; webgui := webgui args; test := test args |}
       else
         is_webgui ← argv_equals argv 3 "webgui";
         if is_webgui : bool then
           mret {| tech_choice := tech_choice args; sim_mode := sim_mode args;
                   tkgui := tkgui args; webgui := true; test := test args |}
         else
           nogui ← argv_equals argv 3 "nogui";
           if nogui : bool then
             (* [args.tkgui, args.webgui = false;]: the comma operator
                evaluates [args.tkgui] and assigns [args.webgui] only *)
             mret {| tech_choice := tech_choice args; sim_mode := sim_mode args;
                     tkgui := tkgui args; webgui := false; test := test args |}
           else Exit EXIT_FAILURE);
    if bool_decide (argc >= 4) then
      if bool_decide (argc = 5) then
        is_test ← argv_equals argv 4 "--test";
        if is_test : bool then
          mret {| tech_choice := tech_choice args; sim_mode := sim_mode args;
                  tkgui := tkgui args; webgui := webgui args; test := true |}
        else Exit EXIT_FAILURE
      else mret args
    else mret args.

(** [std::tolower] in the "C" locale, on an [unsigned char]. *)
Definition tolower (c : ascii) : ascii :=
  if bool_decide (char_code "A" <= char_code c <= char_code "Z")
  then ascii_of_N (Z.to_N (char_code c + 32))
  else c.

Definition to_int (x : Z) : Z := (x + 2 ^ 31) mod 2 ^ 32 - 2 ^ 31.

(** Lines 83 to 103 of [main]: the signature options.  [config_scheme] and
    [config_fragment_bytes] are what [tree.get] finds at
    [scenario.signatureScheme] and [scenario.falcon.fragmentBytes] ([None]:
    the default given to [get] is returned); [strtoul text] is the value of
    [std::strtoul (text, nullptr, 10)]. *)
Definition main_pqc_options (getenv : string -> option (list ascii))
    (config_scheme : option (list ascii)) (config_fragment_bytes : option Z)
    (strtoul : list ascii -> Z) : pqc_options :=
  let scheme_str :=
    match getenv "V2X_SIGNATURE_SCHEME" with
    | Some scheme_env => scheme_env
    | None => default (literal "ecdsa") config_scheme
    end in
  let scheme_str := tolower <$> scheme_str in
  let scheme :=
    if bool_decide (scheme_str = literal "falcon") then FALCON else ECDSA in
  let fragment_from_config := default (to_int 256) config_fragment_bytes in
  let falcon_fragment_size := to_size_t fragment_from_config in
  let falcon_fragment_size :=
    match getenv "V2X_FALCON_FRAGMENT_BYTES" with
    | Some fragment_env => strtoul fragment_env
    | None => falcon_fragment_size
    end in
  {| scheme := scheme; falcon_fragment_size := falcon_fragment_size |}.

(** ** Stand-ins for the parameters

    Fixed signatures of realistic lengths, verification that always
    succeeds and every key on file: the concrete runs at the end of the
    file apply the theorems to them. *)

Module Demo.

Definition sha256sum (bytes : list byte) : list byte := take 32 (bytes ++ zeros 32).
Definition ECDSA_size (key : EC_KEY) : Z := 72.
Definition ecdsa_sign (call : nat) (digest : list byte) (key : EC_KEY) : list byte :=
  replicate 70 x30.
Definition ecdsa_verify (digest sig : list byte) (len : Z) (key : EC_KEY) : bool := true.
Definition falcon_sign (call : nat) (msg secret_key : list byte) : list byte :=
  replicate 600 x39.
Definition falcon_verify (msg sig public_key : list byte) : bool := true.
Definition calculate_speed_kph (lat1 lat2 lon1 lon2 : float) (ms : Z) : float := 0.
Definition calculate_heading (lat1 lat2 lon1 lon2 : float) : float := 0.
Definition tbsData_image (tbs : tbs_data) : list byte := zeros 32.
Definition sizeof_certificate : Z := 64.
Definition key_file (vehicle : Z) (certificate : bool) : option EC_KEY := Some [].
Definition falcon_public_key_file (vehicle : Z) : option (list byte) := Some [].
Definition sendto_result (k : nat) : Z := 0.

Definition vehicle (s : signature_scheme) : Vehicle :=
  {| number := 0;
     pqc := {| scheme := s; falcon_fragment_size := 256 |};
     private_ec_key := [];
     cert_private_ec_key := [];
     vehicle_certificate_ecdsa := zeros sizeof_certificate;
     this_certificate_signature := zeros CERTIFICATE_SIGNATURE_SIZE;
     certificate_buffer_length := 0;
     falcon_private_key := [x01];
     timestep := [[1; 2; 3]] |}.

Definition sender (s : signature_scheme) : tx_state :=
  {| this := vehicle s; calls := [] |}.

Definition template : spdu_fragment := spdu_fragment_default sizeof_certificate.

(** Two fragments of two bytes each of a four-byte signature. *)
Definition half (i : Z) : spdu_fragment :=
  set_fragmentation i 2 4 2 (2 * i) (zeros MAX_SIGNATURE_FRAGMENT_SIZE) template.

End Demo.

(** Stand-ins for the files: vehicle 7 has a trace of one line, a Falcon
    private key of one byte and a public key of one byte; [std::stof] is
    replaced by the length of the field. *)
Module Disk.

Definition OQS_SIG_falcon_512_length_secret_key : Z := 1.
Definition stof (word : list ascii) : except float := Returns (Z.of_nat (length word)).
Definition files : Files.file_system := fun path =>
  if decide (path = Files.trace_path 7) then Some (literal "1,22,333")
  else if decide (path = Files.falcon_private_key_path 7) then Some (literal "ab")
  else if decide (path = Files.falcon_public_key_path 7) then Some (literal "CD")
  else None.

Definition options : pqc_options := {| scheme := FALCON; falcon_fragment_size := 256 |}.

(** The vehicle the constructor builds from these files. *)
Definition vehicle : Vehicle :=
  {| number := 7;
     pqc := options;
     private_ec_key := [];
     cert_private_ec_key := [];
     vehicle_certificate_ecdsa := zeros Demo.sizeof_certificate;
     this_certificate_signature := zeros CERTIFICATE_SIGNATURE_SIZE;
     certificate_buffer_length := 0;
     falcon_private_key := [xab];
     timestep := [[1; 2; 3]] |}.

(** A Falcon sender whose private key was never loaded. *)
Definition keyless_sender : tx_state :=
  {| this := {| number := 0;
                pqc := options;
                private_ec_key := [];
                cert_private_ec_key := [];
                vehicle_certificate_ecdsa := zeros Demo.sizeof_certificate;
                this_certificate_signature := zeros CERTIFICATE_SIGNATURE_SIZE;
                certificate_buffer_length := 0;
                falcon_private_key := [];
                timestep := [[1; 2; 3]] |};
     calls := [] |}.

(** A datagram that declares no fragment at all. *)
Definition empty_spdu : spdu_fragment :=
  set_fragmentation 0 0 4 0 0 (zeros MAX_SIGNATURE_FRAGMENT_SIZE) Demo.template.

End Disk.

(** Inputs at the edges of the protocol. *)
Module Edge.

(** Datagrams of an SPDU that declares two fragments and an empty
    signature buffer. *)
Definition unsigned (i : Z) : spdu_fragment :=
  set_fragmentation i 2 0 0 0 (zeros MAX_SIGNATURE_FRAGMENT_SIZE) Demo.template.

(** An ECDSA sender as the constructor leaves it: without Falcon key. *)
Definition ecdsa_sender : tx_state :=
  {| this := {| number := 0;
                pqc := {| scheme := ECDSA; falcon_fragment_size := 256 |};
                private_ec_key := [];
                cert_private_ec_key := [];
                vehicle_certificate_ecdsa := zeros Demo.sizeof_certificate;
                this_certificate_signature := zeros CERTIFICATE_SIGNATURE_SIZE;
                certificate_buffer_length := 0;
                falcon_private_key := [];
                timestep := [[1; 2; 3]] |};
     calls := [] |}.

End Edge.

Section Vehicle.

Set Default Proof Using "Type".

(** *** Parameters: what [Vehicle.cpp] takes from outside

    [sha256sum], [ecdsa_sign], [ecdsa_verify], [falcon_sign] and
    [falcon_verify] are declared in [v2vcrypto.h]; [ECDSA_size] is
    OpenSSL's.  A signing primitive is given by the signature bytes it
    produces: the call writes them at the start of the output buffer and
    stores their number in the length argument.  Signing is randomised, so
    the result also depends on the call: the first argument is the number
    of calls into the library that came before.  [ecdsa_verify] receives
    the buffer and the length separately, as in the source. *)
Variable sha256sum : list byte -> list byte.
Variable ECDSA_size : EC_KEY -> Z.
Variable ecdsa_sign : nat -> list byte -> EC_KEY -> list byte.
Variable ecdsa_verify : list byte -> list byte -> Z -> EC_KEY -> bool.
Variable falcon_sign : nat -> list byte -> list byte -> list byte.
Variable falcon_verify : list byte -> list byte -> list byte -> bool.

(** [calculate_speed_kph] and [calculate_heading] of [bsm.h]. *)
Variable calculate_speed_kph : float -> float -> float -> float -> Z -> float.
Variable calculate_heading : float -> float -> float -> float -> float.

(** The object representation of a [tbsData] ([sizeof] bytes at its
    address), and [sizeof(ecdsa_explicit_certificate)]. *)
Variable tbsData_image : tbs_data -> list byte.
Variable sizeof_certificate : Z.

(** Key files, as [load_key] and [load_falcon_public_key] find them:
    [None] when the file is missing or malformed (the loaders then call
    [exit(EXIT_FAILURE)]).  The loaders' file parsing and the memoisation
    of Falcon public keys do not change what is returned. *)
Variable key_file : Z -> bool -> option EC_KEY.
Variable falcon_public_key_file : Z -> option (list byte).

(** The length of a Falcon-512 secret key in liboqs, and [std::stof]. *)
Variable OQS_SIG_falcon_512_length_secret_key : Z.
Variable stof : list ascii -> except float.

Definition tx_sha256sum (bytes : list byte) : tx (list byte) :=
  record_call (Call_sha256sum bytes);; mret (sha256sum bytes).

Definition tx_ecdsa_sign (digest : list byte) (key : EC_KEY) : tx (list byte) :=
  call ← calls_so_far;
  record_call (Call_ecdsa_sign digest key);; mret (ecdsa_sign call digest key).

Definition tx_falcon_sign (msg secret_key : list byte) : tx (list byte) :=
  call ← calls_so_far;
  record_call (Call_falcon_sign msg secret_key);;
  mret (falcon_sign call msg secret_key).

(** *** [Vehicle::generate_bsm] *)
Definition generate_bsm (v : Vehicle) (t : Z) : outcome bsm :=
  row ← index (timestep v) t;
  lat ← index row 0;
  lon ← index row 1;
  elev ← index row 2;
  if bool_decide (t ≠ 0) then
    prev ← index (timestep v) (t - 1);
    prev_lat ← index prev 0;
    prev_lon ← index prev 1;
    mret {| latitude := lat; longitude := lon; elevation := elev;
            speed := calculate_speed_kph prev_lat lat prev_lon lon 100;
            heading := calculate_heading prev_lat lat prev_lon lon |}
  else
    mret {| latitude := lat; longitude := lon; elevation := elev;
            speed := 0; heading := 0 |}.

(** *** [Vehicle::generate_spdu]

    [now] is the reading of [system_clock::now()]. *)
Definition generate_spdu (sequence_number timestep : Z) (now : time_point)
    : tx spdu_fragment :=
  v ← get_this;
  let spdu := spdu_fragment_default sizeof_certificate in
  let spdu := set_vehicle_id (number v) spdu in
  let spdu := set_sequence_number sequence_number spdu in
  msg ← lift (generate_bsm v timestep);
  let certificate := vehicle_certificate_ecdsa v in
  certificate_digest ← tx_sha256sum certificate;
  sig ← tx_ecdsa_sign certificate_digest (cert_private_ec_key v);
  scratch ← lift (copy_n sig (zlength sig) (this_certificate_signature v) 0);
  let len := to_uint32 (zlength sig) in
  put_this (set_certificate_scratch scratch len v);;
  let spdu := set_certificate_signature_buffer_length len spdu in
  copied ← lift (copy_n scratch len (certificate_signature (data spdu)) 0);
  mret (set_data
          {| signedData :=
               {| tbsData := {| message := msg;
                                headerInfo := {| timestamp := now |} |};
                  cert := certificate |};
             certificate_signature := copied |}
          spdu).

(** *** [Vehicle::sign_message_ecdsa] *)
Definition sign_message_ecdsa (spdu : spdu_fragment) : tx spdu_fragment :=
  v ← get_this;
  hash ← tx_sha256sum (tbsData_image (tbsData (signedData (data spdu))));
  let signature_length := to_uint32 (ECDSA_size (private_ec_key v)) in
  if bool_decide (signature_length > MAX_SIGNATURE_FRAGMENT_SIZE) then
    tx_exit EXIT_FAILURE
  else
    let signature := zeros signature_length in
    sig ← tx_ecdsa_sign hash (private_ec_key v);
    signature ← lift (copy_n sig (zlength sig) signature 0);
    let signature_length := to_uint32 (zlength sig) in
    payload ← lift (copy_n signature (zlength signature)
                           (zeros MAX_SIGNATURE_FRAGMENT_SIZE) 0);
    mret (set_fragmentation 0 1 signature_length signature_length 0 payload spdu).

(** *** [Vehicle::sign_message_falcon] *)

(** Body of the fragment loop at index [idx]. *)
Definition falcon_fragment (spdu : spdu_fragment) (signature : list byte)
    (fragment_size fragment_count idx : Z) : outcome spdu_fragment :=
  let signature_len := zlength signature in
  let offset := to_uint32 (to_size_t (idx * fragment_size)) in
  let remaining := to_size_t (signature_len - offset) in
  let bytes_this_fragment := Z.min fragment_size remaining in
  payload ← copy_n (drop (Z.to_nat offset) signature) bytes_this_fragment
                   (zeros MAX_SIGNATURE_FRAGMENT_SIZE) 0;
  mret (set_fragmentation
          (to_uint16 idx) (to_uint16 fragment_count)
          (to_uint32 signature_len) (to_uint32 bytes_this_fragment) offset
          payload
          (set_signature_scheme (to_uint8 (scheme_code FALCON)) spdu)).

Definition sign_message_falcon (spdu : spdu_fragment) : tx (list spdu_fragment) :=
  v ← get_this;
  if bool_decide (falcon_private_key v = []) then
    tx_exit EXIT_FAILURE
  else
    let msg := tbsData_image (tbsData (signedData (data spdu))) in
    sig ← tx_falcon_sign msg (falcon_private_key v);
    signature ← lift (copy_n sig (zlength sig) (zeros MAX_SIGNATURE_TOTAL_SIZE) 0);
    let signature_len := zlength sig in
    let signature := resize (Z.to_nat signature_len) zero_byte signature in
    let fragment_size :=
      clamp_fragment_size (falcon_fragment_size (pqc v)) MAX_SIGNATURE_FRAGMENT_SIZE in
    let fragment_count :=
      to_size_t (signature_len + fragment_size - 1) / fragment_size in
    lift (collect (falcon_fragment spdu signature fragment_size fragment_count)
                  (seqZ 0 fragment_count)).

(** *** [Vehicle::prepare_signed_fragments] *)
Definition prepare_signed_fragments (sequence_number timestep : Z) (now : time_point)
    : tx (list spdu_fragment) :=
  base ← generate_spdu sequence_number timestep now;
  v ← get_this;
  let base := set_signature_scheme (to_uint8 (scheme_code (scheme (pqc v)))) base in
  if bool_decide (scheme (pqc v) = ECDSA) then
    signed ← sign_message_ecdsa base;
    mret [signed]
  else
    sign_message_falcon base.

(** *** [Vehicle::transmit]: one iteration of the message loop

    What leaves the process is recorded as a trace.  [rng] is the stream
    of values [dist(rng)] returns (one per call), [drop_rate] the clamped
    value of [V2X_PACKET_LOSS_RATE]; both are doubles, carried as
    rationals.  [sendto_result k] is what the [k]-th call of [sendto]
    returns. *)
Variable sendto_result : nat -> Z.

Definition sendto (fragment : spdu_fragment) (ch : tx_channel) : outcome tx_channel :=
  if bool_decide (sendto_result (sendto_calls ch) < 0) then Exit EXIT_FAILURE
  else Done {| events := events ch ++ [Ev_sendto fragment];
               sendto_calls := S (sendto_calls ch);
               draws_used := draws_used ch |}.

Definition sleep_for (ms : Z) (ch : tx_channel) : tx_channel :=
  {| events := events ch ++ [Ev_sleep_ms ms];
     sendto_calls := sendto_calls ch;
     draws_used := draws_used ch |}.

(** [drop_rate > 0.0 && dist(rng) < drop_rate], with its short circuit. *)
Definition drop_decision (drop_rate : Q) (rng : nat -> Q) (ch : tx_channel)
    : bool * tx_channel :=
  if bool_decide (0 < drop_rate)%Q then
    (bool_decide (rng (draws_used ch) < drop_rate)%Q,
     {| events := events ch; sendto_calls := sendto_calls ch;
        draws_used := S (draws_used ch) |})
  else (false, ch).

(** The first loop over [fragments]; returns the resend queue. *)
Fixpoint transmit_first_pass (drop_rate : Q) (rng : nat -> Q)
    (fragments resend_queue : list spdu_fragment) (ch : tx_channel)
    : outcome (list spdu_fragment * tx_channel) :=
  match fragments with
  | [] => Done (resend_queue, ch)
  | fragment :: rest =>
      let '(dropped, ch) := drop_decision drop_rate rng ch in
      if dropped then
        transmit_first_pass drop_rate rng rest (resend_queue ++ [fragment]) ch
      else
        ch ← sendto fragment ch;
        transmit_first_pass drop_rate rng rest resend_queue ch
  end.

(** The loop over [resend_queue]. *)
Fixpoint transmit_resend (resend_queue : list spdu_fragment) (ch : tx_channel)
    : outcome tx_channel :=
  match resend_queue with
  | [] => Done ch
  | fragment :: rest => ch ← sendto fragment ch; transmit_resend rest ch
  end.

Definition transmit_fragments (drop_rate : Q) (rng : nat -> Q)
    (fragments : list spdu_fragment) (ch : tx_channel) : outcome tx_channel :=
  '(resend_queue, ch) ← transmit_first_pass drop_rate rng fragments [] ch;
  ch ← (if bool_decide (resend_queue ≠ []) then
          transmit_resend resend_queue (sleep_for 5 ch)
        else Done ch);
  mret (sleep_for 100 ch).

(** The message loop: message [i] is built at clock reading [clock i];
    [close], the final report on [std::cout] and the setup of the socket
    have no part in what is sent. *)
Definition transmit_message (drop_rate : Q) (rng : nat -> Q) (clock : Z -> time_point)
    (i : Z) (s : tx_state) (ch : tx_channel) : outcome (tx_state * tx_channel) :=
  match prepare_signed_fragments (to_uint32 i) i (clock i) s with
  | Done (fragments, s) =>
      ch ← transmit_fragments drop_rate rng fragments ch;
      mret (s, ch)
  | Exit c => Exit c
  | Undefined => Undefined
  end.

Fixpoint transmit_messages (drop_rate : Q) (rng : nat -> Q) (clock : Z -> time_point)
    (indices : list Z) (s : tx_state) (ch : tx_channel)
    : outcome (tx_state * tx_channel) :=
  match indices with
  | [] => Done (s, ch)
  | i :: rest =>
      '(s, ch) ← transmit_message drop_rate rng clock i s ch;
      transmit_messages drop_rate rng clock rest s ch
  end.

Definition transmit (drop_rate : Q) (rng : nat -> Q) (clock : Z -> time_point)
    (num_msgs : Z) (s : tx_state) (ch : tx_channel)
    : outcome (tx_state * tx_channel) :=
  transmit_messages drop_rate rng clock (seqZ 0 num_msgs) s ch.

(** *** Key loading *)
Definition load_key (vehicle : Z) (certificate : bool) : outcome EC_KEY :=
  match key_file vehicle certificate with
  | Some key => Done key
  | None => Exit EXIT_FAILURE
  end.

Definition load_falcon_public_key (vehicle : Z) : outcome (list byte) :=
  match falcon_public_key_file vehicle with
  | Some key => Done key
  | None => Exit EXIT_FAILURE
  end.

(** *** The constructor ([Vehicle.h])

    [vehicle_certificate_ecdsa], [certificate_signature] and
    [certificate_buffer_length] are not assigned: they keep what the
    storage of the object holds ([certificate], [scratch],
    [scratch_length]).  The key loaders get the [int] argument, the member
    [number] its conversion to [uint8_t]. *)
Definition Vehicle_ctor (files : Files.file_system) (number : Z)
    (pqc_opts : pqc_options) (certificate : ecdsa_explicit_certificate)
    (scratch : list byte) (scratch_length : Z) : outcome (except Vehicle) :=
  private_ec_key ← load_key number false;
  cert_private_ec_key ← load_key number true;
  trace ← Files.load_trace stof files number [];
  match trace with
  | Throws what => mret (Throws what)
  | Returns timestep =>
      falcon_private_key ←
        (if bool_decide (scheme pqc_opts = FALCON) then
           Files.load_falcon_private_key OQS_SIG_falcon_512_length_secret_key
             files number
         else mret []);
      mret (Returns {| number := to_uint8 number;
                       pqc := pqc_opts;
                       private_ec_key := private_ec_key;
                       cert_private_ec_key := cert_private_ec_key;
                       vehicle_certificate_ecdsa := certificate;
                       this_certificate_signature := scratch;
                       certificate_buffer_length := scratch_length;
                       falcon_private_key := falcon_private_key;
                       timestep := timestep |})
  end.

(** *** [Vehicle::verify_message] *)

(** The payload-signature check (the [if (scheme == ECDSA) ... else ...]
    block). *)
Definition payload_signature_check (spdu : spdu_fragment)
    (assembled_signature : list byte) (vehicle : Z)
    (verification_private_ec_key : EC_KEY) : outcome bool :=
  let hash := sha256sum (tbsData_image (tbsData (signedData (data spdu)))) in
  if bool_decide (spdu_signature_scheme spdu = scheme_code ECDSA) then
    mret (ecdsa_verify hash assembled_signature (signature_buffer_length spdu)
                       verification_private_ec_key)
  else
    public_key ← load_falcon_public_key vehicle;
    let msg := tbsData_image (tbsData (signedData (data spdu))) in
    mret (falcon_verify msg assembled_signature public_key).

(** [elapsed_time.count() < 30000] for a [duration<double, std::milli>]
    obtained from a microsecond count: the count divided by 1000. *)
Definition recent_enough (elapsed_us : Z) : bool :=
  bool_decide (elapsed_us # 1000 < 30000 # 1)%Q.

Definition verify_message (spdu : spdu_fragment) (assembled_signature : list byte)
    (received_time : time_point) (vehicle : Z) : outcome bool :=
  verification_private_ec_key ← load_key vehicle false;
  verification_cert_private_ec_key ← load_key vehicle true;
  let certificate_hash := sha256sum (cert (signedData (data spdu))) in
  let cert_result :=
    ecdsa_verify certificate_hash (certificate_signature (data spdu))
                 (certificate_signature_buffer_length spdu)
                 verification_cert_private_ec_key in
  sig_result ← payload_signature_check spdu assembled_signature vehicle
                                       verification_private_ec_key;
  elapsed_us ← int64_sub received_time
                 (timestamp (headerInfo (tbsData (signedData (data spdu)))));
  let recent := recent_enough elapsed_us in
  mret (cert_result && sig_result && recent).

(** *** [Vehicle::receive]: the body of the receive loop

    The forwarding of the result to the GUI socket and the printing of the
    SPDU are recorded as the [completion] a pass reports. *)

Definition PendingMessage_default : PendingMessage :=
  {| template_fragment := spdu_fragment_default sizeof_certificate;
     signature_buffer := [];
     fragments_received := [];
     first_fragment_time := 0 |}.

(** [pending_messages[key]]: the stored entry, or a default-constructed one. *)
Definition lookup_or_create (pending : gmap Z PendingMessage) (key : Z)
    : PendingMessage :=
  default PendingMessage_default (pending !! key).

(** The [if (entry.signature_buffer.empty())] block. *)
Definition needs_initialisation (entry : PendingMessage) : bool :=
  bool_decide (signature_buffer entry = []).

Definition initialise_entry (incoming : spdu_fragment) (receive_time : time_point)
    : PendingMessage :=
  {| template_fragment :=
       set_fragmentation 0 (fragment_count incoming)
         (signature_buffer_length incoming) 0 (signature_offset incoming)
         (zeros MAX_SIGNATURE_FRAGMENT_SIZE) incoming;
     signature_buffer := zeros (signature_buffer_length incoming);
     fragments_received :=
       replicate (Z.to_nat (fragment_count incoming)) false;
     first_fragment_time := receive_time |}.

(** The indices of [incoming.signature_fragment] the copy dereferences
    when [incoming] reaches an entry ([[]] when a check rejects it). *)
Definition store_fragment_reads (incoming : spdu_fragment) (entry : PendingMessage)
    : list Z :=
  if bool_decide (fragment_index incoming < zlength (fragments_received entry)) then
    match fragments_received entry !! Z.to_nat (fragment_index incoming) with
    | Some false =>
        if bool_decide (to_size_t (signature_offset incoming + fragment_length incoming)
                        <= zlength (signature_buffer entry))
        then copy_n_reads (fragment_length incoming)
        else []
    | _ => []
    end
  else [].

(** The [if (incoming.fragment_index < entry.fragments_received.size())]
    block. *)
Definition store_fragment (incoming : spdu_fragment) (entry : PendingMessage)
    : outcome PendingMessage :=
  if bool_decide (fragment_index incoming < zlength (fragments_received entry)) then
    match fragments_received entry !! Z.to_nat (fragment_index incoming) with
    | Some false =>
        let offset := signature_offset incoming in
        let length := fragment_length incoming in
        if bool_decide (to_size_t (offset + length) <= zlength (signature_buffer entry))
        then
          buffer ← copy_n (signature_fragment incoming) length
                          (signature_buffer entry) offset;
          mret {| template_fragment := template_fragment entry;
                  signature_buffer := buffer;
                  fragments_received :=
                    <[Z.to_nat (fragment_index incoming) := true]>
                      (fragments_received entry);
                  first_fragment_time := first_fragment_time entry |}
        else mret entry
    | Some true => mret entry
    | None => Undefined
    end
  else mret entry.

(** The five assignments to [entry.template_fragment] after the copy. *)
Definition update_template (incoming : spdu_fragment) (entry : PendingMessage)
    : PendingMessage :=
  let t := template_fragment entry in
  let t := set_data (data incoming) t in
  let t := set_fragmentation (fragment_index t) (fragment_count incoming)
             (signature_buffer_length incoming) (fragment_length t)
             (signature_offset t) (signature_fragment t) t in
  let t := set_certificate_signature_buffer_length
             (certificate_signature_buffer_length incoming) t in
  let t := set_signature_scheme (spdu_signature_scheme incoming) t in
  {| template_fragment := t;
     signature_buffer := signature_buffer entry;
     fragments_received := fragments_received entry;
     first_fragment_time := first_fragment_time entry |}.

(** [std::all_of] over the arrival bitmap. *)
Definition complete (entry : PendingMessage) : bool :=
  forallb (fun received => received) (fragments_received entry).

(** Lines 276-310: the entry after one datagram, before completion is
    acted upon. *)
Definition reassemble (pending : gmap Z PendingMessage) (incoming : spdu_fragment)
    (receive_time : time_point) : outcome PendingMessage :=
  let key := make_message_key (vehicle_id incoming) (sequence_number incoming) in
  let entry := lookup_or_create pending key in
  let entry := if needs_initialisation entry
               then initialise_entry incoming receive_time else entry in
  entry ← store_fragment incoming entry;
  mret (update_template incoming entry).

Definition receive_datagram (st : receiver_state) (incoming : spdu_fragment)
    (receive_time : time_point) : outcome (receiver_state * report) :=
  let seen := first_fragment_seen st in
  let run_start := if seen then run_first_fragment_time st else receive_time in
  let key := make_message_key (vehicle_id incoming) (sequence_number incoming) in
  let init := needs_initialisation (lookup_or_create (pending_messages st) key) in
  entry ← reassemble (pending_messages st) incoming receive_time;
  if complete entry then
    valid_spdu ← verify_message (template_fragment entry) (signature_buffer entry)
                                receive_time (vehicle_id incoming);
    mret ({| pending_messages := delete key (pending_messages st);
             completed_messages := completed_messages st + 1;
             first_fragment_seen := true;
             run_first_fragment_time := run_start;
             last_completion_time := receive_time |},
          {| initialised := init;
             completed := Some {| completed_spdu := template_fragment entry;
                                  completed_signature := signature_buffer entry;
                                  completed_valid := valid_spdu |} |})
  else
    mret ({| pending_messages := <[key := entry]> (pending_messages st);
             completed_messages := completed_messages st;
             first_fragment_seen := true;
             run_first_fragment_time := run_start;
             last_completion_time := last_completion_time st |},
          {| initialised := init; completed := None |}).

(** The [while (completed_messages < num_msgs)] loop over the datagrams
    [recvfrom] delivers, each with the clock reading taken after it.  When
    the datagrams run out the receiver is blocked in [recvfrom]. *)
Fixpoint receive_loop (num_msgs : Z) (st : receiver_state)
    (datagrams : list (spdu_fragment * time_point))
    : outcome (receiver_state * list report) :=
  if bool_decide (completed_messages st < num_msgs) then
    match datagrams with
    | [] => Done (st, [])
    | (incoming, receive_time) :: rest =>
        match receive_datagram st incoming receive_time with
        | Done (st, r) =>
            match receive_loop num_msgs st rest with
            | Done (st, rs) => Done (st, r :: rs)
            | Exit c => Exit c
            | Undefined => Undefined
            end
        | Exit c => Exit c
        | Undefined => Undefined
        end
    end
  else Done (st, []).

Definition receiver_initial : receiver_state :=
  {| pending_messages := ∅;
     completed_messages := 0;
     first_fragment_seen := false;
     run_first_fragment_time := 0;
     last_completion_time := 0 |}.

(** * Specification-side definitions

    What the statements below are phrased with: the fragments, buffers and
    bitmaps the specification describes, well-formedness of datagrams, and
    the probability space of the transmitter's draws. *)

(** The fragment the specification describes for index [i]: a copy of the
    template with the scheme tag FALCON, the slice [i * fragment_size ..]
    of the signature and zero padding to [MAX_SIGNATURE_FRAGMENT_SIZE]. *)
Definition spec_falcon_fragment (spdu : spdu_fragment) (sig : list byte)
    (fragment_size i : Z) : spdu_fragment :=
  let len := Z.min fragment_size (zlength sig - i * fragment_size) in
  set_fragmentation i ((zlength sig + fragment_size - 1) / fragment_size)
    (zlength sig) len (i * fragment_size)
    (take (Z.to_nat len) (drop (Z.to_nat (i * fragment_size)) sig)
       ++ zeros (MAX_SIGNATURE_FRAGMENT_SIZE - len))
    (set_signature_scheme 1 spdu).

(** Writing one fragment into a buffer, as the fragment describes itself. *)
Definition place_fragment (buffer : list byte) (fragment : spdu_fragment) : list byte :=
  list_inserts (Z.to_nat (signature_offset fragment))
    (take (Z.to_nat (fragment_length fragment)) (signature_fragment fragment))
    buffer.

(** The first [k] bytes of [sig], then zeros up to its length. *)
Definition partial_buffer (sig : list byte) (k : nat) : list byte :=
  take k sig ++ replicate (length sig - k) zero_byte.

(** The buffer once the fragments of index below [k] are in place. *)
Definition reassembled_prefix (sig : list byte) (fs k : Z) : list byte :=
  partial_buffer sig (Z.to_nat (Z.min (k * fs) (zlength sig))).

(** The arrival bitmap once the fragments of index below [k] have arrived. *)
Definition arrival_bitmap (count k : Z) : list bool :=
  replicate (Z.to_nat k) true ++ replicate (Z.to_nat (count - k)) false.

(** The reassembly table is ready for the honest fragment of index [k]:
    nothing initialised for the key when [k = 0], the fragments below [k]
    in place otherwise. *)
Definition awaiting (sig : list byte) (fs k : Z)
    (pending : gmap Z PendingMessage) (key : Z) : Prop :=
  if bool_decide (k = 0) then
    needs_initialisation (lookup_or_create pending key) = true
  else
    exists entry,
      pending !! key = Some entry /\
      signature_buffer entry = reassembled_prefix sig fs k /\
      fragments_received entry = arrival_bitmap ((zlength sig + fs - 1) / fs) k.

(** A byte position lies in the slice a fragment describes. *)
Definition in_slice (p : Z) (fragment : spdu_fragment) : Prop :=
  signature_offset fragment <= p
  < signature_offset fragment + fragment_length fragment.

(** The SPDU [generate_spdu] leaves in [spdu]. *)
Definition generated_spdu (v : Vehicle) (sequence_number : Z) (now : time_point)
    (msg : bsm) (certificate_sig : list byte) : spdu_fragment :=
  set_data
    {| signedData :=
         {| tbsData := {| message := msg; headerInfo := {| timestamp := now |} |};
            cert := vehicle_certificate_ecdsa v |};
       certificate_signature :=
         certificate_sig ++ zeros (CERTIFICATE_SIGNATURE_SIZE - zlength certificate_sig) |}
    (set_certificate_signature_buffer_length (zlength certificate_sig)
       (set_sequence_number sequence_number
          (set_vehicle_id (number v) (spdu_fragment_default sizeof_certificate)))).

(** The field ranges the types of [spdu_fragment] impose on a datagram. *)
Definition well_formed (f : spdu_fragment) : Prop :=
  0 <= vehicle_id f < 2 ^ 8 /\
  0 <= sequence_number f < 2 ^ 32 /\
  0 <= spdu_signature_scheme f < 2 ^ 8 /\
  0 <= fragment_index f < 2 ^ 16 /\
  0 <= fragment_count f < 2 ^ 16 /\
  0 <= signature_buffer_length f < 2 ^ 32 /\
  0 <= fragment_length f < 2 ^ 32 /\
  0 <= signature_offset f < 2 ^ 32 /\
  0 <= certificate_signature_buffer_length f < 2 ^ 32 /\
  zlength (signature_fragment f) = MAX_SIGNATURE_FRAGMENT_SIZE.

(** The three reasons for which the receiver ignores a fragment. *)
Definition rejected (incoming : spdu_fragment) (entry : PendingMessage) : Prop :=
  zlength (fragments_received entry) <= fragment_index incoming \/
  fragments_received entry !! Z.to_nat (fragment_index incoming) = Some true \/
  zlength (signature_buffer entry)
    < signature_offset incoming + fragment_length incoming.

(** The entry a datagram is stored into: a fresh one when the stored
    buffer is empty, the stored one otherwise. *)
Definition target_entry (pending : gmap Z PendingMessage) (incoming : spdu_fragment)
    (receive_time : time_point) : PendingMessage :=
  let entry :=
    lookup_or_create pending
      (make_message_key (vehicle_id incoming) (sequence_number incoming)) in
  if needs_initialisation entry then initialise_entry incoming receive_time
  else entry.

(** Entries kept in the table are incomplete: a complete one is erased in
    the pass that completes it. *)
Definition table_incomplete (st : receiver_state) : Prop :=
  forall key entry, pending_messages st !! key = Some entry -> complete entry = false.

Definition key_of (d : spdu_fragment) : Z :=
  make_message_key (vehicle_id d) (sequence_number d).

(** The entry of [key] is under reassembly with an allocated buffer. *)
Definition live (key : Z) (st : receiver_state) : Prop :=
  exists entry,
    pending_messages st !! key = Some entry /\ signature_buffer entry ≠ [].

(** The next datagram of [key] will find an empty stored buffer. *)
Definition uninitialised (key : Z) (st : receiver_state) : Prop :=
  needs_initialisation (lookup_or_create (pending_messages st) key) = true.

(** A single-fragment SPDU whose one fragment declares 1000 bytes: every
    field is in the range of its type. *)
Definition oversized_datagram : spdu_fragment :=
  set_fragmentation 0 1 1000 1000 0 (zeros MAX_SIGNATURE_FRAGMENT_SIZE)
    (spdu_fragment_default 0).

Definition channel_initial : tx_channel :=
  {| events := []; sendto_calls := 0; draws_used := 0 |}.

(** The fragments handed to [sendto], in order. *)
Definition sent_fragments (evs : list tx_event) : list spdu_fragment :=
  omap (fun e => match e with Ev_sendto f => Some f | Ev_sleep_ms _ => None end) evs.

(** Whether the draw of index [i] makes the transmitter hold a fragment
    back. *)
Definition drop_flag (drop_rate : Q) (rng : nat -> Q) (i : nat) : bool :=
  bool_decide (0 < drop_rate)%Q && bool_decide (rng i < drop_rate)%Q.

(** The fragments sent in the first pass, and those queued for the retry
    burst, when the fragment at position [j] is decided by the draw
    [start + j]. *)
Fixpoint kept_fragments (drop_rate : Q) (rng : nat -> Q) (start : nat)
    (fragments : list spdu_fragment) : list spdu_fragment :=
  match fragments with
  | [] => []
  | f :: rest =>
      if drop_flag drop_rate rng start
      then kept_fragments drop_rate rng (S start) rest
      else f :: kept_fragments drop_rate rng (S start) rest
  end.

Fixpoint dropped_fragments (drop_rate : Q) (rng : nat -> Q) (start : nat)
    (fragments : list spdu_fragment) : list spdu_fragment :=
  match fragments with
  | [] => []
  | f :: rest =>
      if drop_flag drop_rate rng start
      then f :: dropped_fragments drop_rate rng (S start) rest
      else dropped_fragments drop_rate rng (S start) rest
  end.

(** An SPDU is delivered by a run of the transmitter when each of its
    fragments was handed to [sendto] (exactly once). *)
Definition delivered (fragments : list spdu_fragment) (run : outcome tx_channel) : bool :=
  match run with
  | Done ch => bool_decide (sent_fragments (events ch) ≡ₚ fragments)
  | _ => false
  end.

(** A uniform distribution on [K] equidistant points of [[0,1)]:
    [u < p] has probability [p] whenever [p * K] is an integer. *)
Definition grid (K : nat) : list Q :=
  (fun j => Z.of_nat j # Pos.of_nat K) <$> seq 0 K.

Fixpoint draw_vectors (K N : nat) : list (list Q) :=
  match N with
  | O => [[]]
  | S n => u ← grid K; (cons u) <$> draw_vectors K n
  end.

Definition rng_of (draws : list Q) (i : nat) : Q := nth i draws 0%Q.

(** The fraction of the equally likely draw vectors on which the SPDU is
    delivered. *)
Definition delivery_probability (K : nat) (drop_rate : Q)
    (fragments : list spdu_fragment) : Q :=
  let space := draw_vectors K (length fragments) in
  let favourable :=
    filter (fun draws =>
              delivered fragments
                (transmit_fragments drop_rate (rng_of draws) fragments channel_initial)
              = true) space in
  Z.of_nat (length favourable) # Pos.of_nat (length space).

(** The characters [decode_hex_char] accepts. *)
Definition is_hex_digit (c : ascii) : Prop :=
  char_code "0" <= char_code c <= char_code "9" \/
  char_code "a" <= char_code c <= char_code "f" \/
  char_code "A" <= char_code c <= char_code "F".

Definition byte_value (b : byte) : Z := Z.of_N (Byte.to_N b).

(** The hex digit of a value below 16, in the chosen case. *)
Definition hex_digit (upper : bool) (n : Z) : ascii :=
  ascii_of_N
    (Z.to_N (if bool_decide (n < 10) then char_code "0" + n
             else (if upper then char_code "A" else char_code "a") + n - 10)).

(** Two hex digits per byte, high nibble first; [upper i] tells the case
    of the digit at position [i]. *)
Fixpoint hex_of_bytes (upper : nat -> bool) (bytes : list byte) : list ascii :=
  match bytes with
  | [] => []
  | b :: rest =>
      hex_digit (upper 0%nat) (byte_value b / 16)
        :: hex_digit (upper 1%nat) (byte_value b mod 16)
        :: hex_of_bytes (fun i => upper (S (S i))) rest
  end.

(** The public key the file of vehicle [number] holds, if it holds one. *)
Definition stored_public_key (public_key_length : Z) (files : Files.file_system)
    (number : Z) : option (list byte) :=
  match files (Files.falcon_public_key_path number) with
  | Some text =>
      match hex_to_bytes text with
      | Returns key =>
          if bool_decide (zlength key = public_key_length) then Some key else None
      | Throws _ => None
      end
  | None => None
  end.

(** Every cached key is the one its file holds. *)
Definition cache_agrees (public_key_length : Z) (files : Files.file_system)
    (cache : gmap Z (list byte)) : Prop :=
  forall number key,
    cache !! number = Some key ->
    stored_public_key public_key_length files number = Some key.

(** The rational the transmitter model is run with for a loss rate: NaN
    never passes [drop_rate > 0.0], as a rate of 0. *)
Definition rate_of (drop_rate : double) : Q :=
  match drop_rate with
  | Finite q => q
  | _ => 0%Q
  end.

(** The members of the sender that no signing call assigns. *)
Definition same_vehicle (v v' : Vehicle) : Prop :=
  number v' = number v /\
  pqc v' = pqc v /\
  private_ec_key v' = private_ec_key v /\
  cert_private_ec_key v' = cert_private_ec_key v /\
  vehicle_certificate_ecdsa v' = vehicle_certificate_ecdsa v /\
  falcon_private_key v' = falcon_private_key v /\
  timestep v' = timestep v /\
  length (this_certificate_signature v') = length (this_certificate_signature v).

(** The number of passes that completed an SPDU. *)
Definition completions (reports : list report) : Z :=
  zlength (filter (fun r => is_Some (completed r)) reports).

(** The reassembly buffer when exactly the fragments marked in [bitmap]
    are in place: their signature bytes, and zeros elsewhere. *)
Definition masked_signature (sig : list byte) (fs : Z) (bitmap : list bool)
    : list byte :=
  imap (fun p b =>
          if default false (bitmap !! (p / Z.to_nat fs)%nat) then b else zero_byte)
       sig.

(** The table holds, for [key], the fragments marked in [bitmap] and no
    others; nothing at all when none is marked and the entry is still to be
    initialised. *)
Definition assembling (sig : list byte) (fs : Z) (bitmap : list bool)
    (pending : gmap Z PendingMessage) (key : Z) : Prop :=
  (Forall (fun b => b = false) bitmap /\
   needs_initialisation (lookup_or_create pending key) = true)
  \/
  exists entry,
    pending !! key = Some entry /\
    signature_buffer entry = masked_signature sig fs bitmap /\
    fragments_received entry = bitmap.

(** The verdict on an honest Falcon SPDU whose signature [sig] is
    reassembled at time [t]. *)
Definition falcon_verdict (spdu : spdu_fragment) (sig : list byte)
    (cert_key : EC_KEY) (public_key : list byte) (t : time_point) : bool :=
  ecdsa_verify (sha256sum (cert (signedData (data spdu))))
               (certificate_signature (data spdu))
               (certificate_signature_buffer_length spdu) cert_key
  && falcon_verify (tbsData_image (tbsData (signedData (data spdu)))) sig public_key
  && recent_enough (t - timestamp (headerInfo (tbsData (signedData (data spdu))))).

(** The time the transmitter spent in [sleep_for], in milliseconds. *)
Definition slept (evs : list tx_event) : Z :=
  foldr (fun e total =>
           match e with Ev_sleep_ms ms => ms + total | Ev_sendto _ => total end)
        0 evs.

(** A sender with what its signer needs: the 72-byte scratch array, a
    certificate key whose signatures fit it, and for the payload either a
    key whose signatures fit a fragment (ECDSA) or a loaded Falcon key. *)
Definition provisioned (v : Vehicle) : Prop :=
  zlength (this_certificate_signature v) = CERTIFICATE_SIGNATURE_SIZE /\
  ECDSA_size (cert_private_ec_key v) <= CERTIFICATE_SIGNATURE_SIZE /\
  match scheme (pqc v) with
  | ECDSA => 0 <= ECDSA_size (private_ec_key v) <= MAX_SIGNATURE_FRAGMENT_SIZE
  | FALCON => falcon_private_key v <> [] /\ 0 <= falcon_fragment_size (pqc v)
  end.

(** * Properties *)

(** ** Buffers and casts *)

Lemma zlength_nonneg {A} (l : list A) : 0 <= zlength l.
Proof. unfold zlength. lia. Qed.

Lemma zlength_zeros n : 0 <= n -> zlength (zeros n) = n.
Proof. intros Hn. unfold zlength, zeros. rewrite length_replicate. lia. Qed.

Lemma zlength_app {A} (l k : list A) : zlength (l ++ k) = zlength l + zlength k.
Proof. unfold zlength. rewrite length_app. lia. Qed.

Lemma to_uint32_small x : 0 <= x < 2 ^ 32 -> to_uint32 x = x.
Proof. intros Hx. unfold to_uint32. by apply Z.mod_small. Qed.

Lemma to_uint16_small x : 0 <= x < 2 ^ 16 -> to_uint16 x = x.
Proof. intros Hx. unfold to_uint16. by apply Z.mod_small. Qed.

Lemma to_size_t_small x : 0 <= x < 2 ^ 64 -> to_size_t x = x.
Proof. intros Hx. unfold to_size_t. by apply Z.mod_small. Qed.

(** Writing a prefix over a buffer of zeros leaves zero padding behind it. *)
Lemma copy_n_prefix_zeros (src : list byte) (n cap : Z) :
  0 <= n <= zlength src -> n <= cap ->
  copy_n src n (zeros cap) 0
  = Done (take (Z.to_nat n) src ++ zeros (cap - n)).
Proof.
  intros Hn Hcap. unfold copy_n.
  rewrite bool_decide_eq_true_2 by done.
  rewrite bool_decide_eq_true_2 by (rewrite zlength_zeros; lia).
  f_equal. unfold zeros.
  replace (Z.to_nat cap) with (Z.to_nat n + Z.to_nat (cap - n))%nat by lia.
  rewrite replicate_add. change (Z.to_nat 0) with 0%nat.
  rewrite list_inserts_0_r; [done|].
  rewrite length_take, length_replicate. unfold zlength in Hn. lia.
Qed.

Lemma copy_n_whole_zeros (src : list byte) (cap : Z) :
  zlength src <= cap ->
  copy_n src (zlength src) (zeros cap) 0 = Done (src ++ zeros (cap - zlength src)).
Proof.
  intros Hcap. pose proof (zlength_nonneg src).
  rewrite copy_n_prefix_zeros by lia.
  rewrite take_ge; [done|]. unfold zlength. lia.
Qed.

Lemma collect_Done {A B} (body : A -> outcome B) (g : A -> B) (l : list A) :
  (forall x, x ∈ l -> body x = Done (g x)) ->
  collect body l = Done (g <$> l).
Proof.
  induction l as [|x l IH]; intros Hbody; simpl; [done|].
  rewrite Hbody by left.
  rewrite IH; [done|]. intros y Hy. apply Hbody. by right.
Qed.

(** ** [make_message_key] *)

Lemma make_message_key_eq (vehicle sequence : Z) :
  0 <= vehicle -> 0 <= sequence < 2 ^ 32 ->
  make_message_key vehicle sequence = vehicle * 2 ^ 32 + sequence.
Proof.
  intros Hv Hs. unfold make_message_key.
  assert (Hdisjoint : Z.land (Z.shiftl vehicle 32) sequence = 0).
  { apply Z.bits_inj'. intros n Hn. rewrite Z.land_spec, Z.bits_0.
    destruct (Z.lt_ge_cases n 32) as [Hlow|Hhigh].
    - by rewrite Z.shiftl_spec_low.
    - rewrite <- (Z.mod_small sequence (2 ^ 32)) by done.
      rewrite Z.mod_pow2_bits_high by lia. apply andb_false_r. }
  rewrite <- Z.lxor_lor, <- Z.add_nocarry_lxor by done.
  by rewrite Z.shiftl_mul_pow2.
Qed.

(** Distinct (vehicle_id, sequence_number) pairs have distinct keys. *)
Lemma make_message_key_inj (v1 s1 v2 s2 : Z) :
  0 <= v1 -> 0 <= s1 < 2 ^ 32 ->
  0 <= v2 -> 0 <= s2 < 2 ^ 32 ->
  make_message_key v1 s1 = make_message_key v2 s2 ->
  v1 = v2 /\ s1 = s2.
Proof.
  intros Hv1 Hs1 Hv2 Hs2. rewrite !make_message_key_eq by done. lia.
Qed.

(** ** [clamp_fragment_size] *)

Lemma clamp_fragment_size_range requested :
  0 <= requested ->
  1 <= clamp_fragment_size requested MAX_SIGNATURE_FRAGMENT_SIZE
    <= MAX_SIGNATURE_FRAGMENT_SIZE.
Proof.
  intros Hreq. unfold clamp_fragment_size, MAX_SIGNATURE_FRAGMENT_SIZE.
  case_bool_decide; lia.
Qed.

(** [(len + size - 1) / size] is the ceiling of [len / size]. *)
Lemma ceil_div_bounds len fs :
  0 <= len -> 1 <= fs ->
  let count := (len + fs - 1) / fs in
  0 <= count /\ len <= count * fs < len + fs.
Proof.
  intros Hlen Hfs count.
  pose proof (Z.div_mod (len + fs - 1) fs ltac:(lia)) as Hdm.
  pose proof (Z.mod_pos_bound (len + fs - 1) fs ltac:(lia)) as Hmod.
  fold count in Hdm. nia.
Qed.

(** ** Falcon fragmentation *)

Lemma falcon_fragment_spec spdu sig fs idx :
  1 <= fs <= MAX_SIGNATURE_FRAGMENT_SIZE ->
  zlength sig <= MAX_SIGNATURE_TOTAL_SIZE ->
  0 <= idx < (zlength sig + fs - 1) / fs ->
  falcon_fragment spdu sig fs ((zlength sig + fs - 1) / fs) idx
  = Done (spec_falcon_fragment spdu sig fs idx).
Proof.
  unfold MAX_SIGNATURE_FRAGMENT_SIZE, MAX_SIGNATURE_TOTAL_SIZE.
  intros Hfs HL Hidx.
  pose proof (zlength_nonneg sig) as HL0.
  destruct (ceil_div_bounds (zlength sig) fs HL0 ltac:(lia)) as [Hc0 Hc].
  set (count := (zlength sig + fs - 1) / fs) in *.
  assert (Hoff : 0 <= idx * fs < zlength sig) by nia.
  unfold falcon_fragment, spec_falcon_fragment.
  rewrite (to_size_t_small (idx * fs)) by lia.
  rewrite (to_uint32_small (idx * fs)) by lia.
  rewrite (to_size_t_small (zlength sig - idx * fs)) by lia.
  set (len := Z.min fs (zlength sig - idx * fs)).
  assert (Hlen : 1 <= len <= 512) by lia.
  assert (Hdrop : zlength (drop (Z.to_nat (idx * fs)) sig) = zlength sig - idx * fs).
  { unfold zlength in *. rewrite length_drop. lia. }
  rewrite copy_n_prefix_zeros by (unfold MAX_SIGNATURE_FRAGMENT_SIZE; lia).
  simpl. unfold mret, outcome_ret. f_equal.
  rewrite (to_uint16_small idx) by nia.
  rewrite (to_uint16_small count) by nia.
  rewrite (to_uint32_small (zlength sig)) by lia.
  rewrite (to_uint32_small len) by lia.
  fold count. reflexivity.
Qed.

(** The whole Falcon signer, in closed form. *)
Lemma sign_message_falcon_spec spdu s :
  falcon_private_key (this s) ≠ [] ->
  0 <= falcon_fragment_size (pqc (this s)) ->
  let msg := tbsData_image (tbsData (signedData (data spdu))) in
  let sig := falcon_sign (length (calls s)) msg (falcon_private_key (this s)) in
  let fs := clamp_fragment_size (falcon_fragment_size (pqc (this s)))
              MAX_SIGNATURE_FRAGMENT_SIZE in
  zlength sig <= MAX_SIGNATURE_TOTAL_SIZE ->
  sign_message_falcon spdu s
  = Done (spec_falcon_fragment spdu sig fs <$> seqZ 0 ((zlength sig + fs - 1) / fs),
          {| this := this s;
             calls := calls s ++ [Call_falcon_sign msg (falcon_private_key (this s))] |}).
Proof.
  intros Hkey Hf msg sig fs HL.
  pose proof (zlength_nonneg sig) as HL0.
  pose proof (clamp_fragment_size_range _ Hf) as Hfs. fold fs in Hfs.
  unfold sign_message_falcon, get_this, mbind, tx_mbind. simpl.
  rewrite bool_decide_eq_false_2 by done.
  unfold tx_falcon_sign, calls_so_far, record_call, mbind, tx_mbind, mret, tx_ret.
  simpl. fold msg sig.
  rewrite copy_n_whole_zeros by done. simpl.
  assert (Hresize : resize (Z.to_nat (zlength sig)) zero_byte
                      (sig ++ zeros (MAX_SIGNATURE_TOTAL_SIZE - zlength sig)) = sig).
  { unfold zlength. rewrite Nat2Z.id. rewrite resize_app_le by lia.
    by rewrite resize_all. }
  rewrite Hresize. fold fs.
  unfold MAX_SIGNATURE_FRAGMENT_SIZE, MAX_SIGNATURE_TOTAL_SIZE in *.
  rewrite (to_size_t_small (zlength sig + fs - 1)) by lia.
  rewrite (collect_Done _ (spec_falcon_fragment spdu sig fs)); [done|].
  intros idx Hidx. apply elem_of_seqZ in Hidx.
  apply falcon_fragment_spec; unfold MAX_SIGNATURE_FRAGMENT_SIZE,
    MAX_SIGNATURE_TOTAL_SIZE; lia.
Qed.

Lemma zlength_fmap_seqZ {B} (g : Z -> B) n :
  0 <= n -> zlength (g <$> seqZ 0 n) = n.
Proof. intros Hn. unfold zlength. rewrite length_fmap, length_seqZ. lia. Qed.

Lemma lookup_fmap_seqZ {B} (g : Z -> B) n i :
  0 <= i < n -> (g <$> seqZ 0 n) !! Z.to_nat i = Some (g i).
Proof.
  intros Hi. rewrite list_lookup_fmap.
  rewrite (proj2 (lookup_seqZ 0 n (Z.to_nat i) i)) by lia. done.
Qed.

(** C3. For a Falcon signing that produces a signature of [L] bytes with
    the configured size [f], the signer works with [fragment_size = 512]
    when [f = 0] and [min f 512] otherwise, returns
    [ceil (L / fragment_size)] fragments, and the fragment at position [i]
    is the template with scheme tag FALCON, [fragment_index = i],
    [fragment_count] the number of fragments, [signature_buffer_length = L],
    [signature_offset = i * fragment_size],
    [fragment_length = min fragment_size (L - i * fragment_size)], and
    a 512-byte [signature_fragment] holding the signature bytes at that
    offset followed by zeros. *)
Theorem falcon_signer_fragments (spdu : spdu_fragment) (s : tx_state) :
  falcon_private_key (this s) ≠ [] ->
  0 <= falcon_fragment_size (pqc (this s)) ->
  zlength (falcon_sign (length (calls s))
                       (tbsData_image (tbsData (signedData (data spdu))))
                       (falcon_private_key (this s)))
    <= MAX_SIGNATURE_TOTAL_SIZE ->
  let f := falcon_fragment_size (pqc (this s)) in
  let fragment_size :=
    if bool_decide (f = 0) then MAX_SIGNATURE_FRAGMENT_SIZE
    else Z.min f MAX_SIGNATURE_FRAGMENT_SIZE in
  let sig := falcon_sign (length (calls s))
                         (tbsData_image (tbsData (signedData (data spdu))))
                         (falcon_private_key (this s)) in
  let L := zlength sig in
  exists (fragments : list spdu_fragment) (s' : tx_state),
    sign_message_falcon spdu s = Done (fragments, s') /\
    clamp_fragment_size f MAX_SIGNATURE_FRAGMENT_SIZE = fragment_size /\
    zlength fragments = (L + fragment_size - 1) / fragment_size /\
    L <= zlength fragments * fragment_size < L + fragment_size /\
    forall i, 0 <= i < zlength fragments ->
      exists fragment,
        fragments !! Z.to_nat i = Some fragment /\
        spdu_signature_scheme fragment = scheme_code FALCON /\
        fragment_index fragment = i /\
        fragment_count fragment = zlength fragments /\
        signature_buffer_length fragment = L /\
        signature_offset fragment = i * fragment_size /\
        fragment_length fragment = Z.min fragment_size (L - i * fragment_size) /\
        signature_fragment fragment
        = take (Z.to_nat (fragment_length fragment))
               (drop (Z.to_nat (signature_offset fragment)) sig)
          ++ zeros (MAX_SIGNATURE_FRAGMENT_SIZE - fragment_length fragment) /\
        zlength (signature_fragment fragment) = MAX_SIGNATURE_FRAGMENT_SIZE /\
        vehicle_id fragment = vehicle_id spdu /\
        sequence_number fragment = sequence_number spdu /\
        certificate_signature_buffer_length fragment
        = certificate_signature_buffer_length spdu /\
        data fragment = data spdu.
Proof.
  intros Hkey Hf HL f fragment_size sig L.
  pose proof (sign_message_falcon_spec spdu s Hkey Hf HL) as Hspec.
  cbv zeta in Hspec. fold sig f in Hspec.
  change (clamp_fragment_size f MAX_SIGNATURE_FRAGMENT_SIZE)
    with fragment_size in Hspec.
  pose proof (zlength_nonneg sig) as HL0. fold L in HL0, HL, Hspec.
  pose proof (clamp_fragment_size_range _ Hf) as Hfs.
  change (clamp_fragment_size _ _) with fragment_size in Hfs.
  destruct (ceil_div_bounds L fragment_size HL0 ltac:(lia)) as [Hc0 Hc].
  set (count := (L + fragment_size - 1) / fragment_size) in *.
  eexists _, _. split; [exact Hspec|].
  rewrite zlength_fmap_seqZ by done.
  split; [done|]. split; [done|]. split; [done|].
  intros i Hi. eexists. split; [by apply lookup_fmap_seqZ|].
  unfold MAX_SIGNATURE_FRAGMENT_SIZE, MAX_SIGNATURE_TOTAL_SIZE in *.
  assert (0 <= i * fragment_size < L) by nia.
  simpl. fold L.
  repeat split; try done.
  unfold MAX_SIGNATURE_FRAGMENT_SIZE.
  rewrite zlength_app, zlength_zeros by lia.
  unfold zlength. rewrite length_take, length_drop.
  unfold L, zlength in *. lia.
Qed.

(** ** Reassembly of the fragments of one signature *)

Lemma partial_buffer_0 sig : partial_buffer sig 0 = replicate (length sig) zero_byte.
Proof. unfold partial_buffer. by rewrite take_0, Nat.sub_0_r. Qed.

Lemma partial_buffer_all sig k : (length sig <= k)%nat -> partial_buffer sig k = sig.
Proof.
  intros Hk. unfold partial_buffer. rewrite take_ge by done.
  replace (length sig - k)%nat with 0%nat by lia. apply app_nil_r.
Qed.

Lemma length_partial_buffer sig k : length (partial_buffer sig k) = length sig.
Proof. unfold partial_buffer. rewrite length_app, length_take, length_replicate. lia. Qed.

Lemma place_slice (sig pad : list byte) (off len : nat) :
  (off + len <= length sig)%nat ->
  list_inserts off (take len (take len (drop off sig) ++ pad)) (partial_buffer sig off)
  = partial_buffer sig (off + len).
Proof.
  intros Hfit. unfold partial_buffer.
  assert (Hslice : length (take len (drop off sig)) = len).
  { rewrite length_take, length_drop. lia. }
  rewrite take_app_le by lia. rewrite take_idemp.
  replace (length sig - off)%nat with (len + (length sig - (off + len)))%nat by lia.
  rewrite replicate_add.
  rewrite <- (take_take_drop sig off len), <- app_assoc.
  assert (Hoff : off = (length (take off sig) + 0)%nat).
  { rewrite length_take. lia. }
  rewrite Hoff at 1. rewrite list_inserts_app_r. f_equal.
  apply list_inserts_0_r. by rewrite Hslice, length_replicate.
Qed.

Lemma place_spec_falcon_fragment spdu sig fs i :
  1 <= fs ->
  0 <= i < (zlength sig + fs - 1) / fs ->
  place_fragment (reassembled_prefix sig fs i) (spec_falcon_fragment spdu sig fs i)
  = reassembled_prefix sig fs (i + 1).
Proof.
  intros Hfs Hi. pose proof (zlength_nonneg sig) as HL0.
  destruct (ceil_div_bounds (zlength sig) fs HL0 Hfs) as [Hc0 Hc].
  assert (Hoff : 0 <= i * fs < zlength sig) by nia.
  unfold place_fragment, reassembled_prefix. simpl.
  replace (Z.to_nat (Z.min (i * fs) (zlength sig))) with (Z.to_nat (i * fs)) by lia.
  rewrite place_slice by (unfold zlength in *; lia).
  f_equal. lia.
Qed.

Lemma foldl_place_fragments spdu sig fs (n : nat) : forall k,
  1 <= fs -> 0 <= k ->
  k + Z.of_nat n <= (zlength sig + fs - 1) / fs ->
  foldl place_fragment (reassembled_prefix sig fs k)
        (spec_falcon_fragment spdu sig fs <$> seqZ k (Z.of_nat n))
  = reassembled_prefix sig fs (k + Z.of_nat n).
Proof.
  induction n as [|n IH]; intros k Hfs Hk Hn.
  - simpl. f_equal. lia.
  - rewrite seqZ_cons by lia. simpl.
    rewrite place_spec_falcon_fragment by lia.
    replace (Z.pred (Z.of_nat (S n))) with (Z.of_nat n) by lia.
    replace (Z.succ k) with (k + 1) by lia.
    rewrite IH by lia. f_equal. lia.
Qed.

Lemma reassembled_prefix_0 sig fs : reassembled_prefix sig fs 0 = zeros (zlength sig).
Proof.
  pose proof (zlength_nonneg sig).
  unfold reassembled_prefix. replace (Z.to_nat _) with 0%nat by lia.
  rewrite partial_buffer_0. unfold zeros, zlength. by rewrite Nat2Z.id.
Qed.

Lemma reassembled_prefix_all sig fs k :
  zlength sig <= k * fs -> reassembled_prefix sig fs k = sig.
Proof.
  intros Hk. unfold reassembled_prefix. apply partial_buffer_all.
  unfold zlength in *. lia.
Qed.

Lemma zlength_reassembled_prefix sig fs k :
  zlength (reassembled_prefix sig fs k) = zlength sig.
Proof. unfold zlength, reassembled_prefix. by rewrite length_partial_buffer. Qed.

Lemma arrival_bitmap_lookup count k :
  0 <= k < count -> arrival_bitmap count k !! Z.to_nat k = Some false.
Proof.
  intros Hk. unfold arrival_bitmap.
  rewrite lookup_app_r by (rewrite length_replicate; lia).
  rewrite length_replicate, Nat.sub_diag.
  replace (Z.to_nat (count - k)) with (S (Z.to_nat (count - k - 1))) by lia.
  done.
Qed.

Lemma arrival_bitmap_insert count k :
  0 <= k < count ->
  <[Z.to_nat k := true]> (arrival_bitmap count k) = arrival_bitmap count (k + 1).
Proof.
  intros Hk. unfold arrival_bitmap.
  rewrite insert_app_r_alt by (rewrite length_replicate; lia).
  rewrite length_replicate, Nat.sub_diag.
  replace (Z.to_nat (count - k)) with (S (Z.to_nat (count - (k + 1)))) by lia.
  replace (Z.to_nat (k + 1)) with (S (Z.to_nat k)) by lia.
  rewrite (replicate_S_end (Z.to_nat k) true), <- app_assoc. done.
Qed.

Lemma zlength_arrival_bitmap count k :
  0 <= k <= count -> zlength (arrival_bitmap count k) = count.
Proof.
  intros Hk. unfold zlength, arrival_bitmap.
  rewrite length_app, !length_replicate. lia.
Qed.

Lemma forallb_arrival_bitmap count k :
  0 <= k <= count ->
  forallb (fun received : bool => received) (arrival_bitmap count k)
  = bool_decide (k = count).
Proof.
  intros Hk. unfold arrival_bitmap. rewrite forallb_app.
  assert (Htrue : forall n, forallb (fun b : bool => b) (replicate n true) = true).
  { induction n; simpl; auto. }
  rewrite Htrue. simpl.
  case_bool_decide as Heq.
  - replace (Z.to_nat (count - k)) with 0%nat by lia. done.
  - replace (Z.to_nat (count - k)) with (S (Z.to_nat (count - k - 1))) by lia. done.
Qed.

Lemma zlength_spec_payload spdu sig fs i :
  1 <= fs <= MAX_SIGNATURE_FRAGMENT_SIZE ->
  0 <= i < (zlength sig + fs - 1) / fs ->
  zlength (signature_fragment (spec_falcon_fragment spdu sig fs i))
  = MAX_SIGNATURE_FRAGMENT_SIZE.
Proof.
  unfold MAX_SIGNATURE_FRAGMENT_SIZE. intros Hfs Hi.
  pose proof (zlength_nonneg sig) as HL0.
  destruct (ceil_div_bounds (zlength sig) fs HL0 ltac:(lia)) as [Hc0 Hc].
  assert (Hoff : 0 <= i * fs < zlength sig) by nia.
  simpl. unfold MAX_SIGNATURE_FRAGMENT_SIZE.
  rewrite zlength_app, zlength_zeros by lia.
  unfold zlength in *. rewrite length_take, length_drop. lia.
Qed.

(** The receiver's copy step on the honest fragment of index [k], when the
    fragments below [k] are in place. *)
Lemma store_honest_fragment spdu sig fs k entry :
  1 <= fs <= MAX_SIGNATURE_FRAGMENT_SIZE ->
  zlength sig <= MAX_SIGNATURE_TOTAL_SIZE ->
  0 <= k < (zlength sig + fs - 1) / fs ->
  signature_buffer entry = reassembled_prefix sig fs k ->
  fragments_received entry = arrival_bitmap ((zlength sig + fs - 1) / fs) k ->
  store_fragment (spec_falcon_fragment spdu sig fs k) entry
  = Done {| template_fragment := template_fragment entry;
            signature_buffer := reassembled_prefix sig fs (k + 1);
            fragments_received := arrival_bitmap ((zlength sig + fs - 1) / fs) (k + 1);
            first_fragment_time := first_fragment_time entry |}.
Proof.
  intros Hfs HL Hk Hbuf Hbits.
  pose proof (zlength_spec_payload spdu sig fs k Hfs Hk) as Hpayload.
  pose proof (place_spec_falcon_fragment spdu sig fs k ltac:(lia) Hk) as Hplace.
  pose proof (zlength_nonneg sig) as HL0.
  unfold MAX_SIGNATURE_FRAGMENT_SIZE, MAX_SIGNATURE_TOTAL_SIZE in *.
  destruct (ceil_div_bounds (zlength sig) fs HL0 ltac:(lia)) as [Hc0 Hc].
  set (count := (zlength sig + fs - 1) / fs) in *.
  assert (Hoff : 0 <= k * fs < zlength sig) by nia.
  unfold store_fragment, copy_n.
  rewrite Hbits, Hbuf, Hpayload.
  rewrite zlength_arrival_bitmap, zlength_reassembled_prefix by lia.
  unfold place_fragment in Hplace. revert Hplace. simpl. intros Hplace.
  rewrite bool_decide_eq_true_2 by lia.
  rewrite arrival_bitmap_lookup by done.
  rewrite to_size_t_small by lia.
  rewrite bool_decide_eq_true_2 by lia.
  rewrite bool_decide_eq_true_2 by lia.
  rewrite bool_decide_eq_true_2 by lia.
  simpl. unfold mret, outcome_ret.
  rewrite Hplace, arrival_bitmap_insert by done. done.
Qed.

(** ** The verifier in closed form *)

Lemma verify_message_eq spdu assembled_signature received_time vehicle
    signing_key cert_key :
  key_file vehicle false = Some signing_key ->
  key_file vehicle true = Some cert_key ->
  INT64_MIN
    <= received_time - timestamp (headerInfo (tbsData (signedData (data spdu))))
    <= INT64_MAX ->
  forall sig_ok,
  payload_signature_check spdu assembled_signature vehicle signing_key = Done sig_ok ->
  verify_message spdu assembled_signature received_time vehicle
  = Done (ecdsa_verify (sha256sum (cert (signedData (data spdu))))
                       (certificate_signature (data spdu))
                       (certificate_signature_buffer_length spdu) cert_key
          && sig_ok
          && recent_enough
               (received_time
                - timestamp (headerInfo (tbsData (signedData (data spdu)))))).
Proof.
  intros Hkey Hcert Hrange sig_ok Hsig.
  unfold verify_message, load_key. rewrite Hkey, Hcert. simpl.
  rewrite Hsig. simpl. unfold int64_sub.
  rewrite bool_decide_eq_true_2 by done. done.
Qed.

(** ** The receiver on the honest fragments of one SPDU *)

Lemma reassemble_honest spdu sig fs k pending t :
  1 <= fs <= MAX_SIGNATURE_FRAGMENT_SIZE ->
  zlength sig <= MAX_SIGNATURE_TOTAL_SIZE ->
  0 <= k < (zlength sig + fs - 1) / fs ->
  awaiting sig fs k pending
           (make_message_key (vehicle_id spdu) (sequence_number spdu)) ->
  exists entry,
    reassemble pending (spec_falcon_fragment spdu sig fs k) t = Done entry /\
    signature_buffer entry = reassembled_prefix sig fs (k + 1) /\
    fragments_received entry = arrival_bitmap ((zlength sig + fs - 1) / fs) (k + 1) /\
    data (template_fragment entry) = data spdu /\
    needs_initialisation
      (lookup_or_create pending
         (make_message_key (vehicle_id spdu) (sequence_number spdu)))
    = bool_decide (k = 0).
Proof.
  intros Hfs HL Hk Hwait.
  pose proof (zlength_nonneg sig) as HL0.
  assert (Hfs1 : 1 <= fs) by lia.
  destruct (ceil_div_bounds (zlength sig) fs HL0 Hfs1) as [Hc0 Hc].
  unfold awaiting in Hwait. unfold reassemble.
  change (vehicle_id (spec_falcon_fragment spdu sig fs k)) with (vehicle_id spdu).
  change (sequence_number (spec_falcon_fragment spdu sig fs k))
    with (sequence_number spdu).
  set (key := make_message_key (vehicle_id spdu) (sequence_number spdu)) in *.
  case_bool_decide as Hk0.
  - subst k. rewrite Hwait.
    erewrite store_honest_fragment; try done.
    + simpl. eexists. split; [reflexivity|]. simpl. done.
    + simpl. by rewrite reassembled_prefix_0.
    + simpl. unfold arrival_bitmap. simpl. by rewrite Z.sub_0_r.
  - destruct Hwait as (entry & Hlook & Hbuf & Hbits).
    assert (Hinit : needs_initialisation (lookup_or_create pending key) = false).
    { unfold needs_initialisation, lookup_or_create. rewrite Hlook. simpl.
      apply bool_decide_eq_false_2. intros Hnil.
      pose proof (zlength_reassembled_prefix sig fs k) as Hlen.
      rewrite <- Hbuf, Hnil in Hlen. unfold zlength at 1 in Hlen.
      simpl in Hlen. nia. }
    rewrite Hinit. unfold lookup_or_create. rewrite Hlook. simpl.
    erewrite store_honest_fragment; try done.
    simpl. eexists. split; [reflexivity|]. simpl. done.
Qed.

Lemma payload_signature_check_Done spdu assembled_signature vehicle key public_key :
  falcon_public_key_file vehicle = Some public_key ->
  exists sig_ok,
    payload_signature_check spdu assembled_signature vehicle key = Done sig_ok.
Proof.
  intros Hpk. unfold payload_signature_check, load_falcon_public_key.
  rewrite Hpk. case_bool_decide; simpl; eauto.
Qed.

Lemma receive_honest_pending spdu sig fs k st t :
  1 <= fs <= MAX_SIGNATURE_FRAGMENT_SIZE ->
  zlength sig <= MAX_SIGNATURE_TOTAL_SIZE ->
  0 <= k -> k + 1 < (zlength sig + fs - 1) / fs ->
  awaiting sig fs k (pending_messages st)
           (make_message_key (vehicle_id spdu) (sequence_number spdu)) ->
  exists st1,
    receive_datagram st (spec_falcon_fragment spdu sig fs k) t
    = Done (st1, {| initialised := bool_decide (k = 0); completed := None |}) /\
    awaiting sig fs (k + 1) (pending_messages st1)
             (make_message_key (vehicle_id spdu) (sequence_number spdu)) /\
    completed_messages st1 = completed_messages st.
Proof.
  intros Hfs HL Hk0 Hk Hwait.
  destruct (reassemble_honest spdu sig fs k (pending_messages st) t)
    as (entry & Hre & Hbuf & Hbits & _ & Hinit); try done; [lia|].
  unfold receive_datagram.
  change (vehicle_id (spec_falcon_fragment spdu sig fs k)) with (vehicle_id spdu).
  change (sequence_number (spec_falcon_fragment spdu sig fs k))
    with (sequence_number spdu).
  rewrite Hre, Hinit. simpl. unfold complete. rewrite Hbits.
  rewrite forallb_arrival_bitmap by lia.
  rewrite bool_decide_eq_false_2 by lia.
  eexists. split; [reflexivity|]. simpl. split; [|done].
  unfold awaiting. rewrite bool_decide_eq_false_2 by lia.
  exists entry. by rewrite lookup_insert_eq.
Qed.

Lemma receive_honest_last spdu sig fs k st t signing_key cert_key public_key :
  1 <= fs <= MAX_SIGNATURE_FRAGMENT_SIZE ->
  zlength sig <= MAX_SIGNATURE_TOTAL_SIZE ->
  0 <= k -> k + 1 = (zlength sig + fs - 1) / fs ->
  awaiting sig fs k (pending_messages st)
           (make_message_key (vehicle_id spdu) (sequence_number spdu)) ->
  key_file (vehicle_id spdu) false = Some signing_key ->
  key_file (vehicle_id spdu) true = Some cert_key ->
  falcon_public_key_file (vehicle_id spdu) = Some public_key ->
  INT64_MIN <= t - timestamp (headerInfo (tbsData (signedData (data spdu))))
            <= INT64_MAX ->
  exists st1 c,
    receive_datagram st (spec_falcon_fragment spdu sig fs k) t
    = Done (st1, {| initialised := bool_decide (k = 0); completed := Some c |}) /\
    completed_signature c = sig /\
    data (completed_spdu c) = data spdu /\
    pending_messages st1 !! make_message_key (vehicle_id spdu) (sequence_number spdu)
    = None /\
    completed_messages st1 = completed_messages st + 1.
Proof.
  intros Hfs HL Hk0 Hk Hwait Hkey Hcert Hpk Hrange.
  pose proof (zlength_nonneg sig) as HL0.
  destruct (ceil_div_bounds (zlength sig) fs HL0 ltac:(lia)) as [Hc0 Hc].
  destruct (reassemble_honest spdu sig fs k (pending_messages st) t)
    as (entry & Hre & Hbuf & Hbits & Hdata & Hinit); try done; [lia|].
  destruct (payload_signature_check_Done (template_fragment entry)
              (signature_buffer entry) (vehicle_id spdu) signing_key public_key Hpk)
    as [sig_ok Hsig].
  unfold receive_datagram.
  change (vehicle_id (spec_falcon_fragment spdu sig fs k)) with (vehicle_id spdu).
  change (sequence_number (spec_falcon_fragment spdu sig fs k))
    with (sequence_number spdu).
  rewrite Hre, Hinit. simpl. unfold complete. rewrite Hbits.
  rewrite forallb_arrival_bitmap by lia.
  rewrite bool_decide_eq_true_2 by lia.
  erewrite verify_message_eq; [|exact Hkey|exact Hcert| |exact Hsig].
  2: { by rewrite Hdata. }
  simpl. eexists _, _. split; [reflexivity|]. simpl.
  split; [|split; [done|split; [by rewrite lookup_delete_eq|done]]].
  rewrite Hbuf. apply reassembled_prefix_all. lia.
Qed.

Lemma receive_loop_nil num_msgs st : receive_loop num_msgs st [] = Done (st, []).
Proof. simpl. by case_bool_decide. Qed.

Lemma receive_loop_cons num_msgs st incoming t rest :
  completed_messages st < num_msgs ->
  receive_loop num_msgs st ((incoming, t) :: rest)
  = match receive_datagram st incoming t with
    | Done (st, r) =>
        match receive_loop num_msgs st rest with
        | Done (st, rs) => Done (st, r :: rs)
        | Exit c => Exit c
        | Undefined => Undefined
        end
    | Exit c => Exit c
    | Undefined => Undefined
    end.
Proof. intros Hlt. simpl. by rewrite bool_decide_eq_true_2. Qed.

Lemma receive_loop_honest spdu sig fs num_msgs signing_key cert_key public_key
    (n : nat) :
  1 <= fs <= MAX_SIGNATURE_FRAGMENT_SIZE ->
  zlength sig <= MAX_SIGNATURE_TOTAL_SIZE ->
  key_file (vehicle_id spdu) false = Some signing_key ->
  key_file (vehicle_id spdu) true = Some cert_key ->
  falcon_public_key_file (vehicle_id spdu) = Some public_key ->
  forall k st times,
  0 <= k -> k + Z.of_nat (S n) = (zlength sig + fs - 1) / fs ->
  length times = S n ->
  completed_messages st < num_msgs ->
  awaiting sig fs k (pending_messages st)
           (make_message_key (vehicle_id spdu) (sequence_number spdu)) ->
  Forall (fun t => INT64_MIN
                   <= t - timestamp (headerInfo (tbsData (signedData (data spdu))))
                   <= INT64_MAX) times ->
  exists st' rs b c,
    receive_loop num_msgs st
      (zip (spec_falcon_fragment spdu sig fs <$> seqZ k (Z.of_nat (S n))) times)
    = Done (st', rs ++ [{| initialised := b; completed := Some c |}]) /\
    length rs = n /\
    Forall (fun r => completed r = None) rs /\
    completed_signature c = sig /\
    data (completed_spdu c) = data spdu /\
    pending_messages st' !! make_message_key (vehicle_id spdu) (sequence_number spdu)
    = None /\
    completed_messages st' = completed_messages st + 1.
Proof.
  intros Hfs HL Hkey Hcert Hpk.
  induction n as [|n IH]; intros k st times Hk Hcount Hlen Hlt Hwait Htimes;
    (destruct times as [|t times]; [done|]);
    apply Forall_cons in Htimes as [Ht Htimes];
    rewrite seqZ_cons by lia; rewrite fmap_cons;
    change (zip (?x :: ?l) (t :: times)) with ((x, t) :: zip l times);
    rewrite receive_loop_cons by done.
  - destruct times; [|done].
    destruct (receive_honest_last spdu sig fs k st t signing_key cert_key public_key)
      as (st1 & c & Hstep & Hsig & Hdata & Hgone & Hdone); try done; try lia.
    rewrite Hstep. change (Z.pred (Z.of_nat 1)) with 0.
    change (seqZ (Z.succ k) 0) with (@nil Z). simpl zip. rewrite receive_loop_nil.
    exists st1, [], (bool_decide (k = 0)), c. done.
  - destruct (receive_honest_pending spdu sig fs k st t)
      as (st1 & Hstep & Hwait1 & Hsame); try done; try lia.
    rewrite Hstep.
    replace (Z.pred (Z.of_nat (S (S n)))) with (Z.of_nat (S n)) by lia.
    replace (Z.succ k) with (k + 1) by lia.
    destruct (IH (k + 1) st1 times) as (st' & rs & b & c & Hrun & Hn & Hnone & Hrest);
      try done; try lia; [simpl in Hlen; lia|].
    rewrite Hrun.
    exists st', ({| initialised := bool_decide (k = 0); completed := None |} :: rs), b, c.
    split; [done|]. split; [simpl; lia|]. split; [by constructor|].
    rewrite <- Hsame. done.
Qed.

Lemma lookup_spec_fragments spdu sig fs count (i : nat) fragment :
  (spec_falcon_fragment spdu sig fs <$> seqZ 0 count) !! i = Some fragment ->
  fragment = spec_falcon_fragment spdu sig fs (Z.of_nat i) /\ Z.of_nat i < count.
Proof.
  rewrite list_lookup_fmap. intros Hlook.
  destruct (seqZ 0 count !! i) as [j|] eqn:Hj; [|done].
  apply lookup_seqZ in Hj as [-> Hj]. simpl in Hlook. by simplify_eq.
Qed.

(** C1. The fragments the Falcon signer returns, written in index order
    into a zeroed buffer of [signature_buffer_length] bytes, each at its
    [signature_offset] and for its [fragment_length], give back the
    signature byte for byte.  Their slices start at 0, each ends where the
    next begins, the last ends at the signature's length, and every byte
    position belongs to exactly one of them.  A receiver that has no entry
    for the key and is handed these fragments in index order completes the
    SPDU on the last one and passes the original signature to
    [verify_message]. *)
Theorem falcon_fragments_reassemble (spdu : spdu_fragment) (s : tx_state)
    (num_msgs : Z) (st : receiver_state) (clock : nat -> time_point)
    (signing_key cert_key : EC_KEY) (public_key : list byte) :
  falcon_private_key (this s) ≠ [] ->
  0 <= falcon_fragment_size (pqc (this s)) ->
  zlength (falcon_sign (length (calls s))
                       (tbsData_image (tbsData (signedData (data spdu))))
                       (falcon_private_key (this s)))
    <= MAX_SIGNATURE_TOTAL_SIZE ->
  key_file (vehicle_id spdu) false = Some signing_key ->
  key_file (vehicle_id spdu) true = Some cert_key ->
  falcon_public_key_file (vehicle_id spdu) = Some public_key ->
  pending_messages st !! make_message_key (vehicle_id spdu) (sequence_number spdu)
    = None ->
  completed_messages st < num_msgs ->
  (forall i, INT64_MIN
             <= clock i - timestamp (headerInfo (tbsData (signedData (data spdu))))
             <= INT64_MAX) ->
  let sig := falcon_sign (length (calls s))
                         (tbsData_image (tbsData (signedData (data spdu))))
                         (falcon_private_key (this s)) in
  exists (fragments : list spdu_fragment) (s' : tx_state),
    sign_message_falcon spdu s = Done (fragments, s') /\
    foldl place_fragment (zeros (zlength sig)) fragments = sig /\
    (forall fragment, fragments !! 0%nat = Some fragment ->
       signature_offset fragment = 0) /\
    (forall i fragment, fragments !! i = Some fragment ->
       signature_buffer_length fragment = zlength sig /\
       0 <= fragment_length fragment /\
       signature_offset fragment + fragment_length fragment
       = match fragments !! S i with
         | Some next => signature_offset next
         | None => zlength sig
         end) /\
    (forall p, 0 <= p < zlength sig ->
       exists i fragment,
         fragments !! i = Some fragment /\ in_slice p fragment /\
         forall j other,
           fragments !! j = Some other -> in_slice p other -> j = i) /\
    (fragments ≠ [] ->
       exists st' rs b c,
         receive_loop num_msgs st
           (zip fragments (clock <$> seq 0 (length fragments)))
         = Done (st', rs ++ [{| initialised := b; completed := Some c |}]) /\
         Forall (fun r => completed r = None) rs /\
         completed_signature c = sig).
Proof.
  intros Hkey Hf HL Hskey Hckey Hpk Hfresh Hlt Hclock sig.
  pose proof (sign_message_falcon_spec spdu s Hkey Hf HL) as Hspec.
  cbv zeta in Hspec. fold sig in Hspec, HL.
  pose proof (clamp_fragment_size_range _ Hf) as Hfs.
  set (fs := clamp_fragment_size _ _) in *.
  pose proof (zlength_nonneg sig) as HL0.
  destruct (ceil_div_bounds (zlength sig) fs HL0 ltac:(lia)) as [Hc0 Hc].
  set (count := (zlength sig + fs - 1) / fs) in *.
  eexists _, _. split; [exact Hspec|].
  split; [|split; [|split; [|split]]].
  - rewrite <- (reassembled_prefix_0 sig fs).
    replace count with (Z.of_nat (Z.to_nat count)) by lia.
    rewrite foldl_place_fragments by lia.
    apply reassembled_prefix_all. lia.
  - intros fragment Hlook. apply lookup_spec_fragments in Hlook as [-> _]. done.
  - intros i fragment Hlook.
    apply lookup_spec_fragments in Hlook as [-> Hi].
    assert (Hoff : 0 <= Z.of_nat i * fs < zlength sig) by nia.
    split; [done|]. split; [simpl; lia|].
    destruct (decide (Z.of_nat (S i) < count)) as [Hnext|Hlast].
    + replace (S i) with (Z.to_nat (Z.of_nat (S i))) by lia.
      rewrite lookup_fmap_seqZ by lia. simpl. nia.
    + rewrite (proj2 (lookup_ge_None _ _)).
      2: { rewrite length_fmap, length_seqZ. lia. }
      simpl. nia.
  - intros p Hp.
    assert (Hdiv : 0 <= p / fs /\ p / fs * fs <= p < (p / fs + 1) * fs).
    { pose proof (Z.div_mod p fs ltac:(lia)).
      pose proof (Z.mod_pos_bound p fs ltac:(lia)).
      split; [apply Z.div_pos; lia|nia]. }
    assert (Hi : 0 <= p / fs < count) by nia.
    exists (Z.to_nat (p / fs)), (spec_falcon_fragment spdu sig fs (p / fs)).
    split; [by apply lookup_fmap_seqZ|].
    split; [unfold in_slice; simpl; lia|].
    intros j other Hlook Hin.
    apply lookup_spec_fragments in Hlook as [-> Hj].
    unfold in_slice in Hin. simpl in Hin. nia.
  - intros Hne.
    assert (Hpos : 0 < count).
    { destruct (decide (0 < count)) as [|Hz]; [done|].
      exfalso. apply Hne. replace count with 0 by lia. done. }
    rewrite length_fmap, length_seqZ.
    destruct (receive_loop_honest spdu sig fs num_msgs signing_key cert_key
                public_key (Z.to_nat (count - 1)) Hfs HL Hskey Hckey Hpk 0 st
                (clock <$> seq 0 (Z.to_nat count)))
      as (st' & rs & b & c & Hrun & _ & Hnone & Hsig & _); try done; try lia.
    + rewrite length_fmap, length_seq. lia.
    + unfold awaiting. simpl. unfold needs_initialisation, lookup_or_create.
      by rewrite Hfresh.
    + apply Forall_fmap, Forall_forall. intros i _. apply Hclock.
    + replace (Z.of_nat (S (Z.to_nat (count - 1)))) with count in Hrun by lia.
      by exists st', rs, b, c.
Qed.

(** ** SPDU assembly and the ECDSA signer *)

Lemma copy_n_prefix (src dst : list byte) :
  zlength src <= zlength dst ->
  copy_n src (zlength src) dst 0 = Done (src ++ drop (length src) dst).
Proof.
  intros Hfit. pose proof (zlength_nonneg src). unfold copy_n.
  rewrite bool_decide_eq_true_2 by lia.
  rewrite bool_decide_eq_true_2 by lia.
  f_equal. change (Z.to_nat 0) with 0%nat.
  rewrite take_ge by (unfold zlength; lia).
  rewrite <- (take_drop (length src) dst) at 1.
  apply list_inserts_0_r. rewrite length_take. unfold zlength in *. lia.
Qed.

Lemma generate_spdu_spec sequence_number ts now s msg :
  generate_bsm (this s) ts = Done msg ->
  zlength (this_certificate_signature (this s)) = CERTIFICATE_SIGNATURE_SIZE ->
  let v := this s in
  let digest := sha256sum (vehicle_certificate_ecdsa v) in
  let certificate_sig :=
    ecdsa_sign (length (calls s) + 1) digest (cert_private_ec_key v) in
  zlength certificate_sig <= CERTIFICATE_SIGNATURE_SIZE ->
  generate_spdu sequence_number ts now s
  = Done (generated_spdu v sequence_number now msg certificate_sig,
          {| this := set_certificate_scratch
                       (certificate_sig
                          ++ drop (length certificate_sig) (this_certificate_signature v))
                       (zlength certificate_sig) v;
             calls := calls s ++ [Call_sha256sum (vehicle_certificate_ecdsa v);
                                  Call_ecdsa_sign digest (cert_private_ec_key v)] |}).
Proof.
  intros Hbsm Hscratch v digest certificate_sig Hlen.
  pose proof (zlength_nonneg certificate_sig) as Hlen0.
  unfold CERTIFICATE_SIGNATURE_SIZE in *. fold v in Hscratch, Hbsm.
  unfold generate_spdu, get_this, mbind, tx_mbind, lift. simpl.
  fold v. rewrite Hbsm.
  unfold tx_sha256sum, tx_ecdsa_sign, calls_so_far, record_call, put_this, mbind,
    tx_mbind, mret, tx_ret. simpl.
  rewrite length_app. simpl length.
  fold digest certificate_sig.
  rewrite copy_n_prefix by lia. simpl.
  rewrite (to_uint32_small (zlength certificate_sig)) by lia.
  change (zeros CERTIFICATE_SIGNATURE_SIZE) with (zeros 72).
  rewrite copy_n_prefix_zeros.
  2: { rewrite zlength_app. pose proof (zlength_nonneg (drop (length certificate_sig)
         (this_certificate_signature v))). lia. }
  2: lia.
  rewrite take_app_length' by (unfold zlength; lia).
  rewrite <- app_assoc. simpl. done.
Qed.

Lemma zeros_app a b : 0 <= a -> 0 <= b -> zeros a ++ zeros b = zeros (a + b).
Proof.
  intros Ha Hb. unfold zeros. rewrite <- replicate_add. f_equal. lia.
Qed.

Lemma sign_message_ecdsa_exit spdu s :
  MAX_SIGNATURE_FRAGMENT_SIZE < to_uint32 (ECDSA_size (private_ec_key (this s))) ->
  sign_message_ecdsa spdu s = Exit EXIT_FAILURE.
Proof.
  intros Hbig.
  unfold sign_message_ecdsa, get_this, tx_sha256sum, record_call, mbind, tx_mbind,
    mret, tx_ret. simpl.
  rewrite bool_decide_eq_true_2 by lia. done.
Qed.

Lemma sign_message_ecdsa_spec spdu s :
  let key := private_ec_key (this s) in
  let hash := sha256sum (tbsData_image (tbsData (signedData (data spdu)))) in
  let sig := ecdsa_sign (length (calls s) + 1) hash key in
  0 <= ECDSA_size key <= MAX_SIGNATURE_FRAGMENT_SIZE ->
  zlength sig <= ECDSA_size key ->
  sign_message_ecdsa spdu s
  = Done (set_fragmentation 0 1 (zlength sig) (zlength sig) 0
            (sig ++ zeros (MAX_SIGNATURE_FRAGMENT_SIZE - zlength sig)) spdu,
          {| this := this s;
             calls := calls s
                      ++ [Call_sha256sum (tbsData_image (tbsData (signedData (data spdu))))]
                      ++ [Call_ecdsa_sign hash key] |}).
Proof.
  intros key hash sig Hsize Hlen.
  pose proof (zlength_nonneg sig) as Hlen0.
  unfold MAX_SIGNATURE_FRAGMENT_SIZE in *.
  unfold sign_message_ecdsa, get_this, tx_sha256sum, tx_ecdsa_sign, calls_so_far,
    record_call, tx_exit, lift, mbind, tx_mbind, mret, tx_ret. simpl.
  fold key hash. rewrite (to_uint32_small (ECDSA_size key)) by lia.
  rewrite bool_decide_eq_false_2 by (unfold MAX_SIGNATURE_FRAGMENT_SIZE; lia).
  simpl. rewrite length_app. simpl length. fold sig.
  rewrite copy_n_whole_zeros by done.
  change (zeros MAX_SIGNATURE_FRAGMENT_SIZE) with (zeros 512).
  rewrite copy_n_whole_zeros
    by (rewrite zlength_app, zlength_zeros; lia).
  rewrite zlength_app, zlength_zeros by lia.
  rewrite <- !app_assoc, zeros_app by lia.
  rewrite (to_uint32_small (zlength sig)) by lia.
  repeat f_equal. lia.
Qed.

(** C7. In ECDSA mode [prepare_signed_fragments] returns exactly one
    fragment, with [fragment_count = 1], [fragment_index = 0],
    [signature_offset = 0], [fragment_length = signature_buffer_length] the
    length of the signature, and the signature bytes followed by zeros up
    to 512 in [signature_fragment]; when the signature length (bounded by
    [ECDSA_size] of the key, which is what the code tests) exceeds 512 the
    sender exits with [EXIT_FAILURE]. *)
Theorem ecdsa_signer_single_fragment (sequence_number ts : Z) (now : time_point)
    (s : tx_state) (msg : bsm) :
  generate_bsm (this s) ts = Done msg ->
  zlength (this_certificate_signature (this s)) = CERTIFICATE_SIGNATURE_SIZE ->
  zlength (ecdsa_sign (length (calls s) + 1)
                      (sha256sum (vehicle_certificate_ecdsa (this s)))
                      (cert_private_ec_key (this s)))
    <= CERTIFICATE_SIGNATURE_SIZE ->
  scheme (pqc (this s)) = ECDSA ->
  let key := private_ec_key (this s) in
  let tbs := {| message := msg; headerInfo := {| timestamp := now |} |} in
  let sig := ecdsa_sign (length (calls s) + 3) (sha256sum (tbsData_image tbs)) key in
  0 <= ECDSA_size key < 2 ^ 31 ->
  zlength sig <= ECDSA_size key ->
  (ECDSA_size key <= MAX_SIGNATURE_FRAGMENT_SIZE ->
   exists fragment s',
     prepare_signed_fragments sequence_number ts now s = Done ([fragment], s') /\
     spdu_signature_scheme fragment = scheme_code ECDSA /\
     fragment_count fragment = 1 /\
     fragment_index fragment = 0 /\
     signature_offset fragment = 0 /\
     fragment_length fragment = zlength sig /\
     signature_buffer_length fragment = zlength sig /\
     signature_fragment fragment
     = sig ++ zeros (MAX_SIGNATURE_FRAGMENT_SIZE - zlength sig) /\
     zlength (signature_fragment fragment) = MAX_SIGNATURE_FRAGMENT_SIZE /\
     tbsData (signedData (data fragment)) = tbs) /\
  (MAX_SIGNATURE_FRAGMENT_SIZE < zlength sig ->
   prepare_signed_fragments sequence_number ts now s = Exit EXIT_FAILURE) /\
  (MAX_SIGNATURE_FRAGMENT_SIZE < ECDSA_size key ->
   prepare_signed_fragments sequence_number ts now s = Exit EXIT_FAILURE).
Proof.
  intros Hbsm Hscratch Hcert Hscheme key tbs sig Hsize Hlen.
  pose proof (generate_spdu_spec sequence_number ts now s msg Hbsm Hscratch Hcert)
    as Hgen. cbv zeta in Hgen.
  pose proof (zlength_nonneg sig) as Hlen0.
  assert (Hexit : MAX_SIGNATURE_FRAGMENT_SIZE < ECDSA_size key ->
                  prepare_signed_fragments sequence_number ts now s = Exit EXIT_FAILURE).
  { intros Hbig. unfold prepare_signed_fragments, mbind, tx_mbind.
    rewrite Hgen. unfold get_this. simpl. rewrite Hscheme. simpl.
    rewrite sign_message_ecdsa_exit; [done|]. simpl. fold key.
    rewrite to_uint32_small by lia. done. }
  split; [|split; [intros; apply Hexit; lia|done]].
  intros Hfit.
  unfold prepare_signed_fragments, mbind, tx_mbind.
  rewrite Hgen. unfold get_this. simpl. rewrite Hscheme. simpl.
  rewrite sign_message_ecdsa_spec; simpl; rewrite ?length_app; simpl length;
    rewrite <- ?Nat.add_assoc; simpl Nat.add; fold key tbs sig; [|lia|done].
  unfold mret, tx_ret. eexists _, _. split; [reflexivity|]. simpl.
  repeat split; try done.
  unfold MAX_SIGNATURE_FRAGMENT_SIZE in *.
  rewrite zlength_app, zlength_zeros; lia.
Qed.

(** C8. [prepare_signed_fragments] signs the certificate exactly once per
    SPDU: its call log is the SHA-256 of the certificate's bytes and one
    ECDSA signature of that digest with the certificate key, followed by
    the calls of the payload signer only (none of them per fragment); and
    all fragments it returns agree on [vehicle_id], [sequence_number],
    scheme tag, [fragment_count], [signature_buffer_length], the signed
    data and the certificate signature with its length. *)
Theorem certificate_signed_once (seq_number ts : Z) (now : time_point)
    (s : tx_state) (msg : bsm) :
  let v := this s in
  let tbs := {| message := msg; headerInfo := {| timestamp := now |} |} in
  let cert_digest := sha256sum (vehicle_certificate_ecdsa v) in
  let cert_sig :=
    ecdsa_sign (length (calls s) + 1) cert_digest (cert_private_ec_key v) in
  let ecdsa_sig :=
    ecdsa_sign (length (calls s) + 3) (sha256sum (tbsData_image tbs))
               (private_ec_key v) in
  let falcon_sig :=
    falcon_sign (length (calls s) + 2) (tbsData_image tbs) (falcon_private_key v) in
  generate_bsm v ts = Done msg ->
  zlength (this_certificate_signature v) = CERTIFICATE_SIGNATURE_SIZE ->
  zlength cert_sig <= CERTIFICATE_SIGNATURE_SIZE ->
  match scheme (pqc v) with
  | ECDSA => 0 <= ECDSA_size (private_ec_key v) <= MAX_SIGNATURE_FRAGMENT_SIZE /\
             zlength ecdsa_sig <= ECDSA_size (private_ec_key v)
  | FALCON => falcon_private_key v ≠ [] /\
              0 <= falcon_fragment_size (pqc v) /\
              zlength falcon_sig <= MAX_SIGNATURE_TOTAL_SIZE
  end ->
  exists fragments s',
    prepare_signed_fragments seq_number ts now s = Done (fragments, s') /\
    calls s'
    = calls s
      ++ [Call_sha256sum (vehicle_certificate_ecdsa v);
          Call_ecdsa_sign cert_digest (cert_private_ec_key v)]
      ++ match scheme (pqc v) with
         | ECDSA => [Call_sha256sum (tbsData_image tbs);
                     Call_ecdsa_sign (sha256sum (tbsData_image tbs)) (private_ec_key v)]
         | FALCON => [Call_falcon_sign (tbsData_image tbs) (falcon_private_key v)]
         end /\
    forall fragment, fragment ∈ fragments ->
      vehicle_id fragment = number v /\
      sequence_number fragment = seq_number /\
      spdu_signature_scheme fragment = scheme_code (scheme (pqc v)) /\
      fragment_count fragment = zlength fragments /\
      signature_buffer_length fragment
      = zlength (match scheme (pqc v) with
                 | ECDSA => ecdsa_sig
                 | FALCON => falcon_sig
                 end) /\
      signedData (data fragment)
      = {| tbsData := tbs; cert := vehicle_certificate_ecdsa v |} /\
      certificate_signature (data fragment)
      = cert_sig ++ zeros (CERTIFICATE_SIGNATURE_SIZE - zlength cert_sig) /\
      certificate_signature_buffer_length fragment = zlength cert_sig.
Proof.
  intros v tbs cert_digest cert_sig ecdsa_sig falcon_sig Hbsm Hscratch Hcert Hsigner.
  pose proof (generate_spdu_spec seq_number ts now s msg Hbsm Hscratch Hcert)
    as Hgen. cbv zeta in Hgen. fold v cert_digest cert_sig in Hgen.
  unfold prepare_signed_fragments, mbind, tx_mbind.
  rewrite Hgen. unfold get_this. simpl.
  destruct (scheme (pqc v)) eqn:Hscheme; simpl.
  - destruct Hsigner as [Hsize Hlen].
    rewrite sign_message_ecdsa_spec; simpl; rewrite ?length_app; simpl length;
      rewrite <- ?Nat.add_assoc; simpl Nat.add; fold tbs ecdsa_sig; [|done..].
    unfold mret, tx_ret. eexists _, _. split; [reflexivity|]. simpl.
    split; [by rewrite <- !app_assoc|].
    intros fragment Hin. apply list_elem_of_singleton in Hin as ->. done.
  - destruct Hsigner as (Hkey & Hf & Hlen).
    rewrite sign_message_falcon_spec; simpl; rewrite ?length_app; simpl length;
      fold tbs falcon_sig; [|done..].
    pose proof (clamp_fragment_size_range _ Hf) as Hfs.
    set (fs := clamp_fragment_size _ _) in *.
    pose proof (zlength_nonneg falcon_sig) as HL0.
    destruct (ceil_div_bounds (zlength falcon_sig) fs HL0 ltac:(lia)) as [Hc0 Hc].
    eexists _, _. split; [reflexivity|]. simpl.
    split; [by rewrite <- !app_assoc|].
    intros fragment Hin. apply list_elem_of_fmap in Hin as (i & -> & Hi).
    rewrite zlength_fmap_seqZ by done. done.
Qed.

(** ** The verdict of [verify_message] *)

Lemma age_ms_lt_30000 (age_us : Z) :
  (age_us # 1000 < 30000 # 1)%Q <-> age_us < 30000 * 1000.
Proof. unfold Qlt. simpl. lia. Qed.

Lemma recent_enough_true (age_us : Z) :
  recent_enough age_us = true <-> age_us < 30000 * 1000.
Proof.
  unfold recent_enough. rewrite bool_decide_eq_true. apply age_ms_lt_30000.
Qed.

Lemma payload_signature_check_ecdsa spdu assembled_signature vehicle key :
  spdu_signature_scheme spdu = scheme_code ECDSA ->
  payload_signature_check spdu assembled_signature vehicle key
  = Done (ecdsa_verify (sha256sum (tbsData_image (tbsData (signedData (data spdu)))))
                       assembled_signature (signature_buffer_length spdu) key).
Proof.
  intros Hscheme. unfold payload_signature_check.
  by rewrite bool_decide_eq_true_2.
Qed.

Lemma payload_signature_check_falcon spdu assembled_signature vehicle key public_key :
  spdu_signature_scheme spdu ≠ scheme_code ECDSA ->
  falcon_public_key_file vehicle = Some public_key ->
  payload_signature_check spdu assembled_signature vehicle key
  = Done (falcon_verify (tbsData_image (tbsData (signedData (data spdu))))
                        assembled_signature public_key).
Proof.
  intros Hscheme Hpk. unfold payload_signature_check, load_falcon_public_key.
  rewrite bool_decide_eq_false_2 by done. by rewrite Hpk.
Qed.


(** C4. The payload-signature check of [verify_message] hands the
    reassembled signature buffer to ECDSA verification together with the
    SHA-256 digest of the [tbsData] bytes when the scheme tag is ECDSA, and
    to Falcon verification together with the [tbsData] bytes themselves
    when the scheme tag is FALCON; that result is the [sig_ok] of the
    verdict. *)
Theorem payload_signature_by_scheme (spdu : spdu_fragment)
    (assembled_signature : list byte) (received_time : time_point) (vehicle : Z)
    (signing_key cert_key : EC_KEY) (public_key : list byte) :
  key_file vehicle false = Some signing_key ->
  key_file vehicle true = Some cert_key ->
  falcon_public_key_file vehicle = Some public_key ->
  INT64_MIN
    <= received_time - timestamp (headerInfo (tbsData (signedData (data spdu))))
    <= INT64_MAX ->
  let tbs_bytes := tbsData_image (tbsData (signedData (data spdu))) in
  let cert_ok :=
    ecdsa_verify (sha256sum (cert (signedData (data spdu))))
                 (certificate_signature (data spdu))
                 (certificate_signature_buffer_length spdu) cert_key in
  let recent :=
    recent_enough
      (received_time - timestamp (headerInfo (tbsData (signedData (data spdu))))) in
  (spdu_signature_scheme spdu = scheme_code ECDSA ->
   let sig_ok := ecdsa_verify (sha256sum tbs_bytes) assembled_signature
                              (signature_buffer_length spdu) signing_key in
   payload_signature_check spdu assembled_signature vehicle signing_key
   = Done sig_ok /\
   verify_message spdu assembled_signature received_time vehicle
   = Done (cert_ok && sig_ok && recent)) /\
  (spdu_signature_scheme spdu = scheme_code FALCON ->
   let sig_ok := falcon_verify tbs_bytes assembled_signature public_key in
   payload_signature_check spdu assembled_signature vehicle signing_key
   = Done sig_ok /\
   verify_message spdu assembled_signature received_time vehicle
   = Done (cert_ok && sig_ok && recent)).
Proof.
  intros Hkey Hcert Hpk Hrange tbs_bytes cert_ok recent.
  split; intros Hscheme sig_ok.
  - assert (Hsig := payload_signature_check_ecdsa spdu assembled_signature vehicle
                      signing_key Hscheme).
    split; [done|]. by apply (verify_message_eq _ _ _ _ signing_key cert_key).
  - assert (Hne : spdu_signature_scheme spdu ≠ scheme_code ECDSA)
      by (by rewrite Hscheme).
    assert (Hsig := payload_signature_check_falcon spdu assembled_signature vehicle
                      signing_key public_key Hne Hpk).
    split; [done|]. by apply (verify_message_eq _ _ _ _ signing_key cert_key).
Qed.

(** ** The copy step of the receiver on arbitrary datagrams *)

Lemma store_fragment_rejected incoming entry :
  well_formed incoming -> rejected incoming entry ->
  store_fragment incoming entry = Done entry.
Proof.
  intros (_ & _ & _ & Hidx & _ & _ & Hlen & Hoff & _) Hrej.
  unfold store_fragment.
  case_bool_decide as Hin; [|done].
  destruct (fragments_received entry !! Z.to_nat (fragment_index incoming))
    as [[|]|] eqn:Hbit; [done| |].
  - rewrite to_size_t_small by lia.
    case_bool_decide as Hfit; [|done].
    destruct Hrej as [Hrej|[Hrej|Hrej]]; [lia|congruence|lia].
  - apply lookup_ge_None in Hbit. unfold zlength in Hin. lia.
Qed.

(** What [store_fragment] returns depends on the entry only through its
    buffer and bitmap; the template and the arrival instant are carried
    over. *)
Lemma store_fragment_ext incoming e e' other :
  store_fragment incoming e = Done e' ->
  signature_buffer other = signature_buffer e ->
  fragments_received other = fragments_received e ->
  store_fragment incoming other
  = Done {| template_fragment := template_fragment other;
            signature_buffer := signature_buffer e';
            fragments_received := fragments_received e';
            first_fragment_time := first_fragment_time other |}.
Proof.
  intros Hstore Hbuf Hbits. revert Hstore. unfold store_fragment.
  rewrite Hbuf, Hbits.
  destruct other as [t b r ft]; simpl in *; subst b r.
  case_bool_decide; [|by intros [= <-]].
  destruct (fragments_received e !! _) as [[|]|]; [by intros [= <-]| |done].
  case_bool_decide; [|by intros [= <-]].
  destruct (copy_n _ _ _ _); simpl; [|done..].
  by intros [= <-].
Qed.

Lemma store_fragment_lengths incoming e e' :
  store_fragment incoming e = Done e' ->
  length (signature_buffer e') = length (signature_buffer e) /\
  length (fragments_received e') = length (fragments_received e).
Proof.
  unfold store_fragment.
  case_bool_decide; [|by intros [= <-]].
  destruct (fragments_received e !! _) as [[|]|]; [by intros [= <-]| |done].
  case_bool_decide; [|by intros [= <-]].
  unfold copy_n. repeat case_bool_decide; simpl; try done.
  intros [= <-]. simpl. by rewrite length_inserts, length_insert.
Qed.

(** A fragment stored once is ignored when it comes again. *)
Lemma store_fragment_again incoming e e' :
  well_formed incoming ->
  store_fragment incoming e = Done e' ->
  store_fragment incoming e' = Done e'.
Proof.
  intros Hwf Hstore. pose proof Hwf as (_ & _ & _ & Hidx & _).
  revert Hstore. unfold store_fragment at 1.
  case_bool_decide as Hin; [|intros [= <-]; apply store_fragment_rejected;
                             [done|left; lia]].
  destruct (fragments_received e !! _) as [[|]|] eqn:Hbit;
    [intros [= <-]; apply store_fragment_rejected; [done|by right; left]| |done].
  case_bool_decide as Hfit.
  - destruct (copy_n _ _ _ _); simpl; [|done..].
    intros [= <-]. apply store_fragment_rejected; [done|]. right; left. simpl.
    apply list_lookup_insert_eq. by eapply lookup_lt_Some.
  - intros [= <-]. unfold store_fragment.
    rewrite bool_decide_eq_true_2, Hbit by done.
    by rewrite bool_decide_eq_false_2.
Qed.

(** ** One datagram through the loop body *)

(** A datagram that does not complete its SPDU leaves the entry it was
    stored into in the table. *)
Lemma receive_datagram_pending st incoming t st1 r1 :
  receive_datagram st incoming t = Done (st1, r1) ->
  completed r1 = None ->
  exists stored,
    store_fragment incoming (target_entry (pending_messages st) incoming t)
    = Done stored /\
    complete (update_template incoming stored) = false /\
    pending_messages st1
    = <[make_message_key (vehicle_id incoming) (sequence_number incoming)
        := update_template incoming stored]> (pending_messages st) /\
    completed_messages st1 = completed_messages st /\
    first_fragment_seen st1 = true /\
    last_completion_time st1 = last_completion_time st.
Proof.
  unfold receive_datagram, reassemble. fold (target_entry (pending_messages st) incoming t).
  destruct (store_fragment incoming _) as [stored| |]; simpl; [|done..].
  destruct (complete (update_template incoming stored)) eqn:Hc.
  - destruct (verify_message _ _ _ _); simpl; [|done..].
    intros [= <- <-]. done.
  - intros [= <- <-] _. exists stored. done.
Qed.

Lemma receive_datagram_twice st incoming t1 t2 st1 r1 :
  well_formed incoming ->
  receive_datagram st incoming t1 = Done (st1, r1) ->
  completed r1 = None ->
  exists e1 e2 st2 r2,
    receive_datagram st1 incoming t2 = Done (st2, r2) /\
    completed r2 = None /\
    pending_messages st1
      !! make_message_key (vehicle_id incoming) (sequence_number incoming) = Some e1 /\
    pending_messages st2
    = <[make_message_key (vehicle_id incoming) (sequence_number incoming) := e2]>
        (pending_messages st1) /\
    signature_buffer e2 = signature_buffer e1 /\
    fragments_received e2 = fragments_received e1 /\
    template_fragment e2 = template_fragment e1 /\
    completed_messages st2 = completed_messages st1 /\
    (signature_buffer e1 ≠ [] -> st2 = st1).
Proof.
  intros Hwf Hfirst Hnone.
  destruct (receive_datagram_pending st incoming t1 st1 r1 Hfirst Hnone)
    as (stored & Hstore & Hinc & Hpend & Hcount & Hseen & Hlast).
  set (key := make_message_key (vehicle_id incoming) (sequence_number incoming)) in *.
  set (e1 := update_template incoming stored) in *.
  assert (Hlook : pending_messages st1 !! key = Some e1)
    by (by rewrite Hpend, lookup_insert_eq).
  assert (Hagain := store_fragment_again incoming _ stored Hwf Hstore).
  unfold receive_datagram, reassemble.
  fold key. unfold lookup_or_create. rewrite Hlook. simpl.
  destruct (needs_initialisation e1) eqn:Hinit.
  - (* the stored buffer is empty: the entry is initialised again *)
    apply bool_decide_eq_true_1 in Hinit.
    assert (Hbuf0 : signature_buffer
                      (target_entry (pending_messages st) incoming t1) = []).
    { apply store_fragment_lengths in Hstore as [Hlen _].
      change (signature_buffer e1) with (signature_buffer stored) in Hinit.
      rewrite Hinit in Hlen. simpl in Hlen.
      by destruct (signature_buffer _). }
    assert (Htarget : target_entry (pending_messages st) incoming t1
                      = initialise_entry incoming t1).
    { unfold target_entry in *. fold key in Hbuf0 |- *.
      destruct (needs_initialisation (lookup_or_create _ key)) eqn:Hn; [done|].
      apply bool_decide_eq_false_1 in Hn. done. }
    rewrite Htarget in Hstore.
    rewrite (store_fragment_ext incoming _ stored (initialise_entry incoming t2) Hstore)
      by done.
    simpl.
    set (e2 := update_template incoming _).
    assert (Hc2 : complete e2 = false) by exact Hinc.
    rewrite Hc2. simpl.
    exists e1, e2. eexists _, _. split; [reflexivity|]. simpl.
    repeat split; try done.
    pose proof (store_fragment_ext incoming _ stored (initialise_entry incoming t1)
                  Hstore eq_refl eq_refl) as Hsame.
    rewrite Hstore in Hsame. injection Hsame as Hsame.
    rewrite Hsame. done.
  - (* the stored buffer is not empty: nothing changes *)
    rewrite (store_fragment_ext incoming stored stored e1 Hagain) by done.
    unfold mbind, outcome_mbind, mret, outcome_ret. cbn [outcome_bind].
    assert (He1 : update_template incoming
                    {| template_fragment := template_fragment e1;
                       signature_buffer := signature_buffer stored;
                       fragments_received := fragments_received stored;
                       first_fragment_time := first_fragment_time e1 |} = e1).
    { subst e1. by destruct stored as [[] ? ? ?]. }
    rewrite He1, Hinc. simpl.
    exists e1, e1. eexists _, _. split; [reflexivity|]. simpl.
    repeat split; try done.
    intros _. destruct st1 as [p c f r l]; simpl in *. subst f.
    f_equal. by rewrite insert_id.
Qed.

Lemma table_incomplete_initial : table_incomplete receiver_initial.
Proof. intros key entry. unfold receiver_initial. simpl. by rewrite lookup_empty. Qed.

Lemma receive_datagram_table_incomplete st incoming t st' r :
  table_incomplete st ->
  receive_datagram st incoming t = Done (st', r) ->
  table_incomplete st'.
Proof.
  intros Hinv. unfold receive_datagram.
  destruct (reassemble _ _ _) as [entry| |]; simpl; [|done..].
  destruct (complete entry) eqn:Hc.
  - destruct (verify_message _ _ _ _); simpl; [|done..].
    intros [= <- <-] key e. simpl. intros Hlook.
    apply lookup_delete_Some in Hlook as [_ Hlook]. by eapply Hinv.
  - intros [= <- <-] key e. simpl. intros Hlook.
    apply lookup_insert_Some in Hlook as [[_ <-]|[_ Hlook]]; [done|].
    by eapply Hinv.
Qed.

Lemma receive_datagram_rejected st incoming t entry :
  well_formed incoming ->
  pending_messages st
    !! make_message_key (vehicle_id incoming) (sequence_number incoming) = Some entry ->
  signature_buffer entry ≠ [] ->
  complete entry = false ->
  rejected incoming entry ->
  exists st' entry',
    receive_datagram st incoming t
    = Done (st', {| initialised := false; completed := None |}) /\
    pending_messages st'
      !! make_message_key (vehicle_id incoming) (sequence_number incoming)
    = Some entry' /\
    signature_buffer entry' = signature_buffer entry /\
    fragments_received entry' = fragments_received entry /\
    completed_messages st' = completed_messages st.
Proof.
  intros Hwf Hlook Hlive Hinc Hrej.
  unfold receive_datagram, reassemble, lookup_or_create. rewrite Hlook. simpl.
  unfold needs_initialisation. rewrite bool_decide_eq_false_2 by done.
  rewrite store_fragment_rejected by done.
  unfold mbind, outcome_mbind, mret, outcome_ret. cbn [outcome_bind].
  change (complete (update_template incoming entry)) with (complete entry).
  rewrite Hinc.
  eexists _, (update_template incoming entry). split; [reflexivity|]. simpl.
  by rewrite lookup_insert_eq.
Qed.

(** A datagram that finds an empty stored buffer and fails the index or
    the bound check: the entry is initialised from the datagram and stored
    as initialised, whatever it held before. *)
Lemma receive_datagram_rejected_fresh st incoming t :
  well_formed incoming ->
  signature_buffer
    (lookup_or_create (pending_messages st)
       (make_message_key (vehicle_id incoming) (sequence_number incoming))) = [] ->
  0 < fragment_count incoming ->
  fragment_count incoming <= fragment_index incoming \/
  signature_buffer_length incoming
    < signature_offset incoming + fragment_length incoming ->
  exists st' entry',
    receive_datagram st incoming t
    = Done (st', {| initialised := true; completed := None |}) /\
    pending_messages st'
      !! make_message_key (vehicle_id incoming) (sequence_number incoming)
    = Some entry' /\
    signature_buffer entry' = zeros (signature_buffer_length incoming) /\
    fragments_received entry'
    = replicate (Z.to_nat (fragment_count incoming)) false /\
    first_fragment_time entry' = t /\
    completed_messages st' = completed_messages st.
Proof.
  intros Hwf Hempty Hcount Hrej.
  pose proof Hwf as (_ & _ & _ & _ & Hc & HL & _).
  assert (Hinit : needs_initialisation
                    (lookup_or_create (pending_messages st)
                       (make_message_key (vehicle_id incoming)
                          (sequence_number incoming))) = true)
    by (by apply bool_decide_eq_true_2).
  assert (Hstore : store_fragment incoming (initialise_entry incoming t)
                   = Done (initialise_entry incoming t)).
  { apply store_fragment_rejected; [done|].
    unfold rejected. simpl. rewrite zlength_zeros by lia.
    unfold zlength. rewrite length_replicate.
    destruct Hrej as [Hrej|Hrej]; [left; lia|right; right; lia]. }
  unfold receive_datagram, reassemble. rewrite Hinit, Hstore. simpl.
  assert (Hincomplete : complete (update_template incoming
                                    (initialise_entry incoming t)) = false).
  { unfold complete. simpl.
    destruct (Z.to_nat (fragment_count incoming)) as [|n] eqn:Hn; [lia|done]. }
  rewrite Hincomplete. simpl.
  eexists _, _. split; [reflexivity|]. simpl.
  rewrite lookup_insert_eq. done.
Qed.

(** C6. A datagram whose [fragment_index] is not below the size of the
    entry's arrival bitmap, or whose index is already marked, or whose
    [signature_offset + fragment_length] exceeds the size of the entry's
    signature buffer, goes through the copy step without any read of its
    payload and leaves the buffer and the bitmap as they were.  When the
    buffer stored for the key is not empty the pass ends normally, without
    completion, and the stored buffer and bitmap are unchanged.  When the
    stored buffer is empty, the entry is initialised from the datagram
    before the checks: whatever the bitmap and the arrival instant were,
    the pass leaves a zeroed buffer, an all-false bitmap and the receive
    time of this datagram.  A datagram delivered a second time while its
    SPDU is still incomplete changes neither the buffer nor the bitmap nor
    the template: the second pass ends normally and, when the buffer is
    not empty, leaves the whole receiver state as the first pass left
    it. *)
Theorem rejected_fragment_ignored (incoming : spdu_fragment) :
  well_formed incoming ->
  (forall entry, rejected incoming entry ->
     store_fragment incoming entry = Done entry /\
     store_fragment_reads incoming entry = []) /\
  (forall st t entry,
     pending_messages st
       !! make_message_key (vehicle_id incoming) (sequence_number incoming)
     = Some entry ->
     signature_buffer entry ≠ [] ->
     complete entry = false ->
     rejected incoming entry ->
     exists st' entry',
       receive_datagram st incoming t
       = Done (st', {| initialised := false; completed := None |}) /\
       pending_messages st'
         !! make_message_key (vehicle_id incoming) (sequence_number incoming)
       = Some entry' /\
       signature_buffer entry' = signature_buffer entry /\
       fragments_received entry' = fragments_received entry /\
       completed_messages st' = completed_messages st) /\
  (forall st t,
     signature_buffer
       (lookup_or_create (pending_messages st)
          (make_message_key (vehicle_id incoming) (sequence_number incoming))) = [] ->
     0 < fragment_count incoming ->
     fragment_count incoming <= fragment_index incoming \/
     signature_buffer_length incoming
       < signature_offset incoming + fragment_length incoming ->
     exists st' entry',
       receive_datagram st incoming t
       = Done (st', {| initialised := true; completed := None |}) /\
       pending_messages st'
         !! make_message_key (vehicle_id incoming) (sequence_number incoming)
       = Some entry' /\
       signature_buffer entry' = zeros (signature_buffer_length incoming) /\
       fragments_received entry'
       = replicate (Z.to_nat (fragment_count incoming)) false /\
       first_fragment_time entry' = t /\
       completed_messages st' = completed_messages st) /\
  (forall st t1 t2 st1 r1,
     receive_datagram st incoming t1 = Done (st1, r1) ->
     completed r1 = None ->
     exists e1 e2 st2 r2,
       receive_datagram st1 incoming t2 = Done (st2, r2) /\
       completed r2 = None /\
       pending_messages st1
         !! make_message_key (vehicle_id incoming) (sequence_number incoming)
       = Some e1 /\
       pending_messages st2
       = <[make_message_key (vehicle_id incoming) (sequence_number incoming) := e2]>
           (pending_messages st1) /\
       signature_buffer e2 = signature_buffer e1 /\
       fragments_received e2 = fragments_received e1 /\
       template_fragment e2 = template_fragment e1 /\
       completed_messages st2 = completed_messages st1 /\
       (signature_buffer e1 ≠ [] -> st2 = st1)).
Proof.
  intros Hwf. split; [|split; [|split]].
  - intros entry Hrej. split; [by apply store_fragment_rejected|].
    destruct Hwf as (_ & _ & _ & Hidx & _ & _ & Hlen & Hoff & _).
    unfold store_fragment_reads.
    case_bool_decide as Hin; [|done].
    destruct (fragments_received entry !! _) as [[|]|] eqn:Hbit; [done| |done].
    rewrite to_size_t_small by lia.
    case_bool_decide as Hfit; [|done].
    destruct Hrej as [Hrej|[Hrej|Hrej]]; [lia|congruence|lia].
  - intros st t entry. by apply receive_datagram_rejected.
  - intros st t. by apply receive_datagram_rejected_fresh.
  - intros st t1 t2 st1 r1. by apply receive_datagram_twice.
Qed.

(** ** Initialisation of reassembly entries *)

(** What one pass does, case by case. *)
Lemma receive_datagram_inv st d t st' r :
  receive_datagram st d t = Done (st', r) ->
  initialised r
  = needs_initialisation (lookup_or_create (pending_messages st) (key_of d)) /\
  exists stored,
    store_fragment d (target_entry (pending_messages st) d t) = Done stored /\
    ((completed r = None /\
      complete (update_template d stored) = false /\
      pending_messages st'
      = <[key_of d := update_template d stored]> (pending_messages st))
     \/
     (is_Some (completed r) /\
      pending_messages st' = delete (key_of d) (pending_messages st))).
Proof.
  unfold receive_datagram, reassemble. fold (key_of d).
  fold (target_entry (pending_messages st) d t).
  destruct (store_fragment d _) as [stored| |]; simpl; [|done..].
  destruct (complete (update_template d stored)) eqn:Hc.
  - destruct (verify_message _ _ _ _); simpl; [|done..].
    intros [= <- <-]. split; [done|]. exists stored. split; [done|].
    right. simpl. eauto.
  - intros [= <- <-]. split; [done|]. exists stored. split; [done|].
    left. done.
Qed.

Lemma receive_datagram_other_key st d t st' r key :
  receive_datagram st d t = Done (st', r) ->
  key_of d ≠ key ->
  pending_messages st' !! key = pending_messages st !! key.
Proof.
  intros Hstep Hne.
  apply receive_datagram_inv in Hstep as (_ & stored & _ & [(_ & _ & ->)|(_ & ->)]).
  - by rewrite lookup_insert_ne.
  - by rewrite lookup_delete_ne.
Qed.

Lemma target_entry_live st d t entry :
  pending_messages st !! key_of d = Some entry ->
  signature_buffer entry ≠ [] ->
  target_entry (pending_messages st) d t = entry.
Proof.
  intros Hlook Hne. unfold target_entry, lookup_or_create. fold (key_of d).
  rewrite Hlook. simpl. unfold needs_initialisation.
  by rewrite bool_decide_eq_false_2.
Qed.

Lemma target_entry_uninitialised st d t :
  uninitialised (key_of d) st ->
  target_entry (pending_messages st) d t = initialise_entry d t.
Proof.
  unfold uninitialised, target_entry. fold (key_of d). by intros ->.
Qed.

Lemma receive_datagram_keeps_live st d t st' r :
  receive_datagram st d t = Done (st', r) ->
  live (key_of d) st ->
  completed r = None ->
  initialised r = false /\ live (key_of d) st'.
Proof.
  intros Hstep (entry & Hlook & Hne) Hnone.
  apply receive_datagram_inv in Hstep
    as (Hinit & stored & Hstore & [(_ & _ & Hpend)|([c Hc] & _)]); [|congruence].
  split.
  - rewrite Hinit. unfold lookup_or_create. rewrite Hlook. simpl.
    unfold needs_initialisation. by rewrite bool_decide_eq_false_2.
  - rewrite (target_entry_live st d t entry) in Hstore by done.
    apply store_fragment_lengths in Hstore as [Hlen _].
    exists (update_template d stored). rewrite Hpend, lookup_insert_eq.
    split; [done|]. simpl. intros Hnil. rewrite Hnil in Hlen.
    by destruct (signature_buffer entry).
Qed.

Lemma receive_datagram_becomes_live st d t st' r :
  receive_datagram st d t = Done (st', r) ->
  uninitialised (key_of d) st ->
  0 < signature_buffer_length d ->
  completed r = None ->
  live (key_of d) st'.
Proof.
  intros Hstep Hun Hpos Hnone.
  apply receive_datagram_inv in Hstep
    as (_ & stored & Hstore & [(_ & _ & Hpend)|([c Hc] & _)]); [|congruence].
  rewrite target_entry_uninitialised in Hstore by done.
  apply store_fragment_lengths in Hstore as [Hlen _].
  exists (update_template d stored). rewrite Hpend, lookup_insert_eq.
  split; [done|]. simpl. intros Hnil. rewrite Hnil in Hlen. simpl in Hlen.
  unfold zeros in Hlen. rewrite length_replicate in Hlen. lia.
Qed.

Lemma receive_datagram_stays_uninitialised st d t st' r :
  receive_datagram st d t = Done (st', r) ->
  uninitialised (key_of d) st ->
  signature_buffer_length d = 0 ->
  uninitialised (key_of d) st'.
Proof.
  intros Hstep Hun Hzero.
  apply receive_datagram_inv in Hstep
    as (_ & stored & Hstore & [(_ & _ & Hpend)|(_ & Hpend)]);
    unfold uninitialised, lookup_or_create, needs_initialisation; rewrite Hpend.
  - rewrite target_entry_uninitialised in Hstore by done.
    apply store_fragment_lengths in Hstore as [Hlen _].
    rewrite lookup_insert_eq. simpl. apply bool_decide_eq_true_2.
    simpl in Hlen. rewrite Hzero in Hlen. simpl in Hlen.
    by destruct (signature_buffer stored).
  - by rewrite lookup_delete_eq.
Qed.

Lemma receive_loop_inv num_msgs st d t ds st' rs :
  receive_loop num_msgs st ((d, t) :: ds) = Done (st', rs) ->
  (rs = [] /\ ~ completed_messages st < num_msgs) \/
  exists st1 r rs',
    receive_datagram st d t = Done (st1, r) /\
    receive_loop num_msgs st1 ds = Done (st', rs') /\
    rs = r :: rs'.
Proof.
  simpl. case_bool_decide as Hlt; [|intros [= <- <-]; by left].
  destruct (receive_datagram st d t) as [[st1 r]| |]; [|done..].
  destruct (receive_loop num_msgs st1 ds) as [[st2 rs']| |] eqn:Hrest; [|done..].
  intros [= <- <-]. right. by exists st1, r, rs'.
Qed.

Lemma live_other_key st d t st' r key :
  receive_datagram st d t = Done (st', r) ->
  key_of d ≠ key -> live key st -> live key st'.
Proof.
  intros Hstep Hne (entry & Hlook & Hbuf). exists entry.
  by rewrite (receive_datagram_other_key st d t st' r key).
Qed.

Lemma uninitialised_other_key st d t st' r key :
  receive_datagram st d t = Done (st', r) ->
  key_of d ≠ key -> uninitialised key st -> uninitialised key st'.
Proof.
  intros Hstep Hne. unfold uninitialised, lookup_or_create.
  by rewrite (receive_datagram_other_key st d t st' r key).
Qed.

Lemma receive_datagram_live_not_initialised st d t st' r :
  receive_datagram st d t = Done (st', r) ->
  live (key_of d) st ->
  initialised r = false.
Proof.
  intros Hstep (entry & Hlook & Hne).
  apply receive_datagram_inv in Hstep as [-> _].
  unfold lookup_or_create. rewrite Hlook. simpl.
  unfold needs_initialisation. by rewrite bool_decide_eq_false_2.
Qed.

(** While the entry of [key] is live and not completed, no datagram of
    [key] initialises it. *)
Lemma receive_loop_live num_msgs key ds : forall st st' rs,
  receive_loop num_msgs st ds = Done (st', rs) ->
  live key st ->
  forall i d t r, ds !! i = Some (d, t) -> rs !! i = Some r -> key_of d = key ->
    (forall j dj tj rj, (j < i)%nat -> ds !! j = Some (dj, tj) -> rs !! j = Some rj ->
       key_of dj = key -> completed rj = None) ->
    initialised r = false.
Proof.
  induction ds as [|[d0 t0] ds IH]; intros st st' rs Hrun Hlive i d t r Hd Hr Hkey Hnone;
    [done|].
  apply receive_loop_inv in Hrun
    as [[-> _]|(st1 & r0 & rs' & Hstep & Hrest & ->)]; [done|].
  destruct i as [|i]; simpl in *.
  - simplify_eq. by eapply receive_datagram_live_not_initialised.
  - assert (Hlive1 : live key st1).
    { destruct (decide (key_of d0 = key)) as [Hk|Hk].
      - rewrite <- Hk.
        apply (receive_datagram_keeps_live st d0 t0 st1 r0 Hstep); [by rewrite Hk|].
        apply (Hnone 0%nat d0 t0 r0); [lia|done..].
      - by eapply live_other_key. }
    eapply (IH st1 st' rs' Hrest Hlive1); [exact Hd|exact Hr|exact Hkey|].
    intros j dj tj rj Hj Hdj Hrj. apply (Hnone (S j) dj tj rj); [lia|done..].
Qed.

(** While the datagrams of [key] declare an empty signature buffer, each
    datagram of [key] initialises the entry again. *)
Lemma receive_loop_uninitialised num_msgs key ds : forall st st' rs,
  receive_loop num_msgs st ds = Done (st', rs) ->
  uninitialised key st ->
  forall i d t r, ds !! i = Some (d, t) -> rs !! i = Some r -> key_of d = key ->
    (forall j dj tj, (j < i)%nat -> ds !! j = Some (dj, tj) -> key_of dj = key ->
       signature_buffer_length dj = 0) ->
    initialised r = true.
Proof.
  induction ds as [|[d0 t0] ds IH]; intros st st' rs Hrun Hun i d t r Hd Hr Hkey Hzero;
    [done|].
  apply receive_loop_inv in Hrun
    as [[-> _]|(st1 & r0 & rs' & Hstep & Hrest & ->)]; [done|].
  destruct i as [|i]; simpl in *.
  - simplify_eq. by apply receive_datagram_inv in Hstep as [-> _].
  - assert (Hun1 : uninitialised key st1).
    { destruct (decide (key_of d0 = key)) as [Hk|Hk].
      - rewrite <- Hk.
        apply (receive_datagram_stays_uninitialised st d0 t0 st1 r0 Hstep);
          [by rewrite Hk|].
        apply (Hzero 0%nat d0 t0); [lia|done..].
      - by eapply uninitialised_other_key. }
    eapply (IH st1 st' rs' Hrest Hun1); [exact Hd|exact Hr|exact Hkey|].
    intros j dj tj Hj Hdj. apply (Hzero (S j) dj tj); [lia|done].
Qed.

Lemma receive_datagram_initialised_iff st d t st' r :
  receive_datagram st d t = Done (st', r) ->
  (initialised r = true
   <-> signature_buffer (lookup_or_create (pending_messages st) (key_of d)) = []) /\
  target_entry (pending_messages st) d t
  = (if initialised r then initialise_entry d t
     else lookup_or_create (pending_messages st) (key_of d)).
Proof.
  intros Hstep. apply receive_datagram_inv in Hstep as [-> _].
  split; [apply bool_decide_eq_true|done].
Qed.

(** What a pass writes, by the test on the stored buffer. *)
Lemma receive_datagram_effect st d t st' r :
  well_formed d ->
  receive_datagram st d t = Done (st', r) ->
  let old := lookup_or_create (pending_messages st) (key_of d) in
  let fresh :=
    {| template_fragment :=
         set_fragmentation 0 (fragment_count d) (signature_buffer_length d) 0
           (signature_offset d) (zeros MAX_SIGNATURE_FRAGMENT_SIZE) d;
       signature_buffer := zeros (signature_buffer_length d);
       fragments_received := replicate (Z.to_nat (fragment_count d)) false;
       first_fragment_time := t |} in
  (initialised r = true <-> signature_buffer old = []) /\
  exists stored,
    store_fragment d (if initialised r then fresh else old) = Done stored /\
    first_fragment_time stored
    = (if initialised r then t else first_fragment_time old) /\
    zlength (signature_buffer stored)
    = (if initialised r then signature_buffer_length d
       else zlength (signature_buffer old)) /\
    zlength (fragments_received stored)
    = (if initialised r then fragment_count d
       else zlength (fragments_received old)) /\
    (forall i, i ≠ Z.to_nat (fragment_index d) ->
       fragments_received stored !! i
       = (if initialised r
          then (if bool_decide (Z.of_nat i < fragment_count d) then Some false
                else None)
          else fragments_received old !! i)) /\
    match completed r with
    | None => pending_messages st' !! key_of d = Some (update_template d stored)
    | Some c =>
        completed_spdu c = template_fragment (update_template d stored) /\
        completed_signature c = signature_buffer stored /\
        pending_messages st' !! key_of d = None
    end.
Proof.
  intros Hwf Hstep old fresh.
  pose proof Hwf as (_ & _ & _ & _ & Hc & HL & _).
  split; [by apply receive_datagram_initialised_iff in Hstep as [? _]|].
  revert Hstep. unfold receive_datagram, reassemble. fold (key_of d). fold old.
  change (initialise_entry d t) with fresh.
  set (init := needs_initialisation old).
  set (target := if init then fresh else old).
  destruct (store_fragment d target) as [stored| |] eqn:Hstore; simpl; [|done..].
  assert (Hfacts :
            first_fragment_time stored
            = (if init then t else first_fragment_time old) /\
            zlength (signature_buffer stored)
            = (if init then signature_buffer_length d
               else zlength (signature_buffer old)) /\
            zlength (fragments_received stored)
            = (if init then fragment_count d
               else zlength (fragments_received old)) /\
            (forall i, i ≠ Z.to_nat (fragment_index d) ->
               fragments_received stored !! i
               = (if init
                  then (if bool_decide (Z.of_nat i < fragment_count d)
                        then Some false else None)
                  else fragments_received old !! i))).
  { pose proof (store_fragment_lengths d target stored Hstore) as [Hlb Hlr].
    assert (Htime : first_fragment_time stored = first_fragment_time target
                    /\ forall i, i ≠ Z.to_nat (fragment_index d) ->
                         fragments_received stored !! i
                         = fragments_received target !! i).
    { revert Hstore. unfold store_fragment.
      case_bool_decide; [|by intros [= <-]].
      destruct (fragments_received target !! _) as [[|]|]; [by intros [= <-]| |done].
      case_bool_decide; [|by intros [= <-]].
      destruct (copy_n _ _ _ _); simpl; [|done..].
      intros [= <-]. simpl. split; [done|].
      intros i Hi. by rewrite list_lookup_insert_ne. }
    destruct Htime as [Htime Hbits].
    unfold zlength. rewrite Hlb, Hlr, Htime. unfold target.
    destruct init; simpl.
    - unfold zeros. rewrite !length_replicate.
      split; [done|]. split; [lia|]. split; [lia|].
      intros i Hi. rewrite (Hbits i Hi). simpl.
      case_bool_decide.
      + apply lookup_replicate_2. lia.
      + apply lookup_replicate_None. lia.
    - split; [done|]. split; [done|]. split; [done|].
      intros i Hi. by rewrite (Hbits i Hi). }
  destruct (complete (update_template d stored)).
  - destruct (verify_message _ _ _ _); simpl; [|done..].
    intros [= <- <-]. simpl. exists stored.
    split; [done|]. destruct Hfacts as (? & ? & ? & ?).
    split; [done|]. split; [done|]. split; [done|]. split; [done|].
    split; [done|]. split; [done|]. apply lookup_delete_eq.
  - intros [= <- <-]. simpl. exists stored.
    split; [done|]. destruct Hfacts as (? & ? & ? & ?).
    split; [done|]. split; [done|]. split; [done|]. split; [done|].
    apply lookup_insert_eq.
Qed.

(** Whether the next datagram of the key will initialise, from what the
    pass reported. *)
Lemma receive_datagram_after st d t st' r :
  well_formed d ->
  receive_datagram st d t = Done (st', r) ->
  signature_buffer (lookup_or_create (pending_messages st') (key_of d)) = []
  <-> is_Some (completed r) \/ (initialised r = true /\ signature_buffer_length d = 0).
Proof.
  intros Hwf Hstep.
  destruct (receive_datagram_effect st d t st' r Hwf Hstep)
    as (Hinit & stored & _ & _ & Hlen & _ & _ & Hafter).
  pose proof Hwf as (_ & _ & _ & _ & _ & HL & _).
  unfold lookup_or_create.
  destruct (completed r) as [c|].
  - destruct Hafter as (_ & _ & ->). simpl. split; [eauto|done].
  - rewrite Hafter. simpl.
    assert (Hnil : signature_buffer stored = [] <-> zlength (signature_buffer stored) = 0).
    { unfold zlength. destruct (signature_buffer stored); simpl; split; try done; lia. }
    rewrite Hnil, Hlen.
    destruct (initialised r) eqn:Hi.
    + split; [intros ?; right; done|].
      intros [[? [=]]|[_ ?]]. done.
    + split.
      * intros Hz. exfalso.
        assert (Hold : signature_buffer
                         (lookup_or_create (pending_messages st) (key_of d)) = []).
        { unfold zlength in Hz.
          destruct (signature_buffer _); [done|simpl in Hz; lia]. }
        apply Hinit in Hold. congruence.
      * intros [[? [=]]|[[=] _]].
Qed.

(** The state before and after the pass of index [j]. *)
Lemma receive_loop_split num_msgs : forall j ds st st' rs dj tj rj,
  receive_loop num_msgs st ds = Done (st', rs) ->
  ds !! j = Some (dj, tj) -> rs !! j = Some rj ->
  exists stj stj',
    receive_datagram stj dj tj = Done (stj', rj) /\
    receive_loop num_msgs stj' (drop (S j) ds) = Done (st', drop (S j) rs) /\
    forall key,
      (forall m dm tm, (m < j)%nat -> ds !! m = Some (dm, tm) -> key_of dm ≠ key) ->
      pending_messages stj !! key = pending_messages st !! key.
Proof.
  induction j as [|j IH]; intros [|[d0 t0] ds] st st' rs dj tj rj Hrun Hd Hr;
    try done.
  - apply receive_loop_inv in Hrun
      as [[-> _]|(st1 & r0 & rs' & Hstep & Hrest & ->)]; [done|].
    simpl in Hd, Hr. simplify_eq.
    exists st, st1. split; [done|]. split; [exact Hrest|done].
  - apply receive_loop_inv in Hrun
      as [[-> _]|(st1 & r0 & rs' & Hstep & Hrest & ->)]; [done|].
    simpl in Hd, Hr.
    destruct (IH ds st1 st' rs' dj tj rj Hrest Hd Hr)
      as (stj & stj' & Hj & Hafter & Hsame).
    exists stj, stj'. split; [done|]. split; [done|].
    intros key Hother. rewrite Hsame.
    + apply (receive_datagram_other_key st d0 t0 st1 r0 key Hstep).
      apply (Hother 0%nat d0 t0); [lia|done].
    + intros m dm tm Hm Hdm. apply (Hother (S m) dm tm); [lia|done].
Qed.

(** The first datagram of a key in a run initialises exactly when the run
    started with an empty buffer stored for the key. *)
Lemma receive_loop_first_of_key num_msgs ds st st' rs i d t r :
  receive_loop num_msgs st ds = Done (st', rs) ->
  ds !! i = Some (d, t) -> rs !! i = Some r ->
  (forall m dm tm, (m < i)%nat -> ds !! m = Some (dm, tm) -> key_of dm ≠ key_of d) ->
  initialised r = true
  <-> signature_buffer (lookup_or_create (pending_messages st) (key_of d)) = [].
Proof.
  intros Hrun Hd Hr Hfirst.
  destruct (receive_loop_split num_msgs i ds st st' rs d t r Hrun Hd Hr)
    as (sti & sti' & Hstep & _ & Hsame).
  apply receive_datagram_initialised_iff in Hstep as [Hiff _].
  rewrite Hiff. unfold lookup_or_create. by rewrite (Hsame (key_of d) Hfirst).
Qed.

(** C10. In a pass of the receive loop the entry is initialised exactly
    when the signature buffer stored for the key is empty, an absent entry
    included.  An initialising pass works on the datagram with fragment
    index and length cleared as template, a zeroed buffer of the declared
    [signature_buffer_length], an all-false bitmap of the declared
    [fragment_count] and the receive time as arrival instant; every other
    pass works on the stored entry and keeps its sizes and its arrival
    instant.  Along a run, the first datagram of a key initialises exactly
    when the run started with an empty buffer for the key, and a later
    datagram of the key initialises exactly when the datagram of the key
    before it completed the SPDU (which erases the entry) or initialised
    with a declared [signature_buffer_length] of 0.  So after a datagram
    that declares a nonzero length no datagram of the key initialises
    until the SPDU completes, and after an initialising datagram every
    datagram of the key initialises again as long as they declare 0. *)
Theorem entry_initialisation (num_msgs : Z) (st : receiver_state)
    (ds : list (spdu_fragment * time_point))
    (st' : receiver_state) (rs : list report) :
  receive_loop num_msgs st ds = Done (st', rs) ->
  Forall (fun dt => well_formed dt.1) ds ->
  (forall sti d t sti' r,
     well_formed d ->
     receive_datagram sti d t = Done (sti', r) ->
     let old := lookup_or_create (pending_messages sti) (key_of d) in
     let fresh :=
       {| template_fragment :=
            set_fragmentation 0 (fragment_count d) (signature_buffer_length d) 0
              (signature_offset d) (zeros MAX_SIGNATURE_FRAGMENT_SIZE) d;
          signature_buffer := zeros (signature_buffer_length d);
          fragments_received := replicate (Z.to_nat (fragment_count d)) false;
          first_fragment_time := t |} in
     (initialised r = true <-> signature_buffer old = []) /\
     exists stored,
       store_fragment d (if initialised r then fresh else old) = Done stored /\
       first_fragment_time stored
       = (if initialised r then t else first_fragment_time old) /\
       zlength (signature_buffer stored)
       = (if initialised r then signature_buffer_length d
          else zlength (signature_buffer old)) /\
       zlength (fragments_received stored)
       = (if initialised r then fragment_count d
          else zlength (fragments_received old)) /\
       (forall i, i ≠ Z.to_nat (fragment_index d) ->
          fragments_received stored !! i
          = (if initialised r
             then (if bool_decide (Z.of_nat i < fragment_count d) then Some false
                   else None)
             else fragments_received old !! i)) /\
       match completed r with
       | None => pending_messages sti' !! key_of d = Some (update_template d stored)
       | Some c =>
           completed_spdu c = template_fragment (update_template d stored) /\
           completed_signature c = signature_buffer stored /\
           pending_messages sti' !! key_of d = None
       end) /\
  (forall i d t r,
     ds !! i = Some (d, t) -> rs !! i = Some r ->
     (forall m dm tm, (m < i)%nat -> ds !! m = Some (dm, tm) -> key_of dm ≠ key_of d) ->
     (initialised r = true
      <-> signature_buffer (lookup_or_create (pending_messages st) (key_of d)) = []) /\
     (pending_messages st !! key_of d = None -> initialised r = true)) /\
  (forall j i dj tj rj d t r,
     (j < i)%nat ->
     ds !! j = Some (dj, tj) -> rs !! j = Some rj ->
     ds !! i = Some (d, t) -> rs !! i = Some r ->
     key_of dj = key_of d ->
     (forall m dm tm, (j < m < i)%nat -> ds !! m = Some (dm, tm) ->
        key_of dm ≠ key_of d) ->
     (initialised r = true
      <-> is_Some (completed rj)
          \/ (initialised rj = true /\ signature_buffer_length dj = 0))) /\
  (forall j i dj tj rj d t r,
     (j < i)%nat ->
     ds !! j = Some (dj, tj) -> rs !! j = Some rj ->
     ds !! i = Some (d, t) -> rs !! i = Some r ->
     key_of dj = key_of d ->
     signature_buffer_length dj ≠ 0 ->
     (forall m dm tm rm, (j <= m < i)%nat -> ds !! m = Some (dm, tm) ->
        rs !! m = Some rm -> key_of dm = key_of d -> completed rm = None) ->
     initialised r = false) /\
  (forall j i dj tj rj d t r,
     (j < i)%nat ->
     ds !! j = Some (dj, tj) -> rs !! j = Some rj ->
     ds !! i = Some (d, t) -> rs !! i = Some r ->
     key_of dj = key_of d ->
     initialised rj = true ->
     (forall m dm tm, (j <= m < i)%nat -> ds !! m = Some (dm, tm) ->
        key_of dm = key_of d -> signature_buffer_length dm = 0) ->
     initialised r = true).
Proof.
  intros Hrun Hwf.
  assert (Hwf_at : forall j dj tj, ds !! j = Some (dj, tj) -> well_formed dj).
  { intros j dj tj Hj. by apply (Forall_lookup_1 _ _ _ _ Hwf Hj). }
  split; [|split; [|split; [|split]]].
  - intros sti d t sti' r. apply receive_datagram_effect.
  - intros i d t r Hd Hr Hfirst.
    pose proof (receive_loop_first_of_key num_msgs ds st st' rs i d t r
                  Hrun Hd Hr Hfirst) as Hiff.
    split; [done|]. intros Hnone. apply Hiff.
    unfold lookup_or_create. by rewrite Hnone.
  - intros j i dj tj rj d t r Hji Hdj Hrj Hd Hr Hkey Hbetween.
    destruct (receive_loop_split num_msgs j ds st st' rs dj tj rj Hrun Hdj Hrj)
      as (stj & stj' & Hstep & Hrest & _).
    assert (Hd' : drop (S j) ds !! (i - S j)%nat = Some (d, t)).
    { rewrite lookup_drop. by replace (S j + (i - S j))%nat with i by lia. }
    assert (Hr' : drop (S j) rs !! (i - S j)%nat = Some r).
    { rewrite lookup_drop. by replace (S j + (i - S j))%nat with i by lia. }
    rewrite (receive_loop_first_of_key num_msgs _ stj' st' _ _ d t r Hrest Hd' Hr').
    + rewrite <- Hkey.
      exact (receive_datagram_after stj dj tj stj' rj (Hwf_at j dj tj Hdj) Hstep).
    + intros m dm tm Hm Hdm. rewrite lookup_drop in Hdm.
      apply (Hbetween (S j + m)%nat dm tm); [lia|done].
  - intros j i dj tj rj d t r Hji Hdj Hrj Hd Hr Hkey Hnz Hnone.
    destruct (receive_loop_split num_msgs j ds st st' rs dj tj rj Hrun Hdj Hrj)
      as (stj & stj' & Hstep & Hrest & _).
    assert (Hlive : live (key_of d) stj').
    { rewrite <- Hkey.
      pose proof (receive_datagram_after stj dj tj stj' rj (Hwf_at j dj tj Hdj) Hstep)
        as Hafter.
      assert (Hbuf : signature_buffer
                       (lookup_or_create (pending_messages stj') (key_of dj)) ≠ []).
      { rewrite Hafter. intros [[c Hc]|[_ Hz]]; [|done].
        rewrite (Hnone j dj tj rj) in Hc; [done|lia|done..]. }
      unfold lookup_or_create in Hbuf.
      destruct (pending_messages stj' !! key_of dj) as [entry|] eqn:Hlook; [|done].
      by exists entry. }
    eapply (receive_loop_live num_msgs (key_of d) _ stj' st' _ Hrest Hlive
              (i - S j)%nat d t r).
    + rewrite lookup_drop. by replace (S j + (i - S j))%nat with i by lia.
    + rewrite lookup_drop. by replace (S j + (i - S j))%nat with i by lia.
    + done.
    + intros m dm tm rm Hm Hdm Hrm Hk. rewrite lookup_drop in Hdm.
      rewrite lookup_drop in Hrm.
      apply (Hnone (S j + m)%nat dm tm rm); [lia|done..].
  - intros j i dj tj rj d t r Hji Hdj Hrj Hd Hr Hkey Hinit Hzero.
    destruct (receive_loop_split num_msgs j ds st st' rs dj tj rj Hrun Hdj Hrj)
      as (stj & stj' & Hstep & Hrest & _).
    assert (Hun : uninitialised (key_of d) stj').
    { rewrite <- Hkey. unfold uninitialised, needs_initialisation.
      apply bool_decide_eq_true_2.
      apply (receive_datagram_after stj dj tj stj' rj (Hwf_at j dj tj Hdj) Hstep).
      right. split; [done|]. apply (Hzero j dj tj); [lia|done..]. }
    eapply (receive_loop_uninitialised num_msgs (key_of d) _ stj' st' _ Hrest Hun
              (i - S j)%nat d t r).
    + rewrite lookup_drop. by replace (S j + (i - S j))%nat with i by lia.
    + rewrite lookup_drop. by replace (S j + (i - S j))%nat with i by lia.
    + done.
    + intros m dm tm Hm Hdm Hk. rewrite lookup_drop in Hdm.
      apply (Hzero (S j + m)%nat dm tm); [lia|done..].
Qed.

(** ** A fragment that declares more payload than the array holds *)

(** C9, at the datagram above.  It passes the three checks of the receiver
    (index 0 below the bitmap size 1, not yet received, 0 + 1000 within the
    1000-byte buffer allocated from its own header), and the copy then
    reads [signature_fragment] at the indices 0 .. 999, beyond the 512
    elements of the array: the pass has no defined behaviour. *)
Theorem oversized_fragment_read_past_array :
  well_formed oversized_datagram /\
  (let entry := initialise_entry oversized_datagram 0 in
   store_fragment_reads oversized_datagram entry = seqZ 0 1000 /\
   999 ∈ store_fragment_reads oversized_datagram entry /\
   ~ 999 < MAX_SIGNATURE_FRAGMENT_SIZE /\
   store_fragment oversized_datagram entry = Undefined).
Proof.
  split.
  - unfold well_formed. vm_compute. repeat split; congruence.
  - split; [reflexivity|]. split; [|split].
    + change (999 ∈ seqZ 0 1000). apply elem_of_seqZ. lia.
    + unfold MAX_SIGNATURE_FRAGMENT_SIZE. lia.
    + reflexivity.
Qed.

(** The same datagram, as the first one a receiver gets. *)
Lemma oversized_datagram_undefined t :
  receive_datagram receiver_initial oversized_datagram t = Undefined.
Proof. reflexivity. Qed.

(** ** The transmitter: injected loss and the retry burst *)

Section transmit.

Hypothesis sendto_succeeds : forall k, 0 <= sendto_result k.

Lemma sendto_Done fragment ch :
  sendto fragment ch
  = Done {| events := events ch ++ [Ev_sendto fragment];
            sendto_calls := S (sendto_calls ch);
            draws_used := draws_used ch |}.
Proof using sendto_succeeds.
  unfold sendto. rewrite bool_decide_eq_false_2; [done|].
  pose proof (sendto_succeeds (sendto_calls ch)). lia.
Qed.

Lemma transmit_first_pass_spec drop_rate rng fragments :
  forall resend_queue ch start,
  ((0 < drop_rate)%Q -> draws_used ch = start) ->
  exists ch',
    transmit_first_pass drop_rate rng fragments resend_queue ch
    = Done (resend_queue ++ dropped_fragments drop_rate rng start fragments, ch') /\
    events ch'
    = events ch ++ (Ev_sendto <$> kept_fragments drop_rate rng start fragments).
Proof using sendto_succeeds.
  induction fragments as [|f rest IH]; intros resend_queue ch start Hstart.
  - exists ch. simpl. by rewrite !app_nil_r.
  - simpl. unfold drop_decision, drop_flag.
    destruct (decide (0 < drop_rate)%Q) as [Hpos|Hneg].
    + rewrite !bool_decide_eq_true_2 by done. rewrite (Hstart Hpos). simpl.
      destruct (bool_decide (rng start < drop_rate)%Q).
      * destruct (IH (resend_queue ++ [f])
                     {| events := events ch; sendto_calls := sendto_calls ch;
                        draws_used := S start |} (S start))
          as (ch' & Hrun & Hev); [done|].
        exists ch'. rewrite Hrun, Hev. by rewrite <- app_assoc.
      * rewrite sendto_Done.
        unfold mbind, outcome_mbind. cbn [outcome_bind events sendto_calls draws_used].
        destruct (IH resend_queue
                     {| events := events ch ++ [Ev_sendto f];
                        sendto_calls := S (sendto_calls ch);
                        draws_used := S start |} (S start))
          as (ch' & Hrun & Hev); [done|].
        exists ch'. rewrite Hrun, Hev. simpl. by rewrite <- app_assoc.
    + rewrite !bool_decide_eq_false_2 by done. simpl.
      rewrite sendto_Done.
      unfold mbind, outcome_mbind. cbn [outcome_bind events sendto_calls draws_used].
      destruct (IH resend_queue
                   {| events := events ch ++ [Ev_sendto f];
                      sendto_calls := S (sendto_calls ch);
                      draws_used := draws_used ch |} (S start))
        as (ch' & Hrun & Hev); [done|].
      exists ch'. rewrite Hrun, Hev. simpl. by rewrite <- app_assoc.
Qed.

Lemma transmit_resend_spec resend_queue : forall ch,
  exists ch',
    transmit_resend resend_queue ch = Done ch' /\
    events ch' = events ch ++ (Ev_sendto <$> resend_queue).
Proof using sendto_succeeds.
  induction resend_queue as [|f rest IH]; intros ch.
  - exists ch. simpl. by rewrite app_nil_r.
  - simpl. rewrite sendto_Done. unfold mbind, outcome_mbind. cbn [outcome_bind].
    destruct (IH {| events := events ch ++ [Ev_sendto f];
                    sendto_calls := S (sendto_calls ch);
                    draws_used := draws_used ch |}) as (ch' & Hrun & Hev).
    exists ch'. rewrite Hrun, Hev. simpl. by rewrite <- app_assoc.
Qed.

Lemma transmit_fragments_spec drop_rate rng fragments :
  let kept := kept_fragments drop_rate rng 0 fragments in
  let dropped := dropped_fragments drop_rate rng 0 fragments in
  exists ch',
    transmit_fragments drop_rate rng fragments channel_initial = Done ch' /\
    events ch'
    = (Ev_sendto <$> kept)
      ++ (if bool_decide (dropped ≠ [])
          then Ev_sleep_ms 5 :: (Ev_sendto <$> dropped) else [])
      ++ [Ev_sleep_ms 100].
Proof using sendto_succeeds.
  intros kept dropped. unfold transmit_fragments.
  destruct (transmit_first_pass_spec drop_rate rng fragments [] channel_initial 0%nat)
    as (ch1 & Hrun & Hev); [done|].
  rewrite Hrun. unfold mbind, outcome_mbind. cbn [outcome_bind].
  simpl app. fold dropped. fold kept in Hev. simpl in Hev.
  case_bool_decide as Hq.
  - destruct (transmit_resend_spec dropped (sleep_for 5 ch1)) as (ch2 & Hrun2 & Hev2).
    rewrite Hrun2. cbn [outcome_bind]. eexists. split; [reflexivity|].
    simpl. rewrite Hev2. simpl. rewrite Hev. by rewrite <- !app_assoc.
  - cbn [outcome_bind]. eexists. split; [reflexivity|].
    simpl. by rewrite Hev.
Qed.

End transmit.

Lemma sent_fragments_sendto (l : list spdu_fragment) :
  sent_fragments (Ev_sendto <$> l) = l.
Proof.
  induction l as [|f l IH]; [done|].
  change (f :: sent_fragments (Ev_sendto <$> l) = f :: l). by rewrite IH.
Qed.

Lemma sent_fragments_app evs1 evs2 :
  sent_fragments (evs1 ++ evs2) = sent_fragments evs1 ++ sent_fragments evs2.
Proof. apply omap_app. Qed.

Lemma kept_dropped_permutation drop_rate rng fragments : forall start,
  kept_fragments drop_rate rng start fragments
    ++ dropped_fragments drop_rate rng start fragments ≡ₚ fragments.
Proof.
  induction fragments as [|f rest IH]; intros start; simpl; [done|].
  destruct (drop_flag drop_rate rng start).
  - rewrite <- Permutation_middle. by rewrite IH.
  - simpl. by rewrite IH.
Qed.

Lemma draw_vectors_nonempty K N : (0 < K)%nat -> draw_vectors K N ≠ [].
Proof.
  intros HK. induction N as [|n IH]; [done|]. simpl.
  destruct K as [|K]; [lia|].
  unfold grid. cbn [seq fmap list_fmap mbind list_bind].
  destruct (draw_vectors (S K) n); [done|]. done.
Qed.

Lemma filter_all {A} (P : A -> Prop) `{!forall x, Decision (P x)} (l : list A) :
  (forall x, P x) -> filter P l = l.
Proof.
  intros HP. induction l as [|x l IH]; [done|].
  rewrite filter_cons_True by done. by rewrite IH.
Qed.

(** C5, as the code has it.  A fragment whose draw is below the loss rate
    is queued instead of sent; after the first pass, when the queue is not
    empty, the transmitter sleeps 5 ms and sends every queued fragment
    once.  No draw is made in the retry burst: whatever the draws, every
    fragment of the SPDU is handed to [sendto] exactly once, in the first
    pass or in the burst, so the injected loss never keeps an SPDU from
    being sent in full, with probability 1 for every loss rate and every
    number of fragments. *)
Theorem retry_burst_sends_every_fragment (drop_rate : Q) (rng : nat -> Q)
    (fragments : list spdu_fragment) :
  (forall k, 0 <= sendto_result k) ->
  let kept := kept_fragments drop_rate rng 0 fragments in
  let dropped := dropped_fragments drop_rate rng 0 fragments in
  exists ch',
    transmit_fragments drop_rate rng fragments channel_initial = Done ch' /\
    events ch'
    = (Ev_sendto <$> kept)
      ++ (if bool_decide (dropped ≠ [])
          then Ev_sleep_ms 5 :: (Ev_sendto <$> dropped) else [])
      ++ [Ev_sleep_ms 100] /\
    sent_fragments (events ch') = kept ++ dropped /\
    sent_fragments (events ch') ≡ₚ fragments /\
    forall K, (0 < K)%nat -> (delivery_probability K drop_rate fragments == 1)%Q.
Proof.
  intros Hsend kept dropped.
  assert (Hall : forall rng',
            delivered fragments
              (transmit_fragments drop_rate rng' fragments channel_initial) = true).
  { intros rng'.
    destruct (transmit_fragments_spec Hsend drop_rate rng' fragments)
      as (ch & Hrun & Hev).
    rewrite Hrun. simpl. apply bool_decide_eq_true_2. rewrite Hev.
    rewrite !sent_fragments_app, sent_fragments_sendto.
    case_bool_decide as Hq; simpl; rewrite ?sent_fragments_sendto, ?app_nil_r.
    - apply kept_dropped_permutation.
    - pose proof (kept_dropped_permutation drop_rate rng' fragments 0) as Hperm.
      by rewrite Hq, app_nil_r in Hperm. }
  destruct (transmit_fragments_spec Hsend drop_rate rng fragments)
    as (ch & Hrun & Hev).
  fold kept dropped in Hev.
  assert (Hsent : sent_fragments (events ch) = kept ++ dropped).
  { rewrite Hev, !sent_fragments_app, sent_fragments_sendto.
    case_bool_decide as Hd; simpl; rewrite ?sent_fragments_sendto, ?app_nil_r.
    - done.
    - by rewrite Hd, app_nil_r. }
  exists ch. split; [done|]. split; [done|]. split; [done|]. split.
  - rewrite Hsent. apply kept_dropped_permutation.
  - intros K HK. unfold delivery_probability.
    rewrite filter_all by (intros draws; apply Hall).
    pose proof (draw_vectors_nonempty K (length fragments) HK) as Hne.
    assert (Hlen : (0 < length (draw_vectors K (length fragments)))%nat).
    { destruct (draw_vectors K (length fragments)); [done|simpl; lia]. }
    unfold Qeq. simpl. rewrite Z.mul_1_r.
    rewrite <- (Nat2Pos.id (length (draw_vectors K (length fragments)))) at 1 by lia.
    by rewrite positive_nat_Z.
Qed.

(** ** Hex decoding *)

Lemma pair_induction {A} (P : list A -> Prop) :
  P [] -> (forall x, P [x]) -> (forall x y l, P l -> P (x :: y :: l)) ->
  forall l, P l.
Proof.
  intros Hnil Hone Hstep l.
  assert (H : P l /\ forall x, P (x :: l)); [|by destruct H].
  induction l as [|y l [IH1 IH2]]; [done|].
  split; [apply IH2|]. intros x. by apply Hstep.
Qed.

Lemma decode_hex_char_accepts c :
  is_hex_digit c -> exists d, decode_hex_char c = Returns d.
Proof.
  intros Hc. unfold decode_hex_char.
  repeat case_bool_decide; try (eexists; reflexivity).
  unfold is_hex_digit in Hc. lia.
Qed.

Lemma decode_hex_char_rejects c :
  ~ is_hex_digit c -> decode_hex_char c = Throws "Invalid hex character".
Proof.
  intros Hc. unfold decode_hex_char, is_hex_digit in *.
  repeat case_bool_decide; try done; lia.
Qed.

Lemma decode_hex_char_inv c d : decode_hex_char c = Returns d -> is_hex_digit c.
Proof.
  intros Hd. destruct (decide (is_hex_digit c)) as [|Hno]; [done|].
  by rewrite decode_hex_char_rejects in Hd.
Qed.

#[global] Instance is_hex_digit_dec c : Decision (is_hex_digit c).
Proof. unfold is_hex_digit. apply _. Defined.

Lemma hex_to_bytes_loop_accepts hex :
  zlength hex mod 2 = 0 -> Forall is_hex_digit hex ->
  exists bytes, hex_to_bytes_loop hex = Returns bytes /\ zlength hex = 2 * zlength bytes.
Proof.
  induction hex as [|c|c1 c2 rest IH] using pair_induction; intros Heven Hall.
  - by exists [].
  - done.
  - apply Forall_cons in Hall as [H1 Hall]. apply Forall_cons in Hall as [H2 Hall].
    destruct (decode_hex_char_accepts c1 H1) as [d1 Hd1].
    destruct (decode_hex_char_accepts c2 H2) as [d2 Hd2].
    destruct IH as (bytes & Hrest & Hlen); [|done|].
    { unfold zlength in *. simpl length in Heven.
      replace (Z.of_nat (S (S (length rest)))) with (Z.of_nat (length rest) + 1 * 2)
        in Heven by lia.
      by rewrite Z.mod_add in Heven. }
    eexists. simpl. rewrite Hd1, Hd2. simpl. rewrite Hrest. simpl.
    split; [reflexivity|]. unfold zlength in *. simpl. lia.
Qed.

Lemma hex_to_bytes_loop_rejects hex :
  ~ Forall is_hex_digit hex ->
  hex_to_bytes_loop hex = Throws "Invalid hex character".
Proof.
  induction hex as [|c|c1 c2 rest IH] using pair_induction; intros Hbad.
  - by destruct Hbad.
  - cbn [hex_to_bytes_loop].
    destruct (decide (is_hex_digit c)) as [Hc|Hc];
      [|by rewrite (decode_hex_char_rejects c)].
    by destruct (decode_hex_char_accepts c Hc) as [d ->].
  - cbn [hex_to_bytes_loop].
    destruct (decide (is_hex_digit c1)) as [H1|H1];
      [|by rewrite (decode_hex_char_rejects c1)].
    destruct (decode_hex_char_accepts c1 H1) as [d1 ->].
    destruct (decide (is_hex_digit c2)) as [H2|H2];
      [|cbn; by rewrite (decode_hex_char_rejects c2)].
    destruct (decode_hex_char_accepts c2 H2) as [d2 ->]. cbn.
    rewrite IH; [done|]. intros Hrest. apply Hbad.
    apply Forall_cons_2; [done|]. by apply Forall_cons_2.
Qed.

Lemma hex_to_bytes_inv hex bytes :
  hex_to_bytes hex = Returns bytes ->
  zlength hex mod 2 = 0 /\ Forall is_hex_digit hex /\ zlength hex = 2 * zlength bytes.
Proof.
  unfold hex_to_bytes. case_bool_decide as Hodd; [done|]. intros Hloop.
  assert (Heven : zlength hex mod 2 = 0).
  { destruct (decide (zlength hex mod 2 = 0)) as [|Hne]; [done|]. by destruct Hodd. }
  destruct (decide (Forall is_hex_digit hex)) as [Hall|Hbad].
  - destruct (hex_to_bytes_loop_accepts hex Heven Hall) as (bytes' & Hrun & Hlen).
    rewrite Hrun in Hloop. by simplify_eq.
  - by rewrite hex_to_bytes_loop_rejects in Hloop.
Qed.

(** [hex_to_bytes], case by case: an odd length is refused first, then
    the first character that is no hex digit; every other string decodes,
    to half as many bytes as it has characters. *)
Theorem hex_to_bytes_cases (hex : list ascii) :
  (zlength hex mod 2 <> 0 ->
   hex_to_bytes hex = Throws "Hex string length must be even") /\
  (zlength hex mod 2 = 0 -> ~ Forall is_hex_digit hex ->
   hex_to_bytes hex = Throws "Invalid hex character") /\
  (zlength hex mod 2 = 0 -> Forall is_hex_digit hex ->
   exists bytes, hex_to_bytes hex = Returns bytes /\ zlength hex = 2 * zlength bytes) /\
  (forall bytes, hex_to_bytes hex = Returns bytes ->
   zlength hex = 2 * zlength bytes /\ Forall is_hex_digit hex).
Proof.
  split; [|split; [|split]].
  - intros Hodd. unfold hex_to_bytes. by rewrite bool_decide_eq_true_2.
  - intros Heven Hbad. unfold hex_to_bytes.
    rewrite bool_decide_eq_false_2 by (by intros []).
    by apply hex_to_bytes_loop_rejects.
  - intros Heven Hall. unfold hex_to_bytes.
    rewrite bool_decide_eq_false_2 by (by intros []).
    by apply hex_to_bytes_loop_accepts.
  - intros bytes Hrun. by apply hex_to_bytes_inv in Hrun as (_ & ? & ?).
Qed.

Lemma decode_hex_pair up1 up2 b :
  decode_hex_char (hex_digit up1 (byte_value b / 16)) ≫= (fun msn =>
    decode_hex_char (hex_digit up2 (byte_value b mod 16)) ≫= (fun lsn =>
      Returns (uint8_byte (Z.lor (Z.shiftl msn 4) lsn))))
  = Returns b.
Proof. destruct up1, up2, b; vm_compute; reflexivity. Qed.

Lemma hex_to_bytes_loop_hex_of_bytes bytes : forall upper,
  hex_to_bytes_loop (hex_of_bytes upper bytes) = Returns bytes.
Proof.
  induction bytes as [|b rest IH]; intros upper; [done|].
  cbn [hex_of_bytes hex_to_bytes_loop].
  pose proof (decode_hex_pair (upper 0%nat) (upper 1%nat) b) as Hpair.
  destruct (decode_hex_char (hex_digit (upper 0%nat) (byte_value b / 16)))
    as [msn|] eqn:Hm; [|done].
  cbn in Hpair |- *.
  destruct (decode_hex_char (hex_digit (upper 1%nat) (byte_value b mod 16)))
    as [lsn|] eqn:Hl; [|done].
  cbn in Hpair |- *. rewrite IH. cbn. by injection Hpair as ->.
Qed.

Lemma length_hex_of_bytes bytes : forall upper,
  length (hex_of_bytes upper bytes) = (2 * length bytes)%nat.
Proof.
  induction bytes as [|b rest IH]; intros upper; [done|].
  simpl. rewrite IH. lia.
Qed.

(** Every byte string, written as two hex digits per byte in upper or lower
    case (chosen digit by digit), is decoded to itself. *)
Theorem hex_to_bytes_hex_of_bytes (upper : nat -> bool) (bytes : list byte) :
  hex_to_bytes (hex_of_bytes upper bytes) = Returns bytes.
Proof.
  unfold hex_to_bytes. rewrite bool_decide_eq_false_2.
  - apply hex_to_bytes_loop_hex_of_bytes.
  - intros Hodd. apply Hodd. unfold zlength. rewrite length_hex_of_bytes.
    replace (Z.of_nat (2 * length bytes)) with (0 + Z.of_nat (length bytes) * 2) by lia.
    by rewrite Z.mod_add.
Qed.

(** ** The sender: trace rows and exits *)

Lemma index_Done {A} (l : list A) (i : Z) x :
  index l i = Done x <-> 0 <= i /\ l !! Z.to_nat i = Some x.
Proof.
  unfold index. case_bool_decide as Hi.
  - destruct (l !! Z.to_nat i) as [y|]; split.
    + by intros [= ->].
    + by intros [_ [= ->]].
    + done.
    + by intros [_ ?].
  - split; [done|]. by intros [? _].
Qed.

Lemma index_not_Exit {A} (l : list A) (i : Z) status : index l i <> Exit status.
Proof. unfold index. case_bool_decide; [|done]. by destruct (l !! _). Qed.

Lemma lookup_0_Some {A} (row : list A) x : row !! 0%nat = Some x -> (1 <= length row)%nat.
Proof. destruct row; [done|]. simpl. lia. Qed.

Lemma generate_bsm_inv (v : Vehicle) (t : Z) msg :
  generate_bsm v t = Done msg ->
  0 <= t /\
  exists lat lon elev more,
    timestep v !! Z.to_nat t = Some (lat :: lon :: elev :: more) /\
    latitude msg = lat /\ longitude msg = lon /\ elevation msg = elev /\
    (t = 0 -> speed msg = 0 /\ heading msg = 0) /\
    (t <> 0 ->
     exists prev_lat prev_lon more',
       timestep v !! Z.to_nat (t - 1) = Some (prev_lat :: prev_lon :: more') /\
       speed msg = calculate_speed_kph prev_lat lat prev_lon lon 100 /\
       heading msg = calculate_heading prev_lat lat prev_lon lon).
Proof.
  unfold generate_bsm.
  destruct (index (timestep v) t) as [row| |] eqn:Hrow; [|done..].
  apply index_Done in Hrow as [Ht Hrow]. simpl.
  destruct row as [|lat [|lon [|elev more]]]; try done.
  change (index (lat :: lon :: elev :: more) 0) with (Done (A := float) lat).
  change (index (lat :: lon :: elev :: more) 1) with (Done (A := float) lon).
  change (index (lat :: lon :: elev :: more) 2) with (Done (A := float) elev).
  simpl. case_bool_decide as Hnz.
  - destruct (index (timestep v) (t - 1)) as [prev| |] eqn:Hprev; [|done..].
    apply index_Done in Hprev as [_ Hprev]. simpl.
    destruct prev as [|prev_lat [|prev_lon more']]; try done.
    change (index (prev_lat :: prev_lon :: more') 0) with (Done (A := float) prev_lat).
    change (index (prev_lat :: prev_lon :: more') 1) with (Done (A := float) prev_lon).
    simpl. intros [= <-]. split; [done|].
    exists lat, lon, elev, more. simpl. repeat split; try done.
    intros _. by exists prev_lat, prev_lon, more'.
  - intros [= <-]. split; [done|].
    exists lat, lon, elev, more. simpl. repeat split; try done.
Qed.

Lemma generate_bsm_not_Exit (v : Vehicle) (t : Z) status :
  generate_bsm v t <> Exit status.
Proof.
  unfold generate_bsm.
  destruct (index (timestep v) t) as [row| |] eqn:Hrow; [|by apply index_not_Exit in Hrow|done].
  simpl.
  destruct (index row 0) as [lat| |] eqn:H0; [|by apply index_not_Exit in H0|done].
  simpl.
  destruct (index row 1) as [lon| |] eqn:H1; [|by apply index_not_Exit in H1|done].
  simpl.
  destruct (index row 2) as [elev| |] eqn:H2; [|by apply index_not_Exit in H2|done].
  simpl. case_bool_decide; [|done].
  destruct (index (timestep v) (t - 1)) as [prev| |] eqn:Hp;
    [|by apply index_not_Exit in Hp|done].
  simpl.
  destruct (index prev 0) as [plat| |] eqn:Hp0; [|by apply index_not_Exit in Hp0|done].
  simpl.
  destruct (index prev 1) as [plon| |] eqn:Hp1; [|by apply index_not_Exit in Hp1|done].
  done.
Qed.

Lemma generate_bsm_Done_iff (v : Vehicle) (t : Z) :
  (exists msg, generate_bsm v t = Done msg) <->
  0 <= t /\
  exists row,
    timestep v !! Z.to_nat t = Some row /\ (3 <= length row)%nat /\
    (t <> 0 ->
     exists prev,
       timestep v !! Z.to_nat (t - 1) = Some prev /\ (2 <= length prev)%nat).
Proof.
  split.
  - intros [msg Hmsg].
    destruct (generate_bsm_inv v t msg Hmsg)
      as (Ht & lat & lon & elev & more & Hrow & _ & _ & _ & _ & Hprev).
    split; [done|]. eexists. split; [exact Hrow|]. split; [simpl; lia|].
    intros Hnz. destruct (Hprev Hnz) as (plat & plon & more' & Hp & _).
    eexists. split; [exact Hp|]. simpl. lia.
  - intros (Ht & row & Hrow & Hlen & Hprev).
    unfold generate_bsm.
    rewrite (proj2 (index_Done (timestep v) t row)) by done. simpl.
    destruct row as [|lat [|lon [|elev more]]]; try (simpl in Hlen; lia).
    change (index (lat :: lon :: elev :: more) 0) with (Done (A := float) lat).
    change (index (lat :: lon :: elev :: more) 1) with (Done (A := float) lon).
    change (index (lat :: lon :: elev :: more) 2) with (Done (A := float) elev).
    simpl. case_bool_decide as Hnz; [|eauto].
    destruct (Hprev Hnz) as (prev & Hp & Hplen).
    rewrite (proj2 (index_Done (timestep v) (t - 1) prev)) by (split; [lia|done]).
    simpl. destruct prev as [|plat [|plon more']]; try (simpl in Hplen; lia).
    change (index (plat :: plon :: more') 0) with (Done (A := float) plat).
    change (index (plat :: plon :: more') 1) with (Done (A := float) plon).
    simpl. eauto.
Qed.

(** [generate_bsm] never ends the process, and it is defined exactly when
    the trace has a row for the time step with at least three columns and,
    for a step that is not 0, a row before it with at least two; nothing
    in the function checks this.  The message of step 0 has speed 0 and
    heading 0; the message of a later step gets them from the row before
    and its own, over 100 ms. *)
Theorem generate_bsm_defined (v : Vehicle) (t : Z) :
  (forall status, generate_bsm v t <> Exit status) /\
  ((exists msg, generate_bsm v t = Done msg) <->
   0 <= t /\
   exists row,
     timestep v !! Z.to_nat t = Some row /\ (3 <= length row)%nat /\
     (t <> 0 ->
      exists prev,
        timestep v !! Z.to_nat (t - 1) = Some prev /\ (2 <= length prev)%nat)) /\
  (forall msg, generate_bsm v t = Done msg ->
     exists lat lon elev more,
       timestep v !! Z.to_nat t = Some (lat :: lon :: elev :: more) /\
       latitude msg = lat /\ longitude msg = lon /\ elevation msg = elev /\
       (t = 0 -> speed msg = 0 /\ heading msg = 0) /\
       (t <> 0 ->
        exists prev_lat prev_lon more',
          timestep v !! Z.to_nat (t - 1) = Some (prev_lat :: prev_lon :: more') /\
          speed msg = calculate_speed_kph prev_lat lat prev_lon lon 100 /\
          heading msg = calculate_heading prev_lat lat prev_lon lon)).
Proof.
  split; [|split].
  - intros status. apply generate_bsm_not_Exit.
  - apply generate_bsm_Done_iff.
  - intros msg Hmsg. by destruct (generate_bsm_inv v t msg Hmsg) as [_ ?].
Qed.

Lemma copy_n_not_Exit src n dst off status : copy_n src n dst off <> Exit status.
Proof. unfold copy_n. by repeat case_bool_decide. Qed.

Lemma copy_n_length src n dst off out :
  copy_n src n dst off = Done out -> length out = length dst.
Proof.
  unfold copy_n. repeat case_bool_decide; try done.
  intros [= <-]. by rewrite length_inserts.
Qed.

Lemma collect_inv {A B} (body : A -> outcome B) (l : list A) ys :
  collect body l = Done ys -> Forall2 (fun x y => body x = Done y) l ys.
Proof.
  revert ys. induction l as [|x l IH]; intros ys; simpl.
  - intros [= <-]. constructor.
  - destruct (body x) as [y| |] eqn:Hx; [|done..].
    destruct (collect body l) as [ys'| |]; [|done..].
    intros [= <-]. constructor; [done|]. by apply IH.
Qed.

Lemma collect_not_Exit {A B} (body : A -> outcome B) (l : list A) status :
  (forall x status', body x <> Exit status') -> collect body l <> Exit status.
Proof.
  intros Hbody. induction l as [|x l IH]; simpl; [done|].
  destruct (body x) as [y| |] eqn:Hx; [|by apply Hbody in Hx|done].
  by destruct (collect body l).
Qed.

Lemma generate_spdu_inv seq_number ts now s spdu s' :
  generate_spdu seq_number ts now s = Done (spdu, s') ->
  same_vehicle (this s) (this s') /\
  (exists msg, generate_bsm (this s) ts = Done msg) /\
  vehicle_id spdu = number (this s) /\
  sequence_number spdu = seq_number.
Proof.
  unfold generate_spdu, get_this, lift, tx_sha256sum, tx_ecdsa_sign, calls_so_far,
    record_call, put_this, mbind, tx_mbind, mret, tx_ret. simpl.
  destruct (generate_bsm (this s) ts) as [msg| |]; [|done..].
  destruct (copy_n _ _ (this_certificate_signature (this s)) 0) as [scratch| |] eqn:Hscratch;
    [|done..].
  destruct (copy_n scratch _ _ 0) as [copied| |]; [|done..].
  intros [= <- <-]. simpl. apply copy_n_length in Hscratch.
  unfold same_vehicle. simpl. repeat split; eauto.
Qed.

Lemma generate_spdu_not_Exit seq_number ts now s status :
  generate_spdu seq_number ts now s <> Exit status.
Proof.
  unfold generate_spdu, get_this, lift, tx_sha256sum, tx_ecdsa_sign, calls_so_far,
    record_call, put_this, mbind, tx_mbind, mret, tx_ret. simpl.
  destruct (generate_bsm (this s) ts) as [msg| |] eqn:Hbsm;
    [|by apply generate_bsm_not_Exit in Hbsm|done].
  destruct (copy_n _ _ (this_certificate_signature (this s)) 0) as [scratch| |] eqn:Hscratch;
    [|by apply copy_n_not_Exit in Hscratch|done].
  destruct (copy_n scratch _ _ 0) as [copied| |] eqn:Hcopied;
    [done|by apply copy_n_not_Exit in Hcopied|done].
Qed.

Lemma sign_message_ecdsa_inv spdu s signed s' :
  sign_message_ecdsa spdu s = Done (signed, s') ->
  this s' = this s /\
  vehicle_id signed = vehicle_id spdu /\
  sequence_number signed = sequence_number spdu /\
  fragment_count signed = 1.
Proof.
  unfold sign_message_ecdsa, get_this, lift, tx_sha256sum, tx_ecdsa_sign, calls_so_far,
    record_call, tx_exit, mbind, tx_mbind, mret, tx_ret. simpl.
  case_bool_decide; [done|]. simpl.
  destruct (copy_n _ _ _ 0) as [signature| |]; [|done..].
  destruct (copy_n signature _ _ 0) as [payload| |]; [|done..].
  by intros [= <- <-].
Qed.

Lemma sign_message_ecdsa_Exit spdu s status :
  sign_message_ecdsa spdu s = Exit status ->
  status = EXIT_FAILURE /\
  MAX_SIGNATURE_FRAGMENT_SIZE < to_uint32 (ECDSA_size (private_ec_key (this s))).
Proof.
  unfold sign_message_ecdsa, get_this, lift, tx_sha256sum, tx_ecdsa_sign, calls_so_far,
    record_call, tx_exit, mbind, tx_mbind, mret, tx_ret. simpl.
  case_bool_decide as Hbig; [intros [= <-]; split; [done|lia]|]. simpl.
  destruct (copy_n _ _ _ 0) as [signature| |] eqn:H1;
    [|by apply copy_n_not_Exit in H1|done].
  destruct (copy_n signature _ _ 0) as [payload| |] eqn:H2;
    [done|by apply copy_n_not_Exit in H2|done].
Qed.

Lemma falcon_fragment_inv spdu signature fs count idx fragment :
  falcon_fragment spdu signature fs count idx = Done fragment ->
  vehicle_id fragment = vehicle_id spdu /\
  sequence_number fragment = sequence_number spdu.
Proof.
  unfold falcon_fragment. destruct (copy_n _ _ _ 0); simpl; [|done..].
  by intros [= <-].
Qed.

Lemma falcon_fragment_not_Exit spdu signature fs count idx status :
  falcon_fragment spdu signature fs count idx <> Exit status.
Proof.
  unfold falcon_fragment. destruct (copy_n _ _ _ 0) eqn:H; simpl; [done| |done].
  by apply copy_n_not_Exit in H.
Qed.

Lemma sign_message_falcon_inv spdu s fragments s' :
  sign_message_falcon spdu s = Done (fragments, s') ->
  this s' = this s /\
  Forall (fun fragment =>
            vehicle_id fragment = vehicle_id spdu /\
            sequence_number fragment = sequence_number spdu) fragments.
Proof.
  unfold sign_message_falcon, get_this, lift, tx_falcon_sign, calls_so_far,
    record_call, tx_exit, mbind, tx_mbind, mret, tx_ret. simpl.
  case_bool_decide; [done|]. simpl.
  destruct (copy_n _ _ _ 0) as [signature| |]; [|done..].
  destruct (collect _ _) as [ys| |] eqn:Hcollect; [|done..].
  intros [= <- <-]. split; [done|].
  apply collect_inv in Hcollect.
  induction Hcollect as [|idx y l ys Hy _ IH]; constructor; [|done].
  by apply falcon_fragment_inv in Hy.
Qed.

Lemma sign_message_falcon_Exit spdu s status :
  sign_message_falcon spdu s = Exit status ->
  status = EXIT_FAILURE /\ falcon_private_key (this s) = [].
Proof.
  unfold sign_message_falcon, get_this, lift, tx_falcon_sign, calls_so_far,
    record_call, tx_exit, mbind, tx_mbind, mret, tx_ret. simpl.
  case_bool_decide as Hkey; [by intros [= <-]|]. simpl.
  destruct (copy_n _ _ _ 0) as [signature| |] eqn:H1;
    [|by apply copy_n_not_Exit in H1|done].
  destruct (collect _ _) as [ys| |] eqn:Hcollect; [done| |done].
  apply collect_not_Exit in Hcollect; [done|].
  intros idx status'. apply falcon_fragment_not_Exit.
Qed.

(** What [prepare_signed_fragments] keeps and what its fragments carry. *)
Lemma prepare_signed_fragments_inv seq_number ts now s fragments s' :
  prepare_signed_fragments seq_number ts now s = Done (fragments, s') ->
  same_vehicle (this s) (this s') /\
  (exists msg, generate_bsm (this s) ts = Done msg) /\
  (scheme (pqc (this s)) = ECDSA -> length fragments = 1%nat) /\
  Forall (fun fragment =>
            vehicle_id fragment = number (this s) /\
            sequence_number fragment = seq_number) fragments.
Proof.
  unfold prepare_signed_fragments, mbind, tx_mbind.
  destruct (generate_spdu seq_number ts now s) as [[base s1]| |] eqn:Hgen; [|done..].
  apply generate_spdu_inv in Hgen as (Hsame & Hbsm & Hid & Hseq).
  unfold get_this. simpl.
  case_bool_decide as Hscheme.
  - destruct (sign_message_ecdsa _ s1) as [[signed s2]| |] eqn:Hsign; [|done..].
    apply sign_message_ecdsa_inv in Hsign as (Hthis & Hid' & Hseq' & _).
    unfold mret, tx_ret. intros [= <- <-]. rewrite Hthis.
    split; [done|]. split; [done|]. split; [done|].
    constructor; [|constructor]. by rewrite Hid', Hseq'.
  - intros Hsign. apply sign_message_falcon_inv in Hsign as [Hthis Hall].
    rewrite Hthis. split; [done|]. split; [done|].
    destruct Hsame as (_ & Hpqc & _). rewrite Hpqc in Hscheme.
    split; [done|]. eapply Forall_impl; [exact Hall|].
    intros fragment. simpl. by rewrite Hid, Hseq.
Qed.

Lemma prepare_signed_fragments_Exit_inv (seq_number ts : Z) (now : time_point)
    (s : tx_state) (status : Z) :
  prepare_signed_fragments seq_number ts now s = Exit status ->
  status = EXIT_FAILURE /\
  (scheme (pqc (this s)) = ECDSA /\
   MAX_SIGNATURE_FRAGMENT_SIZE < to_uint32 (ECDSA_size (private_ec_key (this s)))
   \/
   scheme (pqc (this s)) = FALCON /\ falcon_private_key (this s) = []).
Proof.
  unfold prepare_signed_fragments, mbind, tx_mbind.
  destruct (generate_spdu seq_number ts now s) as [[base s1]| |] eqn:Hgen;
    [|by apply generate_spdu_not_Exit in Hgen|done].
  apply generate_spdu_inv in Hgen as ((_ & Hpqc & Hkey & _ & _ & Hfalcon & _) & _).
  unfold get_this. simpl. rewrite Hpqc.
  case_bool_decide as Hscheme.
  - destruct (sign_message_ecdsa _ s1) as [[signed s2]| |] eqn:Hsign; [done| |done].
    apply sign_message_ecdsa_Exit in Hsign as [-> Hbig]. rewrite Hkey in Hbig.
    intros [= <-]. split; [done|]. by left.
  - intros Hsign. apply sign_message_falcon_Exit in Hsign as [-> Hempty].
    rewrite Hfalcon in Hempty. split; [done|]. right. split; [|done].
    by destruct (scheme (pqc (this s))).
Qed.

(** [prepare_signed_fragments] ends the process in two situations only: in
    ECDSA mode when [ECDSA_size] of the signing key (as an [unsigned int])
    exceeds the 512 bytes of a fragment, and in Falcon mode when no Falcon
    private key is loaded; the status is [EXIT_FAILURE]. *)
Theorem prepare_signed_fragments_exits (seq_number ts : Z) (now : time_point)
    (s : tx_state) (status : Z) :
  prepare_signed_fragments seq_number ts now s = Exit status ->
  status = EXIT_FAILURE /\
  (scheme (pqc (this s)) = ECDSA /\
   MAX_SIGNATURE_FRAGMENT_SIZE < to_uint32 (ECDSA_size (private_ec_key (this s)))
   \/
   scheme (pqc (this s)) = FALCON /\ falcon_private_key (this s) = []).
Proof. apply prepare_signed_fragments_Exit_inv. Qed.

(** ** The trace file and the constructor *)

Lemma getline_length delim stream line rest :
  Files.getline delim stream = (line, rest) ->
  (length rest <= length stream)%nat /\
  (stream <> [] -> length rest < length stream)%nat.
Proof.
  revert line rest. induction stream as [|c stream IH]; intros line rest; simpl.
  - intros [= <- <-]. split; [done|]. by intros [].
  - destruct (decide (c = delim)).
    + intros [= <- <-]. split; [lia|]. intros _. lia.
    + destruct (Files.getline delim stream) as [line' rest'] eqn:Hget.
      intros [= <- <-]. destruct (IH line' rest' eq_refl) as [Hle _].
      split; [lia|]. intros _. lia.
Qed.

(** More rounds than the stream has characters read no further line. *)
Lemma getlines_enough delim : forall rounds stream,
  (length stream <= rounds)%nat ->
  Files.getlines rounds delim stream = Files.all_lines delim stream.
Proof.
  unfold Files.all_lines.
  intros rounds stream. remember (length stream) as n eqn:Hn.
  revert rounds stream Hn.
  induction n as [n IH] using lt_wf_ind. intros rounds stream -> Hle.
  destruct stream as [|c stream]; [by destruct rounds|].
  destruct rounds as [|rounds]; [simpl in Hle; lia|].
  cbn [length Files.getlines].
  destruct (Files.getline delim (c :: stream)) as [line rest] eqn:Hget.
  apply getline_length in Hget as [_ Hlt]. specialize (Hlt ltac:(done)).
  simpl in Hlt, Hle. f_equal.
  assert (Hrest : (length rest < length (c :: stream))%nat) by (simpl; lia).
  rewrite (IH (length rest) Hrest rounds rest eq_refl) by lia.
  by rewrite (IH (length rest) Hrest (length stream) rest eq_refl) by lia.
Qed.

Lemma all_lines_nil delim : Files.all_lines delim [] = [].
Proof. done. Qed.

Lemma all_lines_cons delim c stream :
  Files.all_lines delim (c :: stream)
  = (Files.getline delim (c :: stream)).1
      :: Files.all_lines delim (Files.getline delim (c :: stream)).2.
Proof.
  unfold Files.all_lines at 1. cbn [length Files.getlines].
  destruct (Files.getline delim (c :: stream)) as [line rest] eqn:Hget. simpl.
  f_equal. apply getlines_enough.
  apply getline_length in Hget as [_ Hlt]. specialize (Hlt ltac:(done)).
  simpl in Hlt. lia.
Qed.

Lemma getline_delimited delim line rest :
  delim ∉ line -> Files.getline delim (line ++ delim :: rest) = (line, rest).
Proof.
  induction line as [|c line IH]; intros Hnot; simpl.
  - by rewrite decide_True.
  - rewrite decide_False by (intros ->; apply Hnot; left).
    rewrite IH; [done|]. intros Hin. apply Hnot. by right.
Qed.

Lemma getline_last delim line :
  delim ∉ line -> Files.getline delim line = (line, []).
Proof.
  induction line as [|c line IH]; intros Hnot; simpl; [done|].
  rewrite decide_False by (intros ->; apply Hnot; left).
  rewrite IH; [done|]. intros Hin. apply Hnot. by right.
Qed.

(** The lines the loop reads: a delimiter ends a line, a last line needs
    none, and nothing follows a final delimiter. *)
Lemma all_lines_delimited delim line rest :
  delim ∉ line ->
  Files.all_lines delim (line ++ delim :: rest) = line :: Files.all_lines delim rest.
Proof.
  intros Hnot.
  destruct (line ++ delim :: rest) as [|c stream] eqn:Hstream;
    [by destruct line|].
  rewrite all_lines_cons, <- Hstream. by rewrite getline_delimited.
Qed.

Lemma all_lines_last delim line :
  delim ∉ line -> line <> [] -> Files.all_lines delim line = [line].
Proof.
  intros Hnot Hne. destruct line as [|c line]; [done|].
  rewrite all_lines_cons. by rewrite getline_last.
Qed.

Lemma parse_words_Returns words : forall values,
  Files.parse_words stof words = Returns values <->
  Forall2 (fun word value => stof word = Returns value) words values.
Proof.
  induction words as [|word words IH]; intros values; simpl.
  - split; [intros [= <-]; constructor|by intros ->%Forall2_nil_inv_l].
  - split.
    + destruct (stof word) as [value|] eqn:Hword; [|done]. simpl.
      destruct (Files.parse_words stof words) as [values'|] eqn:Hrest; [|done].
      simpl. intros [= <-]. constructor; [done|]. by apply IH.
    + intros (value & values' & Hword & Hrest & ->)%Forall2_cons_inv_l.
      rewrite Hword. simpl. apply IH in Hrest. by rewrite Hrest.
Qed.

Lemma parse_lines_Returns lines : forall rows,
  Files.parse_lines stof lines = Returns rows <->
  Forall2 (fun line row =>
             Forall2 (fun word value => stof word = Returns value)
                     (Files.all_lines "," line) row) lines rows.
Proof.
  induction lines as [|line lines IH]; intros rows; simpl.
  - split; [intros [= <-]; constructor|by intros ->%Forall2_nil_inv_l].
  - split.
    + destruct (Files.parse_words stof _) as [row|] eqn:Hline; [|done]. simpl.
      destruct (Files.parse_lines stof lines) as [rows'|] eqn:Hrest; [|done].
      simpl. intros [= <-]. constructor; [by apply parse_words_Returns|by apply IH].
    + intros (row & rows' & Hline & Hrest & ->)%Forall2_cons_inv_l.
      apply parse_words_Returns in Hline. rewrite Hline. simpl.
      apply IH in Hrest. by rewrite Hrest.
Qed.

Lemma load_trace_Returns (files : Files.file_system) (number : Z)
    (timestep0 : list (list float)) text rows :
  files (Files.trace_path number) = Some text ->
  Files.load_trace stof files number timestep0 = Done (Returns rows) <->
  exists new,
    rows = timestep0 ++ new /\
    Forall2 (fun line row =>
               Forall2 (fun word value => stof word = Returns value)
                       (Files.all_lines "," line) row)
            (Files.all_lines Files.newline text) new.
Proof.
  unfold Files.load_trace. intros ->. split.
  - destruct (Files.parse_lines stof _) as [new|] eqn:Hparse; [|done].
    simpl. intros [= <-]. exists new. split; [done|]. by apply parse_lines_Returns.
  - intros (new & -> & Hall). apply parse_lines_Returns in Hall.
    by rewrite Hall.
Qed.

(** [load_trace] exits when the trace file cannot be opened and is
    otherwise defined.  It returns exactly when [std::stof] accepts every
    comma-separated field of every line, and then appends one row per line
    with one value per field: a blank line gives a row without columns. *)
Theorem load_trace_rows (files : Files.file_system) (number : Z)
    (timestep0 : list (list float)) :
  (files (Files.trace_path number) = None ->
   Files.load_trace stof files number timestep0 = Exit EXIT_FAILURE) /\
  (forall text,
     files (Files.trace_path number) = Some text ->
     (exists result, Files.load_trace stof files number timestep0 = Done result) /\
     (forall rows,
        Files.load_trace stof files number timestep0 = Done (Returns rows) <->
        exists new,
          rows = timestep0 ++ new /\
          Forall2 (fun line row =>
                     Forall2 (fun word value => stof word = Returns value)
                             (Files.all_lines "," line) row)
                  (Files.all_lines Files.newline text) new) /\
     (forall rows new t,
        Files.load_trace stof files number timestep0 = Done (Returns rows) ->
        rows = timestep0 ++ new ->
        length new = length (Files.all_lines Files.newline text) /\
        (Files.all_lines Files.newline text !! t = Some [] -> new !! t = Some []))).
Proof.
  split; [unfold Files.load_trace; by intros ->|].
  intros text Hfile. split; [unfold Files.load_trace; rewrite Hfile; eauto|].
  split; [intros rows; by apply load_trace_Returns|].
  intros rows new t Hrun Hrows.
  apply (load_trace_Returns files number timestep0 text rows Hfile) in Hrun
    as (new' & Hrows' & Hall).
  assert (new' = new) as -> by (subst rows; by eapply app_inv_head).
  split; [symmetry; by eapply Forall2_length|].
  intros Hblank.
  destruct (Forall2_lookup_l _ _ _ _ _ Hall Hblank) as (row & Hrow & Hwords).
  rewrite all_lines_nil in Hwords. by apply Forall2_nil_inv_l in Hwords as ->.
Qed.

(** A trace row stands for a line of the file: [generate_bsm] is defined at
    a time step exactly when the trace file has a line of that index with
    at least three comma-separated fields and, after step 0, a line before
    it with at least two.  A time step past the last line, a blank line or
    a line with fewer fields is read out of bounds. *)
Theorem trace_lines_and_generate_bsm (files : Files.file_system) (number : Z)
    (text : list ascii) (v : Vehicle) (t : Z) :
  files (Files.trace_path number) = Some text ->
  Files.load_trace stof files number [] = Done (Returns (timestep v)) ->
  let fields (i : Z) : option nat :=
    (fun line => length (Files.all_lines "," line))
      <$> Files.all_lines Files.newline text !! Z.to_nat i in
  ((exists msg, generate_bsm v t = Done msg) <->
   0 <= t /\
   (exists n, fields t = Some n /\ (3 <= n)%nat) /\
   (t <> 0 -> exists n, fields (t - 1) = Some n /\ (2 <= n)%nat)) /\
  ((forall msg, generate_bsm v t <> Done msg) -> generate_bsm v t = Undefined).
Proof.
  intros Hfile Hload fields.
  apply (load_trace_Returns files number [] text _ Hfile) in Hload
    as (new & Hnew & Hall). simpl in Hnew. subst new.
  assert (Hfields : forall i,
            fields i = length <$> timestep v !! Z.to_nat i).
  { intros i. unfold fields.
    destruct (Files.all_lines Files.newline text !! Z.to_nat i) as [line|] eqn:Hline.
    - destruct (Forall2_lookup_l _ _ _ _ _ Hall Hline) as (row & -> & Hwords).
      simpl. f_equal. by eapply Forall2_length.
    - destruct (timestep v !! Z.to_nat i) as [row|] eqn:Hrow; [|done].
      destruct (Forall2_lookup_r _ _ _ _ _ Hall Hrow) as (line & Hline' & _).
      congruence. }
  split.
  - rewrite generate_bsm_Done_iff.
    rewrite !Hfields. split.
    + intros (Ht & row & Hrow & Hlen & Hprev). split; [done|]. split.
      * exists (length row). by rewrite Hrow.
      * intros Hnz. destruct (Hprev Hnz) as (prev & Hp & Hplen).
        exists (length prev). by rewrite Hp.
    + intros (Ht & (n & Hn & Hlen) & Hprev). split; [done|].
      destruct (timestep v !! Z.to_nat t) as [row|]; [|done].
      injection Hn as <-. exists row. split; [done|]. split; [done|].
      intros Hnz. destruct (Hprev Hnz) as (n' & Hn' & Hlen').
      destruct (timestep v !! Z.to_nat (t - 1)) as [prev|]; [|done].
      injection Hn' as <-. by exists prev.
  - intros Hnot. destruct (generate_bsm v t) as [msg|status|] eqn:Hrun; [|exfalso|done].
    + by destruct (Hnot msg).
    + by apply generate_bsm_not_Exit in Hrun.
Qed.

Lemma load_key_Done vehicle certificate key :
  load_key vehicle certificate = Done key <-> key_file vehicle certificate = Some key.
Proof.
  unfold load_key. destruct (key_file vehicle certificate); split; congruence.
Qed.

Lemma load_falcon_private_key_Done secret_key_length files number key :
  Files.load_falcon_private_key secret_key_length files number = Done key ->
  zlength key = secret_key_length.
Proof.
  unfold Files.load_falcon_private_key.
  destruct (files _) as [text|]; [|done].
  destruct (hex_to_bytes text) as [bytes|]; [|done].
  case_bool_decide as Hlen; [done|]. intros [= ->].
  destruct (decide (zlength key = secret_key_length)) as [|Hne]; [done|].
  by destruct Hlen.
Qed.

(** What a [Vehicle] is after its constructor returned: the id is the
    constructor argument as a [uint8_t], the keys and the trace are those
    of the files of that argument, and the Falcon private key is loaded in
    Falcon mode, with the length liboqs gives, and empty in ECDSA mode.
    Hence a sender constructed in Falcon mode never takes the exit of the
    Falcon signer for a key that is not loaded: it does not call [exit]
    while preparing fragments. *)
Theorem Vehicle_ctor_result (files : Files.file_system) (n : Z)
    (pqc_opts : pqc_options) (certificate : ecdsa_explicit_certificate)
    (scratch : list byte) (scratch_length : Z) (v : Vehicle) :
  Vehicle_ctor files n pqc_opts certificate scratch scratch_length = Done (Returns v) ->
  number v = to_uint8 n /\
  pqc v = pqc_opts /\
  key_file n false = Some (private_ec_key v) /\
  key_file n true = Some (cert_private_ec_key v) /\
  Files.load_trace stof files n [] = Done (Returns (timestep v)) /\
  match scheme pqc_opts with
  | FALCON =>
      Files.load_falcon_private_key OQS_SIG_falcon_512_length_secret_key files n
      = Done (falcon_private_key v) /\
      zlength (falcon_private_key v) = OQS_SIG_falcon_512_length_secret_key /\
      (0 < OQS_SIG_falcon_512_length_secret_key ->
       forall s seq_number ts now status,
         same_vehicle v (this s) ->
         prepare_signed_fragments seq_number ts now s <> Exit status)
  | ECDSA => falcon_private_key v = []
  end.
Proof.
  unfold Vehicle_ctor.
  destruct (load_key n false) as [signing_key| |] eqn:Hkey; [|done..].
  destruct (load_key n true) as [cert_key| |] eqn:Hcert; [|done..].
  apply load_key_Done in Hkey. apply load_key_Done in Hcert. simpl.
  destruct (Files.load_trace stof files n []) as [[rows|what]| |] eqn:Htrace; [|done..].
  simpl. destruct (scheme pqc_opts) eqn:Hscheme; simpl.
  - intros [= <-]. simpl. done.
  - destruct (Files.load_falcon_private_key _ files n) as [key| |] eqn:Hfalcon; [|done..].
    simpl. intros [= <-]. simpl. repeat split; try done.
    + by apply load_falcon_private_key_Done in Hfalcon.
    + intros Hpos s seq_number ts now status (_ & Hpqc & _ & _ & _ & Hfk & _) Hexit.
      apply prepare_signed_fragments_Exit_inv in Hexit as [_ [[He _]|[_ Hempty]]].
      * rewrite Hpqc in He. simpl in He. congruence.
      * rewrite Hfk in Hempty. simpl in Hempty. subst key.
        apply load_falcon_private_key_Done in Hfalcon.
        unfold zlength in Hfalcon. simpl in Hfalcon. lia.
Qed.

(** ** The receive loop as a whole *)

Lemma receive_datagram_counts st d t st' r :
  receive_datagram st d t = Done (st', r) ->
  completed_messages st'
  = completed_messages st + (if completed r is Some _ then 1 else 0) /\
  first_fragment_seen st' = true /\
  run_first_fragment_time st'
  = (if first_fragment_seen st then run_first_fragment_time st else t) /\
  last_completion_time st'
  = (if completed r is Some _ then t else last_completion_time st).
Proof.
  unfold receive_datagram.
  destruct (reassemble _ _ _) as [entry| |]; simpl; [|done..].
  destruct (complete entry).
  - destruct (verify_message _ _ _ _); simpl; [|done..].
    by intros [= <- <-].
  - intros [= <- <-]. simpl. split; [lia|done].
Qed.

Lemma completions_cons r rs :
  completions (r :: rs) = (if completed r is Some _ then 1 else 0) + completions rs.
Proof.
  unfold completions, zlength. destruct (completed r) as [c|] eqn:Hc.
  - rewrite filter_cons_True by (by rewrite Hc). simpl. lia.
  - rewrite filter_cons_False; [lia|]. rewrite Hc. by intros [? ?].
Qed.

Lemma receive_loop_step num_msgs st d t ds st' rs :
  receive_loop num_msgs st ((d, t) :: ds) = Done (st', rs) ->
  (~ completed_messages st < num_msgs /\ st' = st /\ rs = []) \/
  (completed_messages st < num_msgs /\
   exists st1 r rs',
     receive_datagram st d t = Done (st1, r) /\
     receive_loop num_msgs st1 ds = Done (st', rs') /\
     rs = r :: rs').
Proof.
  simpl. case_bool_decide as Hlt; [|intros [= <- <-]; by left].
  destruct (receive_datagram st d t) as [[st1 r]| |]; [|done..].
  destruct (receive_loop num_msgs st1 ds) as [[st2 rs']| |] eqn:Hrest; [|done..].
  intros [= <- <-]. right. split; [done|]. by exists st1, r, rs'.
Qed.

Lemma receive_loop_stopped num_msgs st ds :
  ~ completed_messages st < num_msgs -> receive_loop num_msgs st ds = Done (st, []).
Proof. intros Hstop. destruct ds; simpl; by rewrite bool_decide_eq_false_2. Qed.

(** The loop counts every completed SPDU once, whatever the verdict of
    [verify_message] on it, and runs until the count reaches [num_msgs]:
    it never passes that number, it stops reading datagrams as soon as the
    number is reached, and short of it every datagram is read. *)
Theorem receive_loop_counts (num_msgs : Z) (ds : list (spdu_fragment * time_point)) :
  forall (st st' : receiver_state) (rs : list report),
  receive_loop num_msgs st ds = Done (st', rs) ->
  completed_messages st' = completed_messages st + completions rs /\
  (length rs <= length ds)%nat /\
  (completed_messages st <= num_msgs -> completed_messages st' <= num_msgs) /\
  ((length rs < length ds)%nat -> num_msgs <= completed_messages st') /\
  (completed_messages st' < num_msgs -> length rs = length ds).
Proof.
  induction ds as [|[d t] ds IH]; intros st st' rs Hrun.
  - rewrite receive_loop_nil in Hrun. injection Hrun as <- <-.
    unfold completions, zlength. simpl. repeat split; try lia; done.
  - apply receive_loop_step in Hrun
      as [(Hstop & -> & ->)|(Hlt & st1 & r & rs' & Hstep & Hrest & ->)].
    + unfold completions, zlength. simpl. repeat split; lia.
    + apply receive_datagram_counts in Hstep as (Hcount & _).
      destruct (IH st1 st' rs' Hrest) as (Htotal & Hlen & Hmax & Hearly & Hall).
      rewrite completions_cons. simpl.
      assert (completed_messages st1 <= num_msgs) by (destruct (completed r); lia).
      repeat split; try lia.
Qed.

(** Datagrams of other SPDUs, however many, leave the entry of an SPDU
    under reassembly as it is: nothing but the completion of the SPDU
    itself removes its entry from the table, and two different
    (vehicle id, sequence number) pairs never share one. *)
Theorem receive_loop_other_spdus (num_msgs : Z) (vehicle sequence : Z)
    (ds : list (spdu_fragment * time_point)) :
  forall (st st' : receiver_state) (rs : list report),
  receive_loop num_msgs st ds = Done (st', rs) ->
  0 <= vehicle < 2 ^ 8 -> 0 <= sequence < 2 ^ 32 ->
  Forall (fun dt =>
            0 <= vehicle_id dt.1 < 2 ^ 8 /\ 0 <= sequence_number dt.1 < 2 ^ 32 /\
            (vehicle_id dt.1 <> vehicle \/ sequence_number dt.1 <> sequence)) ds ->
  pending_messages st' !! make_message_key vehicle sequence
  = pending_messages st !! make_message_key vehicle sequence.
Proof.
  induction ds as [|[d t] ds IH]; intros st st' rs Hrun Hv Hs Hother.
  - rewrite receive_loop_nil in Hrun. by injection Hrun as <- <-.
  - apply Forall_cons in Hother as [(Hdv & Hds & Hne) Hother]. simpl in *.
    apply receive_loop_step in Hrun
      as [(Hstop & -> & ->)|(Hlt & st1 & r & rs' & Hstep & Hrest & ->)]; [done|].
    rewrite (IH st1 st' rs' Hrest Hv Hs Hother).
    apply (receive_datagram_other_key st d t st1 r); [done|].
    unfold key_of. intros Hkey.
    apply make_message_key_inj in Hkey as [? ?]; lia.
Qed.

Lemma store_fragment_zero_count d t :
  well_formed d -> fragment_count d = 0 ->
  store_fragment d (initialise_entry d t) = Done (initialise_entry d t).
Proof.
  intros (_ & _ & _ & Hidx & _) Hzero. unfold store_fragment. simpl.
  rewrite Hzero. simpl. by rewrite bool_decide_eq_false_2 by (unfold zlength; simpl; lia).
Qed.

(** A datagram that declares [fragment_count = 0], arriving for a key
    without entry, completes an SPDU at once: the bitmap is empty, nothing
    of its payload is read or copied, and [verify_message] gets a buffer of
    [signature_buffer_length] zero bytes; the SPDU counts towards
    [num_msgs] like any other. *)
Theorem zero_fragment_count_completes (st : receiver_state) (d : spdu_fragment)
    (t : time_point) (signing_key cert_key : EC_KEY) (public_key : list byte) :
  well_formed d ->
  fragment_count d = 0 ->
  pending_messages st !! key_of d = None ->
  key_file (vehicle_id d) false = Some signing_key ->
  key_file (vehicle_id d) true = Some cert_key ->
  (spdu_signature_scheme d <> scheme_code ECDSA ->
   falcon_public_key_file (vehicle_id d) = Some public_key) ->
  INT64_MIN <= t - timestamp (headerInfo (tbsData (signedData (data d)))) <= INT64_MAX ->
  exists st' c,
    receive_datagram st d t
    = Done (st', {| initialised := true; completed := Some c |}) /\
    store_fragment_reads d (initialise_entry d t) = [] /\
    completed_signature c = zeros (signature_buffer_length d) /\
    data (completed_spdu c) = data d /\
    verify_message (completed_spdu c) (zeros (signature_buffer_length d)) t
                   (vehicle_id d)
    = Done (completed_valid c) /\
    completed_messages st' = completed_messages st + 1 /\
    pending_messages st' !! key_of d = None.
Proof.
  intros Hwf Hzero Hfresh Hkey Hcert Hpk Hrange.
  pose proof Hwf as (_ & _ & _ & Hidx & _).
  unfold receive_datagram, reassemble. fold (key_of d).
  unfold lookup_or_create. rewrite Hfresh. simpl.
  rewrite (store_fragment_zero_count d t Hwf Hzero).
  unfold mbind, outcome_mbind, mret, outcome_ret. cbn [outcome_bind].
  assert (Hcomplete : complete (update_template d (initialise_entry d t)) = true).
  { unfold complete. simpl. by rewrite Hzero. }
  rewrite Hcomplete.
  set (template := template_fragment (update_template d (initialise_entry d t))).
  assert (Hsig : exists sig_ok,
            payload_signature_check template
              (signature_buffer (update_template d (initialise_entry d t)))
              (vehicle_id d) signing_key = Done sig_ok).
  { destruct (decide (spdu_signature_scheme d = scheme_code ECDSA)) as [He|Hne].
    - rewrite payload_signature_check_ecdsa by done. by eexists.
    - by apply (payload_signature_check_Done _ _ _ _ public_key), Hpk. }
  destruct Hsig as [sig_ok Hsig].
  rewrite (verify_message_eq template _ t (vehicle_id d) signing_key cert_key
             Hkey Hcert Hrange sig_ok Hsig).
  cbn [outcome_bind]. eexists _, _. split; [reflexivity|]. simpl.
  split.
  { unfold store_fragment_reads. simpl. rewrite Hzero. simpl.
    by rewrite bool_decide_eq_false_2 by (unfold zlength; simpl; lia). }
  split; [done|]. split; [done|].
  split.
  { exact (verify_message_eq template _ t (vehicle_id d) signing_key cert_key
             Hkey Hcert Hrange sig_ok Hsig). }
  split; [done|]. by rewrite lookup_delete_eq.
Qed.

(** ** The metrics after the loop *)

Lemma receive_loop_times num_msgs (ds : list (spdu_fragment * time_point)) :
  forall st st' rs,
  receive_loop num_msgs st ds = Done (st', rs) ->
  rs <> [] ->
  first_fragment_seen st' = true /\
  (exists d0 t0,
     ds !! 0%nat = Some (d0, t0) /\
     run_first_fragment_time st'
     = (if first_fragment_seen st then run_first_fragment_time st else t0)) /\
  (num_msgs <= completed_messages st' ->
   exists dl tl rl,
     ds !! (length rs - 1)%nat = Some (dl, tl) /\
     rs !! (length rs - 1)%nat = Some rl /\
     is_Some (completed rl) /\
     last_completion_time st' = tl).
Proof.
  induction ds as [|[d t] ds IH]; intros st st' rs Hrun Hne.
  - rewrite receive_loop_nil in Hrun. by injection Hrun as <- <-.
  - apply receive_loop_step in Hrun
      as [(Hstop & -> & ->)|(Hlt & st1 & r & rs' & Hstep & Hrest & ->)]; [done|].
    apply receive_datagram_counts in Hstep as (Hcount & Hseen & Hfirst & Hlast).
    destruct rs' as [|r' rs'].
    + assert (st' = st1) as ->.
      { destruct ds as [|[d' t'] ds]; [rewrite receive_loop_nil in Hrest; congruence|].
        apply receive_loop_step in Hrest as [(_ & -> & _)|(_ & ? & ? & ? & _ & _ & ?)];
          [done|done]. }
      split; [done|]. split; [by exists d, t|].
      intros Hdone. exists d, t, r. split; [done|]. split; [done|].
      rewrite Hlast. destruct (completed r); [by eauto|lia].
    + destruct (IH st1 st' (r' :: rs') Hrest ltac:(done)) as (Hseen' & Hfirst' & Hlast').
      split; [done|]. split.
      * exists d, t. split; [done|].
        destruct Hfirst' as (d0 & t0 & _ & ->). by rewrite Hseen.
      * intros Hdone. destruct (Hlast' Hdone) as (dl & tl & rl & Hl & Hr & Hc & Htl).
        exists dl, tl, rl. simpl in *. rewrite Nat.sub_0_r in Hl, Hr. done.
Qed.

(** The METRIC line.  A receiver asked for no message writes none.  A
    receiver that got its [num_msgs] SPDUs reports the receive time of the
    first datagram, that of the datagram which completed the last SPDU
    (the last one it read), and their difference; with a clock that does
    not run backwards the difference is not negative. *)
Theorem receive_metric_span (num_msgs : Z) (ds : list (spdu_fragment * time_point))
    (st' : receiver_state) (rs : list report) :
  receive_loop num_msgs receiver_initial ds = Done (st', rs) ->
  Forall (fun dt => 0 <= dt.2 <= INT64_MAX) ds ->
  (forall i j di ti dj tj,
     (i <= j)%nat -> ds !! i = Some (di, ti) -> ds !! j = Some (dj, tj) -> ti <= tj) ->
  (num_msgs <= 0 -> rs = [] /\ receive_metric st' = Done None) /\
  (0 < num_msgs -> num_msgs <= completed_messages st' ->
   exists d0 t0 dl tl rl,
     ds !! 0%nat = Some (d0, t0) /\
     ds !! (length rs - 1)%nat = Some (dl, tl) /\
     rs !! (length rs - 1)%nat = Some rl /\
     is_Some (completed rl) /\
     0 <= tl - t0 /\
     receive_metric st'
     = Done (Some {| total_us := tl - t0; first_us := t0; last_us := tl |})).
Proof.
  intros Hrun Hrange Hclock. split.
  - intros Hnone. rewrite receive_loop_stopped in Hrun by (simpl; lia).
    by injection Hrun as <- <-.
  - intros Hpos Hdone.
    assert (Hne : rs <> []).
    { intros ->. destruct ds as [|[d t] ds].
      - rewrite receive_loop_nil in Hrun. injection Hrun as <-. simpl in *. lia.
      - apply receive_loop_step in Hrun as [(Hstop & _)|(_ & ? & ? & ? & _ & _ & ?)];
          [simpl in *; lia|done]. }
    destruct (receive_loop_times num_msgs ds _ _ _ Hrun Hne)
      as (Hseen & (d0 & t0 & Hd0 & Hfirst) & Hlast).
    destruct (Hlast Hdone) as (dl & tl & rl & Hdl & Hrl & Hcl & Htl). simpl in Hfirst.
    exists d0, t0, dl, tl, rl. split; [done|]. split; [done|].
    split; [done|]. split; [done|].
    assert (Hle : t0 <= tl).
    { apply (Hclock 0%nat (length rs - 1)%nat d0 t0 dl tl); [lia|done..]. }
    rewrite Forall_forall in Hrange.
    assert (Htl_range : 0 <= tl <= INT64_MAX).
    { apply (Hrange (dl, tl)). by eapply list_elem_of_lookup_2. }
    assert (Ht0_range : 0 <= t0 <= INT64_MAX).
    { apply (Hrange (d0, t0)). by eapply list_elem_of_lookup_2. }
    split; [lia|].
    unfold receive_metric. rewrite Hseen, Hfirst, Htl. unfold int64_sub.
    rewrite bool_decide_eq_true_2; [done|].
    unfold INT64_MIN, INT64_MAX in *. lia.
Qed.

(** ** Reassembly in any order of arrival *)

Lemma length_masked_signature sig fs bitmap :
  length (masked_signature sig fs bitmap) = length sig.
Proof. unfold masked_signature. apply length_imap. Qed.

Lemma masked_signature_none sig fs bitmap :
  Forall (fun b => b = false) bitmap ->
  masked_signature sig fs bitmap = zeros (zlength sig).
Proof.
  intros Hnone. apply list_eq. intros p.
  unfold masked_signature, zeros, zlength. rewrite list_lookup_imap, Nat2Z.id.
  destruct (sig !! p) as [b|] eqn:Hp; simpl.
  - rewrite lookup_replicate_2 by (by eapply lookup_lt_Some).
    destruct (bitmap !! _) as [x|] eqn:Hx; simpl; [|done].
    rewrite Forall_lookup in Hnone. by rewrite (Hnone _ _ Hx).
  - symmetry. apply lookup_replicate_None. by apply lookup_ge_None.
Qed.

Lemma masked_signature_all sig fs bitmap :
  1 <= fs ->
  (length sig <= length bitmap * Z.to_nat fs)%nat ->
  Forall (fun b => b = true) bitmap ->
  masked_signature sig fs bitmap = sig.
Proof.
  intros Hfs Hcover Hall. apply list_eq. intros p.
  unfold masked_signature. rewrite list_lookup_imap.
  destruct (sig !! p) as [b|] eqn:Hp; simpl; [|done].
  apply lookup_lt_Some in Hp as Hlt.
  assert (Hdiv : (p / Z.to_nat fs < length bitmap)%nat).
  { apply Nat.Div0.div_lt_upper_bound; lia. }
  destruct (lookup_lt_is_Some_2 bitmap _ Hdiv) as [x Hx]. rewrite Hx. simpl.
  rewrite Forall_lookup in Hall. by rewrite (Hall _ _ Hx).
Qed.

Lemma div_in_slice (p f i : nat) :
  (0 < f)%nat -> (i * f <= p < i * f + f)%nat -> (p / f)%nat = i.
Proof.
  intros Hf Hp. symmetry. apply (Nat.div_unique p f i (p - i * f)); lia.
Qed.

Lemma div_out_of_slice (p f i : nat) :
  (0 < f)%nat -> (p / f)%nat = i -> (i * f <= p < i * f + f)%nat.
Proof.
  intros Hf <-. pose proof (Nat.div_mod_eq p f).
  pose proof (Nat.mod_upper_bound p f ltac:(lia)). lia.
Qed.

(** Writing the slice of fragment [i] over the buffer marks [i]. *)
Lemma masked_signature_insert sig fs bitmap (i : nat) :
  1 <= fs ->
  (i < length bitmap)%nat ->
  (i * Z.to_nat fs < length sig)%nat ->
  let off := (i * Z.to_nat fs)%nat in
  let len := Nat.min (Z.to_nat fs) (length sig - off) in
  list_inserts off (take len (drop off sig)) (masked_signature sig fs bitmap)
  = masked_signature sig fs (<[i := true]> bitmap).
Proof.
  intros Hfs Hi Hoff off len.
  set (f := Z.to_nat fs) in *. assert (Hf : (0 < f)%nat) by lia.
  assert (Hk : length (take len (drop off sig)) = len).
  { rewrite length_take, length_drop. lia. }
  apply list_eq. intros p.
  unfold masked_signature at 2. rewrite list_lookup_imap. fold f.
  destruct (sig !! p) as [b|] eqn:Hp; simpl.
  - apply lookup_lt_Some in Hp as Hlt.
    destruct (decide (off <= p < off + len)%nat) as [Hin|Hout].
    + rewrite list_lookup_inserts
        by (rewrite ?Hk, ?length_masked_signature; lia).
      rewrite lookup_take, lookup_drop.
      rewrite decide_True by lia.
      replace (off + (p - off))%nat with p by lia. rewrite Hp.
      rewrite (div_in_slice p f i) by lia.
      by rewrite list_lookup_insert_eq.
    + assert (Hne : (p / f)%nat <> i).
      { intros Hdiv. apply div_out_of_slice in Hdiv; lia. }
      rewrite list_lookup_insert_ne by done.
      destruct (decide (p < off)%nat).
      * rewrite list_lookup_inserts_lt by done.
        unfold masked_signature. rewrite list_lookup_imap, Hp. done.
      * rewrite list_lookup_inserts_ge by (rewrite Hk; lia).
        unfold masked_signature. rewrite list_lookup_imap, Hp. done.
  - apply lookup_ge_None. rewrite length_inserts, length_masked_signature.
    by apply lookup_ge_None.
Qed.

Lemma forallb_true_Forall (l : list bool) :
  forallb (fun b => b) l = true <-> Forall (fun b => b = true) l.
Proof.
  induction l as [|[|] l IH]; simpl.
  - split; [constructor|done].
  - rewrite IH. split; [by constructor|]. by intros [_ ?]%Forall_cons.
  - split; [done|]. by intros [? _]%Forall_cons.
Qed.

(** The copy step on the honest fragment [i], which has not arrived yet. *)
Lemma store_any_fragment spdu sig fs i entry :
  1 <= fs <= MAX_SIGNATURE_FRAGMENT_SIZE ->
  zlength sig <= MAX_SIGNATURE_TOTAL_SIZE ->
  0 <= i < (zlength sig + fs - 1) / fs ->
  zlength (fragments_received entry) = (zlength sig + fs - 1) / fs ->
  fragments_received entry !! Z.to_nat i = Some false ->
  signature_buffer entry = masked_signature sig fs (fragments_received entry) ->
  store_fragment (spec_falcon_fragment spdu sig fs i) entry
  = Done {| template_fragment := template_fragment entry;
            signature_buffer :=
              masked_signature sig fs (<[Z.to_nat i := true]> (fragments_received entry));
            fragments_received := <[Z.to_nat i := true]> (fragments_received entry);
            first_fragment_time := first_fragment_time entry |}.
Proof.
  intros Hfs HL Hi Hcount Hbit Hbuf.
  pose proof (zlength_spec_payload spdu sig fs i Hfs Hi) as Hpayload.
  pose proof (zlength_nonneg sig) as HL0.
  unfold MAX_SIGNATURE_FRAGMENT_SIZE, MAX_SIGNATURE_TOTAL_SIZE in *.
  destruct (ceil_div_bounds (zlength sig) fs HL0 ltac:(lia)) as [Hc0 Hc].
  set (count := (zlength sig + fs - 1) / fs) in *.
  assert (Hoff : 0 <= i * fs < zlength sig) by nia.
  unfold store_fragment, copy_n.
  rewrite Hpayload, Hcount.
  assert (Hbuflen : zlength (signature_buffer entry) = zlength sig).
  { unfold zlength. by rewrite Hbuf, length_masked_signature. }
  rewrite Hbuflen.
  cbn [fragment_index signature_offset fragment_length signature_fragment
       spec_falcon_fragment set_fragmentation].
  rewrite bool_decide_eq_true_2 by lia.
  rewrite Hbit.
  rewrite to_size_t_small by lia.
  rewrite bool_decide_eq_true_2 by lia.
  rewrite bool_decide_eq_true_2 by lia.
  rewrite bool_decide_eq_true_2 by lia.
  simpl. unfold mret, outcome_ret. do 2 f_equal.
  set (len := Z.min fs (zlength sig - i * fs)).
  rewrite take_app_le by (rewrite length_take, length_drop; unfold zlength in *; lia).
  rewrite take_idemp. rewrite Hbuf.
  pose proof (masked_signature_insert sig fs (fragments_received entry) (Z.to_nat i))
    as Hins. cbv zeta in Hins.
  replace (Z.to_nat (i * fs)) with (Z.to_nat i * Z.to_nat fs)%nat by nia.
  replace (Z.to_nat len)
    with (Nat.min (Z.to_nat fs) (length sig - Z.to_nat i * Z.to_nat fs)).
  2: { unfold len, zlength in *. nia. }
  apply Hins; [lia| |unfold zlength in *; nia].
  unfold zlength in Hcount. lia.
Qed.

(** What [update_template] leaves in the template. *)
Lemma update_template_fields incoming entry :
  let template := template_fragment (update_template incoming entry) in
  data template = data incoming /\
  spdu_signature_scheme template = spdu_signature_scheme incoming /\
  signature_buffer_length template = signature_buffer_length incoming /\
  certificate_signature_buffer_length template
  = certificate_signature_buffer_length incoming /\
  fragment_count template = fragment_count incoming /\
  signature_buffer (update_template incoming entry) = signature_buffer entry /\
  fragments_received (update_template incoming entry) = fragments_received entry.
Proof. done. Qed.

Lemma reassemble_any spdu sig fs i bitmap pending t :
  1 <= fs <= MAX_SIGNATURE_FRAGMENT_SIZE ->
  zlength sig <= MAX_SIGNATURE_TOTAL_SIZE ->
  0 <= i < (zlength sig + fs - 1) / fs ->
  zlength bitmap = (zlength sig + fs - 1) / fs ->
  bitmap !! Z.to_nat i = Some false ->
  assembling sig fs bitmap pending
             (make_message_key (vehicle_id spdu) (sequence_number spdu)) ->
  exists stored,
    reassemble pending (spec_falcon_fragment spdu sig fs i) t
    = Done (update_template (spec_falcon_fragment spdu sig fs i) stored) /\
    signature_buffer stored = masked_signature sig fs (<[Z.to_nat i := true]> bitmap) /\
    fragments_received stored = <[Z.to_nat i := true]> bitmap.
Proof.
  intros Hfs HL Hi Hcount Hbit Hasm.
  pose proof (zlength_nonneg sig) as HL0.
  destruct (ceil_div_bounds (zlength sig) fs HL0 ltac:(lia)) as [Hc0 Hc].
  unfold reassemble.
  change (vehicle_id (spec_falcon_fragment spdu sig fs i)) with (vehicle_id spdu).
  change (sequence_number (spec_falcon_fragment spdu sig fs i))
    with (sequence_number spdu).
  set (key := make_message_key (vehicle_id spdu) (sequence_number spdu)) in *.
  destruct Hasm as [[Hnone Hinit]|(entry & Hlook & Hbuf & Hbits)].
  - rewrite Hinit.
    assert (Hbitmap : bitmap = replicate (Z.to_nat ((zlength sig + fs - 1) / fs)) false).
    { apply list_eq. intros j. rewrite Forall_lookup in Hnone.
      destruct (bitmap !! j) as [x|] eqn:Hx.
      - rewrite (Hnone _ _ Hx). symmetry. apply lookup_replicate_2.
        apply lookup_lt_Some in Hx. rewrite <- Hcount. unfold zlength. lia.
      - symmetry. apply lookup_replicate_None. apply lookup_ge_None in Hx.
        rewrite <- Hcount. unfold zlength. lia. }
    erewrite store_any_fragment; try done.
    + simpl. eexists. split; [reflexivity|]. simpl. by rewrite <- Hbitmap.
    + simpl. unfold zlength in *. rewrite length_replicate. lia.
    + simpl. by rewrite <- Hbitmap.
    + simpl. rewrite <- Hbitmap. symmetry. by apply masked_signature_none.
  - assert (Hinit : needs_initialisation (lookup_or_create pending key) = false).
    { unfold needs_initialisation, lookup_or_create. rewrite Hlook. simpl.
      apply bool_decide_eq_false_2. intros Hnil.
      pose proof (length_masked_signature sig fs bitmap) as Hlen.
      rewrite <- Hbuf, Hnil in Hlen. unfold zlength in *. simpl in Hlen. nia. }
    rewrite Hinit. unfold lookup_or_create. rewrite Hlook. simpl.
    erewrite store_any_fragment; try done; try (by rewrite Hbits).
    simpl. eexists. split; [reflexivity|]. simpl. by rewrite Hbits.
Qed.

Lemma receive_any_pending spdu sig fs i bitmap st t :
  1 <= fs <= MAX_SIGNATURE_FRAGMENT_SIZE ->
  zlength sig <= MAX_SIGNATURE_TOTAL_SIZE ->
  0 <= i < (zlength sig + fs - 1) / fs ->
  zlength bitmap = (zlength sig + fs - 1) / fs ->
  bitmap !! Z.to_nat i = Some false ->
  assembling sig fs bitmap (pending_messages st)
             (make_message_key (vehicle_id spdu) (sequence_number spdu)) ->
  forallb (fun b => b) (<[Z.to_nat i := true]> bitmap) = false ->
  exists st1 b,
    receive_datagram st (spec_falcon_fragment spdu sig fs i) t
    = Done (st1, {| initialised := b; completed := None |}) /\
    assembling sig fs (<[Z.to_nat i := true]> bitmap) (pending_messages st1)
               (make_message_key (vehicle_id spdu) (sequence_number spdu)) /\
    completed_messages st1 = completed_messages st.
Proof.
  intros Hfs HL Hi Hcount Hbit Hasm Hmore.
  destruct (reassemble_any spdu sig fs i bitmap (pending_messages st) t)
    as (stored & Hre & Hbuf & Hbits); try done.
  unfold receive_datagram.
  change (vehicle_id (spec_falcon_fragment spdu sig fs i)) with (vehicle_id spdu).
  change (sequence_number (spec_falcon_fragment spdu sig fs i))
    with (sequence_number spdu).
  rewrite Hre. unfold mbind, outcome_mbind. cbn [outcome_bind].
  unfold complete.
  change (fragments_received (update_template _ stored))
    with (fragments_received stored).
  rewrite Hbits, Hmore. unfold mret, outcome_ret.
  eexists _, _. split; [reflexivity|]. simpl. split; [|done].
  right. eexists. rewrite lookup_insert_eq. split; [reflexivity|]. done.
Qed.

Lemma receive_any_last spdu sig fs i bitmap st t signing_key cert_key public_key :
  1 <= fs <= MAX_SIGNATURE_FRAGMENT_SIZE ->
  zlength sig <= MAX_SIGNATURE_TOTAL_SIZE ->
  0 <= i < (zlength sig + fs - 1) / fs ->
  zlength bitmap = (zlength sig + fs - 1) / fs ->
  bitmap !! Z.to_nat i = Some false ->
  assembling sig fs bitmap (pending_messages st)
             (make_message_key (vehicle_id spdu) (sequence_number spdu)) ->
  forallb (fun b => b) (<[Z.to_nat i := true]> bitmap) = true ->
  key_file (vehicle_id spdu) false = Some signing_key ->
  key_file (vehicle_id spdu) true = Some cert_key ->
  falcon_public_key_file (vehicle_id spdu) = Some public_key ->
  INT64_MIN <= t - timestamp (headerInfo (tbsData (signedData (data spdu))))
            <= INT64_MAX ->
  exists st1 b c,
    receive_datagram st (spec_falcon_fragment spdu sig fs i) t
    = Done (st1, {| initialised := b; completed := Some c |}) /\
    completed_signature c = sig /\
    data (completed_spdu c) = data spdu /\
    completed_valid c = falcon_verdict spdu sig cert_key public_key t /\
    pending_messages st1 !! make_message_key (vehicle_id spdu) (sequence_number spdu)
    = None /\
    completed_messages st1 = completed_messages st + 1.
Proof.
  intros Hfs HL Hi Hcount Hbit Hasm Hall Hkey Hcert Hpk Hrange.
  pose proof (zlength_nonneg sig) as HL0.
  destruct (ceil_div_bounds (zlength sig) fs HL0 ltac:(lia)) as [Hc0 Hc].
  destruct (reassemble_any spdu sig fs i bitmap (pending_messages st) t)
    as (stored & Hre & Hbuf & Hbits); try done.
  assert (Hsig : signature_buffer stored = sig).
  { rewrite Hbuf. apply masked_signature_all; [lia| |by apply forallb_true_Forall].
    rewrite length_insert. unfold zlength in *. nia. }
  unfold receive_datagram.
  change (vehicle_id (spec_falcon_fragment spdu sig fs i)) with (vehicle_id spdu).
  change (sequence_number (spec_falcon_fragment spdu sig fs i))
    with (sequence_number spdu).
  rewrite Hre. unfold mbind, outcome_mbind. cbn [outcome_bind].
  unfold complete.
  change (fragments_received (update_template _ stored))
    with (fragments_received stored).
  rewrite Hbits, Hall.
  set (incoming := spec_falcon_fragment spdu sig fs i).
  set (template := template_fragment (update_template incoming stored)).
  assert (Hcheck : payload_signature_check template
                     (signature_buffer (update_template incoming stored))
                     (vehicle_id spdu) signing_key
                   = Done (falcon_verify
                             (tbsData_image (tbsData (signedData (data spdu))))
                             sig public_key)).
  { rewrite (payload_signature_check_falcon _ _ _ _ public_key); [|done|done].
    change (signature_buffer (update_template incoming stored))
      with (signature_buffer stored). by rewrite Hsig. }
  rewrite (verify_message_eq template _ t (vehicle_id spdu) signing_key cert_key
             Hkey Hcert Hrange _ Hcheck).
  cbn [outcome_bind]. unfold mret, outcome_ret.
  eexists _, _, _. split; [reflexivity|]. simpl.
  split; [done|]. split; [done|]. split; [done|].
  split; [by rewrite lookup_delete_eq|done].
Qed.

Lemma last_cons_cons {A} (x y : A) l : last (x :: y :: l) = last (y :: l).
Proof. done. Qed.

Lemma receive_loop_any_order spdu sig fs num_msgs signing_key cert_key public_key :
  1 <= fs <= MAX_SIGNATURE_FRAGMENT_SIZE ->
  zlength sig <= MAX_SIGNATURE_TOTAL_SIZE ->
  key_file (vehicle_id spdu) false = Some signing_key ->
  key_file (vehicle_id spdu) true = Some cert_key ->
  falcon_public_key_file (vehicle_id spdu) = Some public_key ->
  forall order bitmap st times,
  order <> [] -> NoDup order ->
  zlength bitmap = (zlength sig + fs - 1) / fs ->
  (forall i, i ∈ order ->
     0 <= i < (zlength sig + fs - 1) / fs /\ bitmap !! Z.to_nat i = Some false) ->
  (forall j, bitmap !! j = Some false -> Z.of_nat j ∈ order) ->
  length times = length order ->
  completed_messages st < num_msgs ->
  assembling sig fs bitmap (pending_messages st)
             (make_message_key (vehicle_id spdu) (sequence_number spdu)) ->
  Forall (fun t => INT64_MIN
                   <= t - timestamp (headerInfo (tbsData (signedData (data spdu))))
                   <= INT64_MAX) times ->
  exists st' rs b c t_last,
    receive_loop num_msgs st (zip (spec_falcon_fragment spdu sig fs <$> order) times)
    = Done (st', rs ++ [{| initialised := b; completed := Some c |}]) /\
    S (length rs) = length order /\
    Forall (fun r => completed r = None) rs /\
    last times = Some t_last /\
    completed_signature c = sig /\
    data (completed_spdu c) = data spdu /\
    completed_valid c = falcon_verdict spdu sig cert_key public_key t_last /\
    pending_messages st' !! make_message_key (vehicle_id spdu) (sequence_number spdu)
    = None /\
    completed_messages st' = completed_messages st + 1.
Proof.
  intros Hfs HL Hkey Hcert Hpk order.
  induction order as [|i rest IH]; intros bitmap st times Hne Hnodup Hcount Hin Hleft
    Hlen Hlt Hasm Htimes; [done|].
  destruct times as [|t times]; [done|].
  apply Forall_cons in Htimes as [Ht Htimes].
  apply NoDup_cons in Hnodup as [Hnotin Hnodup].
  destruct (Hin i ltac:(left)) as [Hi Hbit].
  rewrite fmap_cons.
  change (zip (?x :: ?l) (t :: times)) with ((x, t) :: zip l times).
  rewrite receive_loop_cons by done.
  assert (Hbit' : forall k, k ∈ rest ->
            0 <= k < (zlength sig + fs - 1) / fs /\
            <[Z.to_nat i := true]> bitmap !! Z.to_nat k = Some false).
  { intros k Hk. destruct (Hin k ltac:(by right)) as [Hkr Hkb]. split; [done|].
    rewrite list_lookup_insert_ne; [done|]. intros Heq.
    apply Hnotin. replace i with k by lia. done. }
  assert (Hleft' : forall j, <[Z.to_nat i := true]> bitmap !! j = Some false ->
            Z.of_nat j ∈ rest).
  { intros j Hj. destruct (decide (j = Z.to_nat i)) as [->|Hji].
    - rewrite list_lookup_insert_eq in Hj; [done|]. by eapply lookup_lt_Some.
    - rewrite list_lookup_insert_ne in Hj by done.
      apply Hleft in Hj. apply elem_of_cons in Hj as [Hj|Hj]; [lia|done]. }
  destruct rest as [|k rest].
  - (* the last fragment *)
    assert (Hall : forallb (fun b => b) (<[Z.to_nat i := true]> bitmap) = true).
    { apply forallb_true_Forall, Forall_lookup. intros j [|] Hj; [done|].
      apply Hleft' in Hj. by apply elem_of_nil in Hj. }
    destruct times; [|done].
    destruct (receive_any_last spdu sig fs i bitmap st t signing_key cert_key public_key)
      as (st1 & b & c & Hstep & Hsig & Hdata & Hvalid & Hgone & Hdone); try done.
    rewrite Hstep. simpl zip. rewrite receive_loop_nil.
    exists st1, [], b, c, t. done.
  - assert (Hmore : forallb (fun b => b) (<[Z.to_nat i := true]> bitmap) = false).
    { destruct (forallb _ _) eqn:Hall; [|done].
      apply forallb_true_Forall in Hall. rewrite Forall_lookup in Hall.
      destruct (Hbit' k ltac:(left)) as [_ Hk]. by apply Hall in Hk. }
    destruct (receive_any_pending spdu sig fs i bitmap st t)
      as (st1 & b & Hstep & Hasm1 & Hsame); try done.
    rewrite Hstep.
    destruct (IH (<[Z.to_nat i := true]> bitmap) st1 times)
      as (st' & rs & b' & c & t_last & Hrun & Hn & Hnone & Hlast & Hrest);
      try done.
    { unfold zlength in *. by rewrite length_insert. }
    { simpl in Hlen |- *. lia. }
    { lia. }
    rewrite Hrun.
    exists st', ({| initialised := b; completed := None |} :: rs), b', c, t_last.
    split; [done|]. split; [simpl in Hn |- *; lia|]. split; [by constructor|].
    split.
    { destruct times as [|t' times]; [done|]. by rewrite last_cons_cons. }
    rewrite <- Hsame. done.
Qed.

(** The order in which the fragments of a Falcon signature arrive does not
    matter.  Handed the fragments the signer returned in any order, each
    once, a receiver without entry for the SPDU reports nothing until the
    last of them, completes the SPDU on that one, and passes the original
    signature to [verify_message]; the verdict is that of the certificate
    and Falcon checks on the sender's data, with the age taken at the
    arrival of the last fragment. *)
Theorem falcon_fragments_any_order (spdu : spdu_fragment) (s : tx_state)
    (num_msgs : Z) (st : receiver_state)
    (signing_key cert_key : EC_KEY) (public_key : list byte) :
  falcon_private_key (this s) <> [] ->
  0 <= falcon_fragment_size (pqc (this s)) ->
  zlength (falcon_sign (length (calls s))
                       (tbsData_image (tbsData (signedData (data spdu))))
                       (falcon_private_key (this s)))
    <= MAX_SIGNATURE_TOTAL_SIZE ->
  key_file (vehicle_id spdu) false = Some signing_key ->
  key_file (vehicle_id spdu) true = Some cert_key ->
  falcon_public_key_file (vehicle_id spdu) = Some public_key ->
  pending_messages st !! make_message_key (vehicle_id spdu) (sequence_number spdu)
    = None ->
  completed_messages st < num_msgs ->
  let sig := falcon_sign (length (calls s))
                         (tbsData_image (tbsData (signedData (data spdu))))
                         (falcon_private_key (this s)) in
  exists (fragments : list spdu_fragment) (s' : tx_state),
    sign_message_falcon spdu s = Done (fragments, s') /\
    forall (arrivals : list spdu_fragment) (times : list time_point),
      arrivals ≡ₚ fragments ->
      fragments <> [] ->
      length times = length arrivals ->
      Forall (fun t => INT64_MIN
                       <= t - timestamp (headerInfo (tbsData (signedData (data spdu))))
                       <= INT64_MAX) times ->
      exists st' rs b c t_last,
        receive_loop num_msgs st (zip arrivals times)
        = Done (st', rs ++ [{| initialised := b; completed := Some c |}]) /\
        S (length rs) = length arrivals /\
        Forall (fun r => completed r = None) rs /\
        last times = Some t_last /\
        completed_signature c = sig /\
        data (completed_spdu c) = data spdu /\
        completed_valid c = falcon_verdict spdu sig cert_key public_key t_last /\
        completed_messages st' = completed_messages st + 1.
Proof.
  intros Hkey Hf HL Hskey Hckey Hpk Hfresh Hlt sig.
  pose proof (sign_message_falcon_spec spdu s Hkey Hf HL) as Hspec.
  cbv zeta in Hspec. fold sig in Hspec, HL.
  pose proof (clamp_fragment_size_range _ Hf) as Hfs.
  set (fs := clamp_fragment_size _ _) in *.
  pose proof (zlength_nonneg sig) as HL0.
  destruct (ceil_div_bounds (zlength sig) fs HL0 ltac:(lia)) as [Hc0 Hc].
  set (count := (zlength sig + fs - 1) / fs) in *.
  eexists _, _. split; [exact Hspec|].
  intros arrivals times Hperm Hne Hlen Htimes.
  change (spec_falcon_fragment spdu sig fs <$> seqZ 0 count)
    with (map (spec_falcon_fragment spdu sig fs) (seqZ 0 count)) in Hperm.
  apply Permutation_map_inv in Hperm as (order & -> & Horder).
  assert (Hnodup : NoDup order) by (rewrite <- Horder; apply NoDup_seqZ).
  assert (Hmem : forall i, i ∈ order <-> 0 <= i < count).
  { intros i. rewrite <- Horder, elem_of_seqZ. lia. }
  destruct (receive_loop_any_order spdu sig fs num_msgs signing_key cert_key
              public_key Hfs HL Hskey Hckey Hpk order
              (replicate (Z.to_nat count) false) st times)
    as (st' & rs & b & c & t_last & Hrun & Hn & Hnone & Hlast & Hsig & Hdata & Hvalid
        & _ & Hdone); try done.
  - intros ->. apply Permutation_nil_r in Horder.
    apply Hne. fold count. by rewrite Horder.
  - change ((zlength sig + fs - 1) / fs) with count.
    unfold zlength at 1. rewrite length_replicate. lia.
  - intros i Hi. apply Hmem in Hi. split; [done|].
    apply lookup_replicate_2. lia.
  - intros j Hj. apply lookup_replicate in Hj as [_ Hj]. apply Hmem. lia.
  - by rewrite length_map in Hlen.
  - left. split.
    + by apply Forall_replicate.
    + unfold needs_initialisation, lookup_or_create. by rewrite Hfresh.
  - exists st', rs, b, c, t_last. rewrite length_map. done.
Qed.

(** ** An honest SPDU from sender to verdict *)

(** A single-fragment SPDU arriving for a key without entry. *)
Lemma reassemble_single_fragment (f : spdu_fragment) (sig : list byte) pending t :
  fragment_index f = 0 -> fragment_count f = 1 -> signature_offset f = 0 ->
  fragment_length f = zlength sig -> signature_buffer_length f = zlength sig ->
  zlength sig <= MAX_SIGNATURE_FRAGMENT_SIZE ->
  signature_fragment f = sig ++ zeros (MAX_SIGNATURE_FRAGMENT_SIZE - zlength sig) ->
  pending !! key_of f = None ->
  exists stored,
    reassemble pending f t = Done (update_template f stored) /\
    signature_buffer stored = sig /\
    fragments_received stored = [true].
Proof.
  intros Hidx Hcount Hoff Hlen Hbuf HL Hpayload Hfresh.
  pose proof (zlength_nonneg sig) as HL0.
  unfold MAX_SIGNATURE_FRAGMENT_SIZE in *.
  unfold reassemble. fold (key_of f).
  unfold lookup_or_create. rewrite Hfresh. simpl.
  unfold store_fragment. simpl. rewrite Hidx, Hcount, Hoff, Hlen, Hbuf, Hpayload.
  change (Z.to_nat 1) with 1%nat. change (Z.to_nat 0) with 0%nat.
  cbn [replicate lookup list_lookup].
  rewrite bool_decide_eq_true_2 by done.
  rewrite to_size_t_small by lia.
  rewrite bool_decide_eq_true_2 by (rewrite zlength_zeros; lia).
  rewrite copy_n_prefix_zeros.
  2: { rewrite zlength_app, zlength_zeros; lia. }
  2: lia.
  simpl. eexists. split; [reflexivity|]. simpl. split; [|done].
  rewrite take_app_length' by (unfold zlength; lia).
  rewrite Z.sub_diag. apply app_nil_r.
Qed.

Lemma receive_loop_single num_msgs st f t st1 r :
  completed_messages st < num_msgs ->
  receive_datagram st f t = Done (st1, r) ->
  receive_loop num_msgs st [(f, t)] = Done (st1, [r]).
Proof.
  intros Hlt Hstep. rewrite receive_loop_cons by done.
  by rewrite Hstep, receive_loop_nil.
Qed.

(** An SPDU of an honest sender is accepted, in either mode.  The sender
    has a trace row for the time step, the 72-byte certificate signature
    array and a certificate key whose signature fits it.  In ECDSA mode
    [ECDSA_size] of its signing key is at most 512 and bounds the length
    of the signatures; its Falcon key may be empty, as the constructor
    leaves it.  In Falcon mode its Falcon key is loaded, the signatures
    are at most 1536 bytes, the receiver has the Falcon public key on file
    and Falcon verification accepts under it what the sender's key signed.
    The receiver's key files hold the sender's two EC keys and ECDSA
    verification accepts what the signing call produced.  Then
    [prepare_signed_fragments] returns, and when every fragment it
    returned arrives once, in whatever order, the receiver completes the
    SPDU on the last fragment, and its verdict is [true] exactly when that
    fragment arrives less than 30 s after the sender's timestamp. *)
Theorem honest_spdu_accepted (seq_number ts : Z) (now : time_point) (s : tx_state)
    (msg : bsm) (num_msgs : Z) (st : receiver_state) (public_key : list byte) :
  let v := this s in
  generate_bsm v ts = Done msg ->
  zlength (this_certificate_signature v) = CERTIFICATE_SIGNATURE_SIZE ->
  zlength (ecdsa_sign (length (calls s) + 1)
                      (sha256sum (vehicle_certificate_ecdsa v))
                      (cert_private_ec_key v))
    <= CERTIFICATE_SIGNATURE_SIZE ->
  match scheme (pqc v) with
  | ECDSA =>
      0 <= ECDSA_size (private_ec_key v) <= MAX_SIGNATURE_FRAGMENT_SIZE /\
      (forall call digest,
         zlength (ecdsa_sign call digest (private_ec_key v))
         <= ECDSA_size (private_ec_key v))
  | FALCON =>
      falcon_private_key v <> [] /\
      0 <= falcon_fragment_size (pqc v) /\
      (forall call m,
         zlength (falcon_sign call m (falcon_private_key v))
         <= MAX_SIGNATURE_TOTAL_SIZE) /\
      falcon_public_key_file (number v) = Some public_key /\
      (forall call m,
         falcon_verify m (falcon_sign call m (falcon_private_key v)) public_key
         = true)
  end ->
  key_file (number v) false = Some (private_ec_key v) ->
  key_file (number v) true = Some (cert_private_ec_key v) ->
  (forall call digest key buffer,
     take (length (ecdsa_sign call digest key)) buffer = ecdsa_sign call digest key ->
     ecdsa_verify digest buffer (zlength (ecdsa_sign call digest key)) key = true) ->
  pending_messages st !! make_message_key (number v) seq_number = None ->
  completed_messages st < num_msgs ->
  exists fragments s',
    prepare_signed_fragments seq_number ts now s = Done (fragments, s') /\
    forall (arrivals : list spdu_fragment) (times : list time_point),
      arrivals ≡ₚ fragments ->
      fragments <> [] ->
      length times = length arrivals ->
      Forall (fun t => INT64_MIN <= t - now <= INT64_MAX) times ->
      exists st' rs b c t_last,
        receive_loop num_msgs st (zip arrivals times)
        = Done (st', rs ++ [{| initialised := b; completed := Some c |}]) /\
        Forall (fun r => completed r = None) rs /\
        last times = Some t_last /\
        completed_valid c = recent_enough (t_last - now) /\
        (completed_valid c = true <-> t_last - now < 30000 * 1000) /\
        completed_messages st' = completed_messages st + 1.
Proof.
  intros v Hbsm Hscratch Hcert Hmode Hkey Hckey Hecdsa Hfresh Hlt.
  pose proof (generate_spdu_spec seq_number ts now s msg Hbsm Hscratch Hcert) as Hgen.
  cbv zeta in Hgen. fold v in Hgen.
  set (cert_sig := ecdsa_sign (length (calls s) + 1)
                     (sha256sum (vehicle_certificate_ecdsa v))
                     (cert_private_ec_key v)) in *.
  set (gen := generated_spdu v seq_number now msg cert_sig) in *.
  assert (Hcert_ok : forall base,
            data base = data gen ->
            certificate_signature_buffer_length base = zlength cert_sig ->
            ecdsa_verify (sha256sum (cert (signedData (data base))))
                         (certificate_signature (data base))
                         (certificate_signature_buffer_length base)
                         (cert_private_ec_key v) = true).
  { intros base -> ->. apply Hecdsa. simpl. by rewrite take_app_length. }
  unfold prepare_signed_fragments, mbind, tx_mbind.
  rewrite Hgen. unfold get_this. simpl.
  revert Hmode. destruct (scheme (pqc v)) eqn:Hscheme; simpl.
  - (* ECDSA: one fragment *)
    intros [Hsize Hbound].
    set (base := set_signature_scheme (to_uint8 0) gen).
    rewrite sign_message_ecdsa_spec; simpl; rewrite ?length_app; simpl length;
      rewrite <- ?Nat.add_assoc; simpl Nat.add; [|done|apply Hbound].
    set (tbs := {| message := msg; headerInfo := {| timestamp := now |} |}).
    set (sig := ecdsa_sign (length (calls s) + 3) (sha256sum (tbsData_image tbs))
                  (private_ec_key v)).
    pose proof (Hbound (length (calls s) + 3)%nat (sha256sum (tbsData_image tbs)))
      as HL. fold sig in HL.
    unfold mret, tx_ret. eexists _, _. split; [reflexivity|].
    intros arrivals times Hperm _ Hlen Htimes.
    apply Permutation_singleton_r in Hperm as ->.
    destruct times as [|t [|t' times]]; try done.
    apply Forall_cons in Htimes as [Ht _].
    set (f := set_fragmentation 0 1 (zlength sig) (zlength sig) 0
                (sig ++ zeros (MAX_SIGNATURE_FRAGMENT_SIZE - zlength sig)) base).
    destruct (reassemble_single_fragment f sig (pending_messages st) t)
      as (stored & Hre & Hbuf & Hbits); try done; [lia|].
    assert (Hstep : exists st1 c,
              receive_datagram st f t
              = Done (st1, {| initialised := true; completed := Some c |}) /\
              completed_valid c = recent_enough (t - now) /\
              completed_messages st1 = completed_messages st + 1).
    { unfold receive_datagram. rewrite Hre.
      unfold mbind, outcome_mbind. cbn [outcome_bind].
      unfold complete.
      change (fragments_received (update_template f stored))
        with (fragments_received stored).
      rewrite Hbits. cbn [forallb andb].
      set (template := template_fragment (update_template f stored)).
      assert (Hcheck : payload_signature_check template
                         (signature_buffer (update_template f stored))
                         (vehicle_id f) (private_ec_key v) = Done true).
      { rewrite payload_signature_check_ecdsa by done. f_equal.
        change (signature_buffer (update_template f stored))
          with (signature_buffer stored). rewrite Hbuf.
        apply (Hecdsa (length (calls s) + 3)%nat (sha256sum (tbsData_image tbs))
                 (private_ec_key v) sig). by apply take_ge. }
      rewrite (verify_message_eq template _ t (vehicle_id f) (private_ec_key v)
                 (cert_private_ec_key v) Hkey Hckey Ht _ Hcheck).
      cbn [outcome_bind]. unfold mret, outcome_ret.
      eexists _, _. split.
      - f_equal. f_equal. f_equal.
        unfold needs_initialisation, lookup_or_create.
        change (make_message_key (vehicle_id f) (sequence_number f))
          with (make_message_key (number v) seq_number).
        by rewrite Hfresh.
      - cbn [completed_valid completed_messages]. split; [|done].
        by rewrite (Hcert_ok template). }
    destruct Hstep as (st1 & c & Hstep & Hvalid & Hdone).
    simpl zip. rewrite (receive_loop_single num_msgs st f t st1 _ Hlt Hstep).
    exists st1, [], true, c, t. split; [done|]. split; [done|]. split; [done|].
    split; [done|]. split; [|done]. rewrite Hvalid. apply recent_enough_true.
  - (* Falcon *)
    intros (Hfkey & Hffs & Hfbound & Hpk & Hfalcon).
    set (base := set_signature_scheme (to_uint8 1) gen).
    set (tbs := {| message := msg; headerInfo := {| timestamp := now |} |}).
    set (sig := falcon_sign (length (calls s) + 2) (tbsData_image tbs)
                  (falcon_private_key v)).
    pose proof (Hfbound (length (calls s) + 2)%nat (tbsData_image tbs)) as HL.
    fold sig in HL.
    rewrite sign_message_falcon_spec; simpl; rewrite ?length_app; simpl length;
      fold tbs sig; [|done..].
    pose proof (clamp_fragment_size_range _ Hffs) as Hfs.
    set (fs := clamp_fragment_size _ _) in *.
    pose proof (zlength_nonneg sig) as HL0.
    destruct (ceil_div_bounds (zlength sig) fs HL0 ltac:(lia)) as [Hc0 Hc].
    set (count := (zlength sig + fs - 1) / fs) in *.
    eexists _, _. split; [reflexivity|].
    intros arrivals times Hperm Hne Hlen Htimes.
    change (spec_falcon_fragment base sig fs <$> seqZ 0 count)
      with (map (spec_falcon_fragment base sig fs) (seqZ 0 count)) in Hperm.
    apply Permutation_map_inv in Hperm as (order & -> & Horder).
    assert (Hnodup : NoDup order) by (rewrite <- Horder; apply NoDup_seqZ).
    assert (Hmem : forall i, i ∈ order <-> 0 <= i < count).
    { intros i. rewrite <- Horder, elem_of_seqZ. lia. }
    destruct (receive_loop_any_order base sig fs num_msgs (private_ec_key v)
                (cert_private_ec_key v) public_key Hfs HL Hkey Hckey Hpk order
                (replicate (Z.to_nat count) false) st times)
      as (st' & rs & b & c & t_last & Hrun & Hn & Hnone & Hlast & Hsig & Hdata & Hvalid
          & _ & Hdone); try done.
    + intros ->. apply Permutation_nil_r in Horder.
      apply Hne. by rewrite Horder.
    + change ((zlength sig + fs - 1) / fs) with count.
      unfold zlength at 1. rewrite length_replicate. lia.
    + intros i Hi. apply Hmem in Hi. split; [done|].
      apply lookup_replicate_2. lia.
    + intros j Hj. apply lookup_replicate in Hj as [_ Hj]. apply Hmem. lia.
    + by rewrite length_map in Hlen.
    + left. split.
      * by apply Forall_replicate.
      * unfold needs_initialisation, lookup_or_create.
        change (make_message_key (vehicle_id base) (sequence_number base))
          with (make_message_key (number v) seq_number).
        by rewrite Hfresh.
    + exists st', rs, b, c, t_last. split; [done|]. split; [done|]. split; [done|].
      assert (Hverdict : completed_valid c = recent_enough (t_last - now)).
      { rewrite Hvalid. unfold falcon_verdict.
        rewrite (Hcert_ok base) by done.
        change (tbsData (signedData (data base))) with tbs.
        unfold sig at 1. by rewrite Hfalcon. }
      split; [done|]. split; [|done]. rewrite Hverdict. apply recent_enough_true.
Qed.

(** ** A whole run of the transmitter *)

Lemma slept_app evs1 evs2 : slept (evs1 ++ evs2) = slept evs1 + slept evs2.
Proof.
  induction evs1 as [|[f|ms] evs1 IH]; simpl; [done|done|]. rewrite IH. lia.
Qed.

Lemma slept_sendto (l : list spdu_fragment) : slept (Ev_sendto <$> l) = 0.
Proof. by induction l. Qed.

Lemma sent_fragments_sleep ms : sent_fragments [Ev_sleep_ms ms] = [].
Proof. done. Qed.

Lemma sendto_inv f ch ch' :
  sendto f ch = Done ch' -> events ch' = events ch ++ [Ev_sendto f].
Proof. unfold sendto. case_bool_decide; [done|]. by intros [= <-]. Qed.

Lemma drop_decision_events drop_rate rng ch dropped ch' :
  drop_decision drop_rate rng ch = (dropped, ch') -> events ch' = events ch.
Proof. unfold drop_decision. case_bool_decide; by intros [= <- <-]. Qed.

Lemma transmit_first_pass_inv drop_rate rng fragments :
  forall resend_queue ch queue' ch',
  transmit_first_pass drop_rate rng fragments resend_queue ch = Done (queue', ch') ->
  exists kept dropped,
    queue' = resend_queue ++ dropped /\
    events ch' = events ch ++ (Ev_sendto <$> kept) /\
    kept ++ dropped ≡ₚ fragments.
Proof.
  induction fragments as [|f rest IH]; intros resend_queue ch queue' ch'; simpl.
  - intros [= <- <-]. exists [], []. by rewrite !app_nil_r.
  - destruct (drop_decision drop_rate rng ch) as [dropped ch1] eqn:Hdrop.
    apply drop_decision_events in Hdrop. destruct dropped.
    + intros Hrun. apply IH in Hrun as (kept & dropped & -> & Hev & Hperm).
      exists kept, (f :: dropped). rewrite <- app_assoc. split; [done|].
      split; [by rewrite Hev, Hdrop|].
      by rewrite <- Permutation_middle, Hperm.
    + destruct (sendto f ch1) as [ch2| |] eqn:Hsend; simpl; [|done..].
      apply sendto_inv in Hsend.
      intros Hrun. apply IH in Hrun as (kept & dropped & -> & Hev & Hperm).
      exists (f :: kept), dropped. split; [done|].
      split; [rewrite Hev, Hsend, Hdrop; by rewrite <- app_assoc|].
      simpl. by rewrite Hperm.
Qed.

Lemma transmit_resend_inv resend_queue : forall ch ch',
  transmit_resend resend_queue ch = Done ch' ->
  events ch' = events ch ++ (Ev_sendto <$> resend_queue).
Proof.
  induction resend_queue as [|f rest IH]; intros ch ch'; simpl.
  - intros [= <-]. by rewrite app_nil_r.
  - destruct (sendto f ch) as [ch1| |] eqn:Hsend; simpl; [|done..].
    apply sendto_inv in Hsend. intros Hrun. apply IH in Hrun.
    rewrite Hrun, Hsend. by rewrite <- app_assoc.
Qed.

(** What a message adds to the trace, when its transmission returns. *)
Lemma transmit_fragments_inv drop_rate rng fragments ch ch' :
  transmit_fragments drop_rate rng fragments ch = Done ch' ->
  exists sent,
    sent ≡ₚ fragments /\
    sent_fragments (events ch') = sent_fragments (events ch) ++ sent /\
    100 <= slept (events ch') - slept (events ch) <= 105.
Proof.
  unfold transmit_fragments.
  destruct (transmit_first_pass drop_rate rng fragments [] ch) as [[queue ch1]| |] eqn:Hfirst;
    simpl; [|done..].
  apply transmit_first_pass_inv in Hfirst as (kept & dropped & -> & Hev1 & Hperm).
  simpl. case_bool_decide as Hq.
  - destruct (transmit_resend dropped (sleep_for 5 ch1)) as [ch2| |] eqn:Hresend;
      simpl; [|done..].
    apply transmit_resend_inv in Hresend. simpl in Hresend.
    intros [= <-]. simpl. exists (kept ++ dropped). split; [done|].
    rewrite Hresend, Hev1.
    rewrite !sent_fragments_app, !sent_fragments_sendto, !slept_app, !slept_sendto.
    simpl. rewrite !app_nil_r, <- app_assoc. split; [done|]. lia.
  - intros [= <-]. simpl. exists kept.
    assert (dropped = []) as ->
      by (destruct dropped; [done|by destruct Hq]).
    rewrite app_nil_r in Hperm. split; [done|].
    rewrite Hev1.
    rewrite !sent_fragments_app, !sent_fragments_sendto, !slept_app, !slept_sendto.
    simpl. rewrite !app_nil_r. split; [done|]. lia.
Qed.

Lemma generate_bsm_same_trace v v' t :
  timestep v' = timestep v -> generate_bsm v' t = generate_bsm v t.
Proof. intros Heq. unfold generate_bsm. by rewrite Heq. Qed.

Lemma same_vehicle_refl v : same_vehicle v v.
Proof. by repeat split. Qed.

Lemma same_vehicle_trans v1 v2 v3 :
  same_vehicle v1 v2 -> same_vehicle v2 v3 -> same_vehicle v1 v3.
Proof. unfold same_vehicle. intros Ha Hb. destruct_and!. repeat split; congruence. Qed.

Lemma transmit_messages_inv drop_rate rng clock indices : forall s ch s' ch',
  transmit_messages drop_rate rng clock indices s ch = Done (s', ch') ->
  same_vehicle (this s) (this s') /\
  (forall i, i ∈ indices -> exists msg, generate_bsm (this s) i = Done msg) /\
  exists groups : list (list spdu_fragment),
    sent_fragments (events ch') = sent_fragments (events ch) ++ concat groups /\
    Forall2 (fun i group =>
               (scheme (pqc (this s)) = ECDSA -> length group = 1%nat) /\
               Forall (fun f => vehicle_id f = number (this s) /\
                                sequence_number f = to_uint32 i) group)
            indices groups /\
    100 * zlength indices <= slept (events ch') - slept (events ch)
      <= 105 * zlength indices.
Proof.
  induction indices as [|i rest IH]; intros s ch s' ch'; simpl.
  - intros [= <- <-]. split; [apply same_vehicle_refl|].
    split; [by intros i ?%elem_of_nil|].
    exists []. rewrite app_nil_r. split; [done|]. split; [constructor|].
    unfold zlength. simpl. lia.
  - unfold transmit_message.
    destruct (prepare_signed_fragments (to_uint32 i) i (clock i) s)
      as [[fragments s1]| |] eqn:Hprep; simpl; [|done..].
    apply prepare_signed_fragments_inv in Hprep as (Hsame & Hbsm & Hone & Hall).
    destruct (transmit_fragments drop_rate rng fragments ch) as [ch1| |] eqn:Hsend;
      simpl; [|done..].
    apply transmit_fragments_inv in Hsend as (sent & Hperm & Hsent & Hslept).
    intros Hrest. apply IH in Hrest as (Hsame' & Hbsm' & groups & Hsent' & Hgroups & Hslept').
    split; [by eapply same_vehicle_trans|].
    pose proof Hsame as (Hnum & Hpqc & _ & _ & _ & _ & Htrace & _).
    split.
    { intros j [->|Hj]%elem_of_cons; [done|].
      destruct (Hbsm' j Hj) as [msg Hmsg]. exists msg.
      by rewrite <- (generate_bsm_same_trace (this s) (this s1)). }
    exists (sent :: groups). split.
    { rewrite Hsent', Hsent. simpl. by rewrite <- app_assoc. }
    split.
    { constructor.
      - split; [intros He; rewrite Hperm; by apply Hone|]. by rewrite Hperm.
      - eapply Forall2_impl; [exact Hgroups|]. intros j group [H1 H2].
        rewrite Hnum, Hpqc in *. done. }
    unfold zlength in *. simpl length. lia.
Qed.

Lemma elem_of_concat {A} (x : A) (ls : list (list A)) :
  x ∈ concat ls <-> exists l, x ∈ l /\ l ∈ ls.
Proof.
  induction ls as [|l ls IH]; simpl.
  - split; [by intros ?%elem_of_nil|]. by intros (l & _ & ?%elem_of_nil).
  - rewrite elem_of_app, IH. split.
    + intros [Hx|(l' & Hx & Hl)]; [exists l; split; [done|left]|].
      exists l'. split; [done|by right].
    + intros (l' & Hx & [->|Hl]%elem_of_cons); [by left|].
      right. by exists l'.
Qed.

Lemma groups_in_order (g : spdu_fragment -> Z) (n : nat) : forall a groups,
  Forall2 (fun i group => Forall (fun f => g f = i) group)
          (seqZ a (Z.of_nat n)) groups ->
  Forall (fun f => a <= g f < a + Z.of_nat n) (concat groups) /\
  (forall i j fi fj,
     (i <= j)%nat -> concat groups !! i = Some fi -> concat groups !! j = Some fj ->
     g fi <= g fj) /\
  (Forall (fun group => length group = 1%nat) groups ->
   g <$> concat groups = seqZ a (Z.of_nat n)).
Proof.
  induction n as [|n IH]; intros a groups Hall.
  - change (seqZ a (Z.of_nat 0)) with (@nil Z) in Hall.
    apply Forall2_nil_inv_l in Hall as ->. simpl.
    split; [constructor|]. split; [done|done].
  - rewrite seqZ_cons in Hall by lia.
    replace (Z.pred (Z.of_nat (S n))) with (Z.of_nat n) in Hall by lia.
    apply Forall2_cons_inv_l in Hall as (group & rest & Hgroup & Hrest & ->).
    destruct (IH (Z.succ a) rest Hrest) as (Hrange & Hsorted & Hone).
    simpl. split; [|split].
    + apply Forall_app. split.
      * eapply Forall_impl; [exact Hgroup|]. intros f. simpl. lia.
      * eapply Forall_impl; [exact Hrange|]. intros f. simpl. lia.
    + intros i j fi fj Hij Hi Hj.
      rewrite Forall_forall in Hgroup. rewrite Forall_forall in Hrange.
      apply lookup_app_Some in Hi as [Hi|[Hilen Hi]];
        apply lookup_app_Some in Hj as [Hj|[Hjlen Hj]].
      * apply list_elem_of_lookup_2 in Hi, Hj.
        rewrite (Hgroup _ Hi), (Hgroup _ Hj). lia.
      * apply list_elem_of_lookup_2 in Hi, Hj.
        rewrite (Hgroup _ Hi). pose proof (Hrange _ Hj). lia.
      * apply lookup_lt_Some in Hj. lia.
      * apply (Hsorted (i - length group)%nat (j - length group)%nat); [lia|done..].
    + intros [Hlen Hones]%Forall_cons. rewrite fmap_app, (Hone Hones).
      destruct group as [|f [|f' group]]; try done.
      apply Forall_cons in Hgroup as [Hf _]. simpl. rewrite Hf.
      rewrite (seqZ_cons a) by lia.
      by replace (Z.pred (Z.of_nat (S n))) with (Z.of_nat n) by lia.
Qed.

(** [transmit] returns only when the trace has a row of at least three
    columns for every message; a trace with fewer rows than messages is
    read past its end, and the run does not return. *)
Theorem transmit_needs_trace_rows (drop_rate : Q) (rng : nat -> Q)
    (clock : Z -> time_point) (num_msgs : Z) (s : tx_state) (ch : tx_channel) :
  (forall s' ch',
     transmit drop_rate rng clock num_msgs s ch = Done (s', ch') ->
     num_msgs <= zlength (timestep (this s)) /\
     forall i, 0 <= i < num_msgs ->
       exists row,
         timestep (this s) !! Z.to_nat i = Some row /\ (3 <= length row)%nat) /\
  (zlength (timestep (this s)) < num_msgs ->
   forall result, transmit drop_rate rng clock num_msgs s ch <> Done result).
Proof.
  assert (Hrows : forall s' ch',
            transmit drop_rate rng clock num_msgs s ch = Done (s', ch') ->
            forall i, 0 <= i < num_msgs ->
              exists row,
                timestep (this s) !! Z.to_nat i = Some row /\ (3 <= length row)%nat).
  { intros s' ch' Hrun i Hi. unfold transmit in Hrun.
    apply transmit_messages_inv in Hrun as (_ & Hbsm & _).
    destruct (Hbsm i) as [msg Hmsg]; [apply elem_of_seqZ; lia|].
    assert (Hex : exists msg, generate_bsm (this s) i = Done msg) by eauto.
    apply generate_bsm_Done_iff in Hex as (_ & row & Hrow & Hlen & _).
    by exists row. }
  assert (Hlen : forall s' ch',
            transmit drop_rate rng clock num_msgs s ch = Done (s', ch') ->
            num_msgs <= zlength (timestep (this s))).
  { intros s' ch' Hrun.
    destruct (decide (num_msgs <= zlength (timestep (this s)))) as [|Hshort]; [done|].
    destruct (Hrows s' ch' Hrun (zlength (timestep (this s)))) as (row & Hrow & _).
    { pose proof (zlength_nonneg (timestep (this s))). lia. }
    apply lookup_lt_Some in Hrow. unfold zlength in Hrow. lia. }
  split.
  - intros s' ch' Hrun. split; [by eapply Hlen|by eapply Hrows].
  - intros Hshort [s' ch'] Hrun. apply Hlen in Hrun. lia.
Qed.

(** When [transmit] returns, the datagrams it handed to [sendto] carry the
    sender's id and leave in message order: all fragments of message [i],
    resent ones included, before any fragment of message [i + 1], so the
    sequence numbers along the trace never decrease; in ECDSA mode they are
    exactly 0, 1, ..., [num_msgs - 1].  The run sleeps between 100 and
    105 ms per message. *)
Theorem transmit_in_message_order (drop_rate : Q) (rng : nat -> Q)
    (clock : Z -> time_point) (num_msgs : Z) (s s' : tx_state) (ch ch' : tx_channel) :
  transmit drop_rate rng clock num_msgs s ch = Done (s', ch') ->
  num_msgs <= 2 ^ 32 ->
  exists sent,
    sent_fragments (events ch') = sent_fragments (events ch) ++ sent /\
    Forall (fun f => vehicle_id f = number (this s) /\
                     0 <= sequence_number f < num_msgs) sent /\
    (forall i j fi fj,
       (i <= j)%nat -> sent !! i = Some fi -> sent !! j = Some fj ->
       sequence_number fi <= sequence_number fj) /\
    (scheme (pqc (this s)) = ECDSA -> sequence_number <$> sent = seqZ 0 num_msgs) /\
    100 * Z.max 0 num_msgs <= slept (events ch') - slept (events ch)
      <= 105 * Z.max 0 num_msgs.
Proof.
  unfold transmit. intros Hrun Hmax.
  apply transmit_messages_inv in Hrun as (_ & _ & groups & Hsent & Hgroups & Hslept).
  exists (concat groups). split; [done|].
  assert (Hseq : Forall2 (fun i group => Forall (fun f => sequence_number f = i) group)
                         (seqZ 0 (Z.of_nat (Z.to_nat num_msgs))) groups).
  { replace (Z.of_nat (Z.to_nat num_msgs)) with (Z.max 0 num_msgs) by lia.
    assert (Heq : seqZ 0 (Z.max 0 num_msgs) = seqZ 0 num_msgs).
    { unfold seqZ. by replace (Z.to_nat (Z.max 0 num_msgs)) with (Z.to_nat num_msgs) by lia. }
    rewrite Heq. apply Forall2_same_length_lookup. split.
    - by eapply Forall2_length.
    - intros k i group Hi Hgroup.
      destruct (Forall2_lookup_lr _ _ _ _ _ _ Hgroups Hi Hgroup) as [_ Hall].
      apply lookup_seqZ in Hi as [-> Hk].
      eapply Forall_impl; [exact Hall|]. intros f [_ ->].
      apply to_uint32_small. lia. }
  destruct (groups_in_order sequence_number (Z.to_nat num_msgs) 0 groups Hseq)
    as (Hrange & Hsorted & Hone).
  split; [|split; [done|split]].
  - apply Forall_forall. intros f Hf. split.
    + apply list_elem_of_lookup in Hf as [k Hk].
      assert (Hin : exists group, group ∈ groups /\ f ∈ group).
      { apply list_elem_of_lookup_2 in Hk. apply elem_of_concat in Hk.
        destruct Hk as (group & ? & ?). by exists group. }
      destruct Hin as (group & Hgroup & Hfg).
      apply list_elem_of_lookup in Hgroup as [m Hm].
      destruct (Forall2_lookup_r _ _ _ _ _ Hgroups Hm) as (i & _ & _ & Hall).
      rewrite Forall_forall in Hall. by apply Hall.
    + rewrite Forall_forall in Hrange. pose proof (Hrange f Hf). lia.
  - intros Hecdsa. rewrite Hone.
    + unfold seqZ. by rewrite Nat2Z.id.
    + apply Forall_forall. intros group Hgroup.
      apply list_elem_of_lookup in Hgroup as [m Hm].
      destruct (Forall2_lookup_r _ _ _ _ _ Hgroups Hm) as (i & _ & Hlen & _).
      by apply Hlen.
  - unfold zlength in Hslept. rewrite length_seqZ in Hslept. lia.
Qed.

Lemma same_vehicle_provisioned v v' :
  same_vehicle v v' -> provisioned v -> provisioned v'.
Proof.
  unfold same_vehicle, provisioned, zlength.
  intros (_ & Hpqc & Hkey & Hcert & _ & Hfalcon & _ & Hscratch).
  by rewrite Hpqc, Hkey, Hcert, Hfalcon, Hscratch.
Qed.

Section signing.

Hypothesis ecdsa_sign_fits :
  forall call digest key, zlength (ecdsa_sign call digest key) <= ECDSA_size key.
Hypothesis falcon_sign_fits :
  forall call m key, zlength (falcon_sign call m key) <= MAX_SIGNATURE_TOTAL_SIZE.

Lemma prepare_signed_fragments_total seq_number ts now s msg :
  provisioned (this s) ->
  generate_bsm (this s) ts = Done msg ->
  exists fragments s', prepare_signed_fragments seq_number ts now s = Done (fragments, s').
Proof using ecdsa_sign_fits falcon_sign_fits.
  intros (Hscratch & Hcertsize & Hsigner) Hbsm.
  assert (Hcert : zlength (ecdsa_sign (length (calls s) + 1)
                             (sha256sum (vehicle_certificate_ecdsa (this s)))
                             (cert_private_ec_key (this s)))
                  <= CERTIFICATE_SIGNATURE_SIZE).
  { etrans; [apply ecdsa_sign_fits|done]. }
  pose proof (generate_spdu_spec seq_number ts now s msg Hbsm Hscratch Hcert) as Hgen.
  cbv zeta in Hgen.
  unfold prepare_signed_fragments, mbind, tx_mbind.
  rewrite Hgen. unfold get_this. simpl.
  destruct (scheme (pqc (this s))) eqn:Hscheme; simpl.
  - rewrite sign_message_ecdsa_spec; simpl; [|done|apply ecdsa_sign_fits].
    unfold mret, tx_ret. by eexists _, _.
  - destruct Hsigner as [Hkey Hf].
    rewrite sign_message_falcon_spec; simpl; [|done|done|apply falcon_sign_fits].
    by eexists _, _.
Qed.

Lemma transmit_fragments_total drop_rate rng fragments ch :
  (forall k, 0 <= sendto_result k) ->
  exists ch', transmit_fragments drop_rate rng fragments ch = Done ch'.
Proof.
  intros Hsend. unfold transmit_fragments.
  destruct (transmit_first_pass_spec Hsend drop_rate rng fragments [] ch (draws_used ch))
    as (ch1 & Hrun & _); [done|].
  rewrite Hrun. unfold mbind, outcome_mbind. cbn [outcome_bind].
  case_bool_decide.
  - destruct (transmit_resend_spec Hsend
                ([] ++ dropped_fragments drop_rate rng (draws_used ch) fragments)
                (sleep_for 5 ch1)) as (ch2 & Hrun2 & _).
    rewrite Hrun2. cbn [outcome_bind]. by eexists.
  - cbn [outcome_bind]. by eexists.
Qed.

Lemma transmit_messages_total drop_rate rng clock indices : forall s ch,
  (forall k, 0 <= sendto_result k) ->
  provisioned (this s) ->
  (forall i, i ∈ indices -> exists msg, generate_bsm (this s) i = Done msg) ->
  exists s' ch', transmit_messages drop_rate rng clock indices s ch = Done (s', ch').
Proof using ecdsa_sign_fits falcon_sign_fits.
  induction indices as [|i rest IH]; intros s ch Hsend Hprov Hbsm; simpl.
  - by eexists _, _.
  - destruct (Hbsm i ltac:(left)) as [msg Hmsg].
    destruct (prepare_signed_fragments_total (to_uint32 i) i (clock i) s msg Hprov Hmsg)
      as (fragments & s1 & Hprep).
    unfold transmit_message. rewrite Hprep.
    destruct (transmit_fragments_total drop_rate rng fragments ch Hsend) as [ch1 Hrun].
    rewrite Hrun. simpl.
    apply prepare_signed_fragments_inv in Hprep as (Hsame & _).
    apply IH; [done|by eapply same_vehicle_provisioned|].
    intros j Hj. destruct (Hbsm j ltac:(by right)) as [msg' Hmsg'].
    exists msg'. rewrite <- Hmsg'. apply generate_bsm_same_trace.
    by destruct Hsame as (_ & _ & _ & _ & _ & _ & ? & _).
Qed.

End signing.

(** A sender with its keys, a trace row of three columns for every
    message and a socket that accepts every datagram finishes its run:
    whatever the loss rate and the draws, [transmit] neither exits nor
    leaves the bounds of a buffer, provided the signing primitives keep
    to the sizes they announce. *)
Theorem transmit_completes (drop_rate : Q) (rng : nat -> Q)
    (clock : Z -> time_point) (num_msgs : Z) (s : tx_state) (ch : tx_channel) :
  (forall call digest key, zlength (ecdsa_sign call digest key) <= ECDSA_size key) ->
  (forall call m key, zlength (falcon_sign call m key) <= MAX_SIGNATURE_TOTAL_SIZE) ->
  (forall k, 0 <= sendto_result k) ->
  provisioned (this s) ->
  (forall i, 0 <= i < num_msgs ->
     exists row,
       timestep (this s) !! Z.to_nat i = Some row /\ (3 <= length row)%nat) ->
  exists s' ch', transmit drop_rate rng clock num_msgs s ch = Done (s', ch').
Proof.
  intros Hecdsa Hfalcon Hsend Hprov Hrows. unfold transmit.
  apply transmit_messages_total; try done.
  intros i Hi%elem_of_seqZ. apply generate_bsm_Done_iff.
  split; [lia|]. destruct (Hrows i ltac:(lia)) as (row & Hrow & Hlen).
  exists row. split; [done|]. split; [done|].
  intros Hnz. destruct (Hrows (i - 1) ltac:(lia)) as (prev & Hprev & Hplen).
  exists prev. split; [done|lia].
Qed.

(** ** What is printed and what was verified *)

(** The scheme [print_spdu] names is not always the one [verify_message]
    used.  The label is "Falcon" for the tag 1 and "ECDSA" for every other
    tag, while the payload signature goes through ECDSA verification for
    the tag 0 only: an SPDU with a tag from 2 to 255 is verified with
    Falcon and printed as ECDSA. *)
Theorem print_spdu_scheme_label (to_time_t : time_point -> Z) (spdu : spdu_fragment)
    (valid : bool) (assembled_signature : list byte) (vehicle : Z) (key : EC_KEY)
    (public_key : list byte) :
  falcon_public_key_file vehicle = Some public_key ->
  let label := print_spdu to_time_t spdu valid !! 5%nat in
  let ecdsa_result :=
    ecdsa_verify (sha256sum (tbsData_image (tbsData (signedData (data spdu)))))
                 assembled_signature (signature_buffer_length spdu) key in
  let falcon_result :=
    falcon_verify (tbsData_image (tbsData (signedData (data spdu))))
                  assembled_signature public_key in
  (spdu_signature_scheme spdu = 0 ->
   payload_signature_check spdu assembled_signature vehicle key = Done ecdsa_result /\
   label = Some (tab :: literal "Scheme:" ++ tab :: literal "ECDSA")) /\
  (spdu_signature_scheme spdu = 1 ->
   payload_signature_check spdu assembled_signature vehicle key = Done falcon_result /\
   label = Some (tab :: literal "Scheme:" ++ tab :: literal "Falcon")) /\
  (spdu_signature_scheme spdu <> 0 -> spdu_signature_scheme spdu <> 1 ->
   payload_signature_check spdu assembled_signature vehicle key = Done falcon_result /\
   label = Some (tab :: literal "Scheme:" ++ tab :: literal "ECDSA")).
Proof.
  intros Hpk label ecdsa_result falcon_result.
  unfold label, print_spdu. cbn [lookup list_lookup].
  change (to_uint8 (scheme_code FALCON)) with 1.
  split; [|split].
  - intros Htag. rewrite payload_signature_check_ecdsa by done.
    by rewrite bool_decide_eq_false_2 by lia.
  - intros Htag.
    rewrite (payload_signature_check_falcon _ _ _ _ public_key)
      by (rewrite ?Htag; done).
    by rewrite bool_decide_eq_true_2.
  - intros Hne0 Hne1.
    rewrite (payload_signature_check_falcon _ _ _ _ public_key) by done.
    by rewrite bool_decide_eq_false_2.
Qed.

End Vehicle.

(** * Files, environment and command line *)

(** ** The Falcon key files *)

Lemma hex_to_bytes_trailing_newline text :
  exists what, hex_to_bytes (text ++ [Files.newline]) = Throws what.
Proof.
  destruct (hex_to_bytes (text ++ [Files.newline])) as [bytes|what] eqn:Hrun; [|eauto].
  apply hex_to_bytes_inv in Hrun as (_ & Hall & _).
  apply Forall_app in Hall as [_ Hlast]. apply Forall_cons in Hlast as [Hlast _].
  destruct (decode_hex_char_accepts _ Hlast) as [d Hd]. vm_compute in Hd. discriminate.
Qed.

(** [load_falcon_private_key] returns exactly when the key file can be
    opened and holds twice as many hex digits as the secret key has bytes,
    and nothing else; then the key is the decoded content.  In every other
    case the process exits with [EXIT_FAILURE]: in particular when the
    content ends with a newline. *)
Theorem load_falcon_private_key_accepts (secret_key_length : Z)
    (files : Files.file_system) (number : Z) :
  (forall key,
     Files.load_falcon_private_key secret_key_length files number = Done key <->
     exists text,
       files (Files.falcon_private_key_path number) = Some text /\
       Forall is_hex_digit text /\
       zlength text = 2 * secret_key_length /\
       hex_to_bytes text = Returns key) /\
  ((forall key,
      Files.load_falcon_private_key secret_key_length files number <> Done key) ->
   Files.load_falcon_private_key secret_key_length files number = Exit EXIT_FAILURE) /\
  (forall text,
     files (Files.falcon_private_key_path number) = Some (text ++ [Files.newline]) ->
     Files.load_falcon_private_key secret_key_length files number = Exit EXIT_FAILURE).
Proof.
  unfold Files.load_falcon_private_key. split; [|split].
  - intros key. split.
    + destruct (files _) as [text|]; [|done].
      destruct (hex_to_bytes text) as [bytes|] eqn:Hdec; [|done].
      case_bool_decide as Hlen; [done|]. intros [= ->].
      apply hex_to_bytes_inv in Hdec as Hinv. destruct Hinv as (_ & Hall & Htext).
      exists text. repeat split; try done.
      destruct (decide (zlength key = secret_key_length)); [lia|tauto].
    + intros (text & -> & _ & Hlen & Hdec). rewrite Hdec.
      apply hex_to_bytes_inv in Hdec as (_ & _ & Htext).
      rewrite bool_decide_eq_false_2; [done|]. lia.
  - intros Hnot. destruct (files _) as [text|]; [|done].
    destruct (hex_to_bytes text) as [bytes|]; [|done].
    case_bool_decide; [done|]. by destruct (Hnot bytes).
  - intros text ->. by destruct (hex_to_bytes_trailing_newline text) as [what ->].
Qed.

(** Once [load_falcon_public_key] has returned a key for a vehicle, the key
    is in the cache, the keys cached for other vehicles are untouched, and
    every later call for that vehicle returns the same key without looking
    at the file: whatever the file system has become. *)
Theorem load_falcon_public_key_cached (public_key_length : Z)
    (files : Files.file_system) (number : Z) (cache cache' : gmap Z (list byte))
    (key : list byte) :
  Files.load_falcon_public_key public_key_length files number cache
  = Done (key, cache') ->
  cache' !! number = Some key /\
  (forall other, other <> number -> cache' !! other = cache !! other) /\
  forall files',
    Files.load_falcon_public_key public_key_length files' number cache'
    = Done (key, cache').
Proof.
  unfold Files.load_falcon_public_key.
  destruct (cache !! number) as [cached|] eqn:Hhit.
  - intros [= <- <-]. split; [done|]. split; [done|].
    intros files'. by rewrite Hhit.
  - destruct (files _) as [text|]; [|done].
    destruct (hex_to_bytes text) as [buffer|]; [|done].
    case_bool_decide; [done|]. intros [= <- <-].
    split; [by rewrite lookup_insert_eq|].
    split; [intros other Hne; by rewrite lookup_insert_ne|].
    intros files'. by rewrite lookup_insert_eq.
Qed.

(** As long as the key files do not change, the cached loader returns what
    the loader of the verification model returns when its key store is the
    content of the files; it never leaves the cache with a key that is not
    the one on file. *)
Theorem load_falcon_public_key_refines (public_key_length : Z)
    (files : Files.file_system) (number : Z) (cache : gmap Z (list byte)) :
  cache_agrees public_key_length files cache ->
  match Files.load_falcon_public_key public_key_length files number cache with
  | Done (key, cache') =>
      load_falcon_public_key (stored_public_key public_key_length files) number
      = Done key /\
      cache_agrees public_key_length files cache'
  | Exit status =>
      load_falcon_public_key (stored_public_key public_key_length files) number
      = Exit status
  | Undefined => False
  end.
Proof.
  intros Hagree.
  unfold Files.load_falcon_public_key, load_falcon_public_key.
  destruct (cache !! number) as [cached|] eqn:Hhit.
  - by rewrite (Hagree number cached Hhit).
  - unfold stored_public_key.
    destruct (files _) as [text|] eqn:Hfile; [|done].
    destruct (hex_to_bytes text) as [buffer|] eqn:Hdec; [|done].
    case_bool_decide as Hlen.
    + by rewrite bool_decide_eq_false_2.
    + assert (Heq : zlength buffer = public_key_length)
        by (destruct (decide (zlength buffer = public_key_length)); tauto).
      rewrite bool_decide_eq_true_2 by done. split; [done|].
      intros other key Hlook.
      apply lookup_insert_Some in Hlook as [[<- <-]|[_ Hlook]]; [|by apply Hagree].
      unfold stored_public_key. rewrite Hfile, Hdec.
      by rewrite bool_decide_eq_true_2.
Qed.

(** ** Ports and loss rate *)

(** Whatever [V2X_TEST_PORT] holds and whatever [strtol] makes of it, the
    test port is a valid nonzero UDP port: the value parsed when at least
    one character was consumed and it lies in 1 .. 65535 (the conversion
    to [uint16_t] then changes nothing), 6666 in every other case.  In
    test mode the transmitter sends to the port the receiver binds; without
    [--test] the two differ. *)
Theorem get_test_port_range (getenv : string -> option (list ascii))
    (strtol : list ascii -> Z * Z) :
  1 <= get_test_port getenv strtol < 65536 /\
  (getenv "V2X_TEST_PORT" = None -> get_test_port getenv strtol = 6666) /\
  (forall env,
     getenv "V2X_TEST_PORT" = Some env ->
     get_test_port getenv strtol
     = if bool_decide ((strtol env).2 <> 0 /\ 0 < (strtol env).1 < 65536)
       then (strtol env).1 else 6666) /\
  (forall test,
     transmit_port getenv strtol test = receive_port getenv strtol test
     <-> test = true).
Proof.
  unfold transmit_port, receive_port, get_test_port.
  destruct (getenv "V2X_TEST_PORT") as [env|].
  - destruct (strtol env) as [value consumed] eqn:Hparse. simpl.
    split; [|split; [done|split]].
    + case_bool_decide; [|lia]. rewrite to_uint16_small; lia.
    + intros env' [= <-]. rewrite Hparse. simpl.
      case_bool_decide; case_bool_decide; try lia; try done.
      rewrite to_uint16_small; lia.
    + intros [|]; [done|]. split; [intros ?; exfalso; lia|done].
  - split; [lia|]. split; [done|]. split; [done|].
    intros [|]; [done|]. split; [intros ?; exfalso; lia|done].
Qed.

Lemma Qlt_false_le (x y : Q) : bool_decide (x < y)%Q = false -> (y <= x)%Q.
Proof. intros H. apply bool_decide_eq_false_1 in H. by apply Qnot_lt_le. Qed.

(** The loss rate the transmitter works with is NaN (when [strtod] returns
    NaN, which passes both clamping tests) or a finite value between 0 and
    1; the infinities are clamped.  In each case the first-pass test on
    doubles is the test of the transmitter model at the rational
    [rate_of] gives: for NaN no fragment is ever held back. *)
Theorem packet_loss_rate_clamped (getenv : string -> option (list ascii))
    (strtod : list ascii -> double) :
  let drop_rate := packet_loss_rate getenv strtod in
  (drop_rate = NaN \/
   exists q, drop_rate = Finite q /\ (0 <= q)%Q /\ (q <= 1)%Q) /\
  (0 <= rate_of drop_rate)%Q /\ (rate_of drop_rate <= 1)%Q /\
  (drop_rate = NaN ->
   exists env, getenv "V2X_PACKET_LOSS_RATE" = Some env /\ strtod env = NaN) /\
  forall (rng : nat -> Q) (i : nat),
    drop_test drop_rate (rng i) = drop_flag (rate_of drop_rate) rng i.
Proof.
  unfold packet_loss_rate.
  destruct (getenv "V2X_PACKET_LOSS_RATE") as [env|].
  2: { simpl. split; [right; exists 0%Q; done|]. done. }
  destruct (strtod env) as [q|[|]|] eqn:Hparse; simpl.
  - destruct (bool_decide (q < 0)%Q) eqn:Hneg; simpl.
    + split; [right; exists 0%Q; done|]. done.
    + apply Qlt_false_le in Hneg.
      destruct (bool_decide (1 < q)%Q) eqn:Hbig; simpl.
      * split; [right; exists 1%Q; done|]. done.
      * apply Qlt_false_le in Hbig.
        split; [right; by exists q|]. done.
  - split; [right; exists 0%Q; done|]. done.
  - split; [right; exists 1%Q; done|]. done.
  - split; [by left|]. split; [done|]. split; [done|].
    split; [intros _; by exists env|]. done.
Qed.

(** ** The command line *)

Lemma argv_equals_lookup argv i text argument :
  argv !! Z.to_nat i = Some argument ->
  argv_equals argv i text = Done (bool_decide (argument = literal text)).
Proof. unfold argv_equals. by intros ->. Qed.

(** [main] gets past its command line exactly for a technology, a mode
    and a GUI choice spelled in lower case, optionally followed by
    [--test].  The GUI word [nogui] clears [webgui] only: [tkgui] keeps
    what it held.  With the program name and two words only the arity test
    passes and [argv[3]], the terminating null pointer, is turned into a
    [std::string]: after a valid technology and mode the behaviour is
    undefined rather than the usage error. *)
Theorem main_arguments_accepts (argv : list (list ascii)) (args0 : program_arguments) :
  (forall result,
     main_arguments argv args0 = Done result <->
     exists program technology_word mode_word gui_word rest,
       argv = program :: technology_word :: mode_word :: gui_word :: rest /\
       (rest = [] \/ rest = [literal "--test"]) /\
       (technology_word = literal "dsrc" \/ technology_word = literal "cv2x") /\
       (mode_word = literal "transmitter" \/ mode_word = literal "receiver") /\
       (gui_word = literal "tkgui" \/ gui_word = literal "webgui"
        \/ gui_word = literal "nogui") /\
       result
       = {| tech_choice :=
              if bool_decide (technology_word = literal "dsrc") then DSRC else CV2X;
            sim_mode :=
              if bool_decide (mode_word = literal "transmitter")
              then TRANSMITTER else RECEIVER;
            tkgui :=
              if bool_decide (gui_word = literal "tkgui") then true else tkgui args0;
            webgui :=
              if bool_decide (gui_word = literal "webgui") then true
              else if bool_decide (gui_word = literal "nogui") then false
                   else webgui args0;
            test := if bool_decide (rest = []) then test args0 else true |}) /\
  (forall program technology_word mode_word,
     argv = [program; technology_word; mode_word] ->
     (technology_word = literal "dsrc" \/ technology_word = literal "cv2x") ->
     (mode_word = literal "transmitter" \/ mode_word = literal "receiver") ->
     main_arguments argv args0 = Undefined) /\
  (zlength argv < 3 \/ 5 < zlength argv -> main_arguments argv args0 = Exit EXIT_FAILURE).
Proof.
  split; [|split].
  - intros result. split.
    + unfold main_arguments.
      case_bool_decide as Harity; [done|].
      destruct argv as [|program [|technology_word [|mode_word [|gui_word rest]]]];
        try (unfold zlength in Harity; simpl in Harity; lia).
      { (* three words *)
        unfold argv_equals. simpl.
        repeat (case_bool_decide; simpl; try done). }
      unfold argv_equals at 1 2 3 4 5 6 7. simpl.
      intros Hrun. exists program, technology_word, mode_word, gui_word, rest.
      split; [done|].
      assert (Hrest : rest = [] \/ exists w, rest = [w]).
      { destruct rest as [|w [|w' rest]]; [by left|right; by exists w|].
        unfold zlength in Harity. simpl in Harity. lia. }
      revert Hrun.
      destruct Hrest as [->|[w ->]].
      * simpl. unfold zlength. simpl.
        repeat (case_bool_decide; simpl; try done; try lia);
          intros [= <-]; subst; try discriminate; repeat split; auto.
      * unfold argv_equals. unfold zlength. simpl.
        repeat (case_bool_decide; simpl; try done; try lia);
          intros [= <-]; subst; try discriminate; repeat split; auto.
    + intros (program & technology_word & mode_word & gui_word & rest & -> & Hrest
              & Ht & Hm & Hg & ->).
      unfold main_arguments, argv_equals.
      destruct Hrest as [->| ->]; unfold zlength; simpl;
        destruct Ht as [->| ->]; destruct Hm as [->| ->];
        destruct Hg as [->|[->| ->]]; reflexivity.
  - intros program technology_word mode_word -> Ht Hm.
    unfold main_arguments, argv_equals, zlength. simpl.
    destruct Ht as [->| ->]; destruct Hm as [->| ->]; reflexivity.
  - intros Harity. unfold main_arguments. by rewrite bool_decide_eq_true_2 by lia.
Qed.

(** ** The fragment size from configuration to signer *)

(** Whatever the configuration file and [V2X_FALCON_FRAGMENT_BYTES] hold,
    the fragment size the Falcon signer works with lies between 1 and 512:
    the configured number when that lies in this range, and 512 when it is
    0, above 512, or negative (the conversion to [size_t] makes a negative
    [int] huge).  The environment variable takes precedence over the
    configuration file; without either the size is 256. *)
Theorem main_fragment_size_effective (getenv : string -> option (list ascii))
    (config_scheme : option (list ascii)) (config_fragment_bytes : option Z)
    (strtoul : list ascii -> Z) :
  (forall text, 0 <= strtoul text < 2 ^ 64) ->
  (forall n, config_fragment_bytes = Some n -> - 2 ^ 31 <= n < 2 ^ 31) ->
  let options :=
    main_pqc_options getenv config_scheme config_fragment_bytes strtoul in
  let effective :=
    clamp_fragment_size (falcon_fragment_size options) MAX_SIGNATURE_FRAGMENT_SIZE in
  let requested :=
    match getenv "V2X_FALCON_FRAGMENT_BYTES" with
    | Some text => strtoul text
    | None => default 256 config_fragment_bytes
    end in
  1 <= effective <= MAX_SIGNATURE_FRAGMENT_SIZE /\
  effective = (if bool_decide (1 <= requested <= MAX_SIGNATURE_FRAGMENT_SIZE)
               then requested else MAX_SIGNATURE_FRAGMENT_SIZE).
Proof.
  intros Hstrtoul Hint options effective requested.
  unfold effective, options, requested, main_pqc_options, clamp_fragment_size,
    MAX_SIGNATURE_FRAGMENT_SIZE. simpl.
  destruct (getenv "V2X_FALCON_FRAGMENT_BYTES") as [text|].
  - pose proof (Hstrtoul text). repeat case_bool_decide; lia.
  - destruct config_fragment_bytes as [n|]; simpl.
    + pose proof (Hint n eq_refl) as Hn. unfold to_size_t.
      destruct (decide (0 <= n)) as [Hpos|Hneg].
      * rewrite Z.mod_small by lia. repeat case_bool_decide; lia.
      * replace (n mod 2 ^ 64) with (n + 2 ^ 64).
        2: { apply Z.mod_unique with (-1); lia. }
        repeat case_bool_decide; lia.
    + vm_compute. split; [split; discriminate|reflexivity].
Qed.

(** * Concrete runs *)


Lemma falcon_fragments_reassemble_witness :
  exists fragments s',
    sign_message_falcon Demo.falcon_sign Demo.tbsData_image Demo.template
      (Demo.sender FALCON) = Done (fragments, s') /\
    foldl place_fragment (zeros 600) fragments = replicate 600 x39.
Proof.
  destruct (falcon_fragments_reassemble Demo.sha256sum Demo.ecdsa_verify
              Demo.falcon_sign Demo.falcon_verify Demo.tbsData_image
              Demo.sizeof_certificate Demo.key_file Demo.falcon_public_key_file
              Demo.template (Demo.sender FALCON) 1 receiver_initial
              (fun i => Z.of_nat (Nat.min i 1000)) [] [] [])
    as (fragments & s' & Hrun & Hfold & _).
  - discriminate.
  - simpl. lia.
  - vm_compute. discriminate.
  - reflexivity.
  - reflexivity.
  - reflexivity.
  - reflexivity.
  - simpl. lia.
  - intros i. unfold INT64_MIN, INT64_MAX, Demo.template.
    cbn [timestamp headerInfo tbsData signedData data spdu_fragment_default]. lia.
  - exists fragments, s'. split; [exact Hrun|exact Hfold].
Defined.

Lemma falcon_signer_fragments_witness :
  exists fragments s',
    sign_message_falcon Demo.falcon_sign Demo.tbsData_image Demo.template
      (Demo.sender FALCON) = Done (fragments, s') /\
    zlength fragments = 3.
Proof.
  destruct (falcon_signer_fragments Demo.falcon_sign Demo.tbsData_image
              Demo.template (Demo.sender FALCON))
    as (fragments & s' & Hrun & _ & Hlen & _).
  - discriminate.
  - simpl. lia.
  - vm_compute. discriminate.
  - exists fragments, s'. split; [exact Hrun|]. rewrite Hlen. reflexivity.
Defined.


Lemma payload_signature_by_scheme_witness :
  payload_signature_check Demo.sha256sum Demo.ecdsa_verify Demo.falcon_verify
    Demo.tbsData_image Demo.falcon_public_key_file Demo.template [] 0 []
  = Done (Demo.ecdsa_verify
            (Demo.sha256sum
               (Demo.tbsData_image (tbsData (signedData (data Demo.template)))))
            [] (signature_buffer_length Demo.template) []).
Proof.
  destruct (payload_signature_by_scheme Demo.sha256sum Demo.ecdsa_verify
              Demo.falcon_verify Demo.tbsData_image Demo.key_file
              Demo.falcon_public_key_file Demo.template [] 5 0 [] [] [])
    as [Hecdsa _].
  - reflexivity.
  - reflexivity.
  - reflexivity.
  - unfold INT64_MIN, INT64_MAX. simpl. lia.
  - destruct Hecdsa as [Hcheck _]; [reflexivity|]. exact Hcheck.
Defined.

Lemma ecdsa_signer_single_fragment_witness :
  exists fragment s',
    prepare_signed_fragments Demo.sha256sum Demo.ECDSA_size Demo.ecdsa_sign
      Demo.falcon_sign Demo.calculate_speed_kph Demo.calculate_heading
      Demo.tbsData_image Demo.sizeof_certificate 0 0 1000 (Demo.sender ECDSA)
    = Done ([fragment], s') /\
    fragment_length fragment = 70.
Proof.
  destruct (ecdsa_signer_single_fragment Demo.sha256sum Demo.ECDSA_size
              Demo.ecdsa_sign Demo.falcon_sign Demo.calculate_speed_kph
              Demo.calculate_heading Demo.tbsData_image Demo.sizeof_certificate
              0 0 1000 (Demo.sender ECDSA)
              {| latitude := 1; longitude := 2; elevation := 3;
                 speed := 0; heading := 0 |})
    as [Hone _].
  - reflexivity.
  - reflexivity.
  - vm_compute. discriminate.
  - reflexivity.
  - unfold Demo.ECDSA_size. lia.
  - vm_compute. discriminate.
  - destruct Hone as (fragment & s' & Hrun & _ & _ & _ & _ & Hlen & _).
    + unfold Demo.ECDSA_size, MAX_SIGNATURE_FRAGMENT_SIZE. lia.
    + exists fragment, s'. split; [exact Hrun|]. rewrite Hlen. reflexivity.
Defined.

Lemma certificate_signed_once_witness :
  exists fragments s',
    prepare_signed_fragments Demo.sha256sum Demo.ECDSA_size Demo.ecdsa_sign
      Demo.falcon_sign Demo.calculate_speed_kph Demo.calculate_heading
      Demo.tbsData_image Demo.sizeof_certificate 0 0 1000 (Demo.sender FALCON)
    = Done (fragments, s') /\
    length (calls s') = 3%nat.
Proof.
  destruct (certificate_signed_once Demo.sha256sum Demo.ECDSA_size
              Demo.ecdsa_sign Demo.falcon_sign Demo.calculate_speed_kph
              Demo.calculate_heading Demo.tbsData_image Demo.sizeof_certificate
              0 0 1000 (Demo.sender FALCON)
              {| latitude := 1; longitude := 2; elevation := 3;
                 speed := 0; heading := 0 |})
    as (fragments & s' & Hrun & Hcalls & _).
  - reflexivity.
  - reflexivity.
  - vm_compute. discriminate.
  - simpl. split; [discriminate|]. split; [lia|]. vm_compute. discriminate.
  - exists fragments, s'. split; [exact Hrun|]. rewrite Hcalls. reflexivity.
Defined.

Lemma rejected_fragment_ignored_witness :
  let entry := {| template_fragment := Demo.template;
                  signature_buffer := zeros 4;
                  fragments_received := [true; false];
                  first_fragment_time := 0 |} in
  store_fragment (Demo.half 0) entry = Done entry.
Proof.
  intros entry.
  destruct (rejected_fragment_ignored Demo.sha256sum Demo.ecdsa_verify
              Demo.falcon_verify Demo.tbsData_image Demo.sizeof_certificate
              Demo.key_file Demo.falcon_public_key_file (Demo.half 0))
    as [Hcopy _].
  - unfold well_formed. vm_compute. repeat split; congruence.
  - destruct (Hcopy entry) as [Hsame _]; [|exact Hsame].
    right. left. reflexivity.
Defined.

(** C6 as stated: a datagram whose index is not below the fragment count
    would leave the bitmap of the entry as it is.  After the first
    datagram below the entry of the key holds the bitmap [true; false] and
    an empty buffer; the second one, of index 7 with two fragments
    declared, fails the index check and leaves the bitmap
    [false; false] and its own receive time in the entry. *)
Lemma rejected_fragment_resets_bitmap_counterexample :
  exists st1 r1 e1 st2 r2 e2,
    receive_datagram Demo.sha256sum Demo.ecdsa_verify Demo.falcon_verify
      Demo.tbsData_image Demo.sizeof_certificate Demo.key_file
      Demo.falcon_public_key_file receiver_initial (Edge.unsigned 0) 10
    = Done (st1, r1) /\
    pending_messages st1 !! key_of (Edge.unsigned 7) = Some e1 /\
    fragments_received e1 = [true; false] /\
    first_fragment_time e1 = 10 /\
    zlength (fragments_received e1) <= fragment_index (Edge.unsigned 7) /\
    receive_datagram Demo.sha256sum Demo.ecdsa_verify Demo.falcon_verify
      Demo.tbsData_image Demo.sizeof_certificate Demo.key_file
      Demo.falcon_public_key_file st1 (Edge.unsigned 7) 11
    = Done (st2, r2) /\
    completed r2 = None /\
    pending_messages st2 !! key_of (Edge.unsigned 7) = Some e2 /\
    fragments_received e2 = [false; false] /\
    first_fragment_time e2 = 11.
Proof.
  eexists _, _, _, _, _, _.
  split; [vm_compute; reflexivity|].
  split; [vm_compute; reflexivity|].
  split; [reflexivity|]. split; [reflexivity|].
  split; [vm_compute; discriminate|].
  split; [vm_compute; reflexivity|].
  split; [reflexivity|].
  split; [vm_compute; reflexivity|].
  split; reflexivity.
Qed.

Lemma entry_initialisation_witness :
  exists st' rs,
    receive_loop Demo.sha256sum Demo.ecdsa_verify Demo.falcon_verify
      Demo.tbsData_image Demo.sizeof_certificate Demo.key_file
      Demo.falcon_public_key_file 2 receiver_initial
      [(Demo.half 0, 10); (Demo.half 0, 11); (Demo.half 1, 12); (Demo.half 1, 13)]
    = Done (st', rs) /\
    initialised <$> rs = [true; false; false; true].
Proof.
  destruct (receive_loop Demo.sha256sum Demo.ecdsa_verify Demo.falcon_verify
              Demo.tbsData_image Demo.sizeof_certificate Demo.key_file
              Demo.falcon_public_key_file 2 receiver_initial
              [(Demo.half 0, 10); (Demo.half 0, 11); (Demo.half 1, 12);
               (Demo.half 1, 13)])
    as [[st' rs]| |] eqn:Hrun; try (vm_compute in Hrun; discriminate).
  exists st', rs. split; [reflexivity|].
  assert (Hcompleted :
            (fun r => match completed r with Some _ => true | None => false end)
              <$> rs = [false; false; true; false]).
  { apply (f_equal (fun o => match o with
                             | Done (_, rs) =>
                                 (fun r => match completed r with
                                           | Some _ => true
                                           | None => false
                                           end) <$> rs
                             | _ => []
                             end)) in Hrun.
    vm_compute in Hrun. symmetry. exact Hrun. }
  destruct (entry_initialisation Demo.sha256sum Demo.ecdsa_verify Demo.falcon_verify
              Demo.tbsData_image Demo.sizeof_certificate Demo.key_file
              Demo.falcon_public_key_file 2 receiver_initial
              [(Demo.half 0, 10); (Demo.half 0, 11); (Demo.half 1, 12);
               (Demo.half 1, 13)] st' rs Hrun)
    as (_ & Hfirst & Hnext & Hlive & _).
  { repeat apply Forall_cons_2; try apply Forall_nil_2;
      unfold well_formed; vm_compute; repeat split; congruence. }
  destruct rs as [|r0 [|r1 [|r2 [|r3 [|]]]]]; try discriminate Hcompleted.
  injection Hcompleted as H0 H1 H2 H3.
  simpl. f_equal; [|f_equal; [|f_equal; [|f_equal]]].
  - apply (Hfirst 0%nat (Demo.half 0) 10 r0); [reflexivity|reflexivity| |reflexivity].
    intros m dm tm Hm. lia.
  - apply (Hlive 0%nat 1%nat (Demo.half 0) 10 r0 (Demo.half 0) 11 r1);
      [lia|reflexivity..| |].
    + vm_compute. discriminate.
    + intros m dm tm rm Hm Hdm Hrm _. assert (m = 0%nat) as -> by lia.
      simpl in Hrm. injection Hrm as <-. by destruct (completed r0).
  - apply (Hlive 0%nat 2%nat (Demo.half 0) 10 r0 (Demo.half 1) 12 r2);
      [lia|reflexivity..| |].
    + vm_compute. discriminate.
    + intros m dm tm rm Hm Hdm Hrm _.
      destruct m as [|[|m]]; [| |lia]; simpl in Hrm; injection Hrm as <-.
      * by destruct (completed r0).
      * by destruct (completed r1).
  - apply (Hnext 2%nat 3%nat (Demo.half 1) 12 r2 (Demo.half 1) 13 r3);
      [lia|reflexivity..| |].
    + intros m dm tm Hm. lia.
    + left. by destruct (completed r2).
Defined.

(** C10 as stated: initialisation would happen exactly once for a key whose
    first fragment declares a nonzero [signature_buffer_length].  The three
    datagrams below belong to one key and declare 4 bytes; the second
    completes the SPDU, which erases the entry, and the third initialises
    again. *)
Lemma entry_initialised_twice_counterexample :
  signature_buffer_length (Demo.half 0) = 4 /\
  key_of (Demo.half 1) = key_of (Demo.half 0) /\
  exists st' rs,
    receive_loop Demo.sha256sum Demo.ecdsa_verify Demo.falcon_verify
      Demo.tbsData_image Demo.sizeof_certificate Demo.key_file
      Demo.falcon_public_key_file 2 receiver_initial
      [(Demo.half 0, 10); (Demo.half 1, 11); (Demo.half 0, 12)]
    = Done (st', rs) /\
    initialised <$> rs = [true; false; true].
Proof.
  split; [reflexivity|]. split; [reflexivity|].
  eexists _, _. split; [vm_compute; reflexivity|]. reflexivity.
Qed.

Lemma retry_burst_sends_every_fragment_witness :
  (delivery_probability Demo.sendto_result 4 (1 # 2) [Demo.half 0; Demo.half 1] == 1)%Q.
Proof.
  destruct (retry_burst_sends_every_fragment Demo.sendto_result (1 # 2)
              (fun _ => 0%Q) [Demo.half 0; Demo.half 1])
    as (ch & _ & _ & _ & _ & Hprob).
  - intros k. unfold Demo.sendto_result. lia.
  - apply Hprob. lia.
Defined.

(** C5 as stated: with loss rate 1/2 a one-fragment SPDU would be delivered
    with probability 1 - (1/2)^2 = 3/4.  On the two equally likely draws 0
    (below the rate: the fragment is held back, then sent in the burst) and
    1/2 (not below: sent at once) it is delivered both times. *)
Lemma single_retry_probability_counterexample :
  ~ (delivery_probability Demo.sendto_result 2 (1 # 2) [Demo.half 0]
     == (1 - (1 # 2) ^ 2) ^ 1)%Q.
Proof. vm_compute. discriminate. Qed.

(** ** Concrete runs of the loaders, the command line and whole runs *)

Lemma load_falcon_public_key_cached_witness :
  Files.load_falcon_public_key 1 (fun _ => None) 7 {[7 := [xcd]]}
  = Done ([xcd], {[7 := [xcd]]}).
Proof.
  destruct (load_falcon_public_key_cached 1 Disk.files 7 ∅ {[7 := [xcd]]} [xcd])
    as (_ & _ & Hlater).
  - reflexivity.
  - exact (Hlater (fun _ => None)).
Defined.

Lemma load_falcon_public_key_refines_witness :
  load_falcon_public_key (stored_public_key 1 Disk.files) 7 = Done [xcd] /\
  load_falcon_public_key (stored_public_key 1 Disk.files) 8 = Exit EXIT_FAILURE.
Proof.
  split.
  - pose proof (load_falcon_public_key_refines 1 Disk.files 7 ∅) as H.
    change (Files.load_falcon_public_key 1 Disk.files 7 ∅)
      with (Done (A := list byte * gmap Z (list byte)) ([xcd], {[7 := [xcd]]})) in H.
    apply H. intros number key Hin. rewrite lookup_empty in Hin. discriminate.
  - pose proof (load_falcon_public_key_refines 1 Disk.files 8 ∅) as H.
    change (Files.load_falcon_public_key 1 Disk.files 8 ∅)
      with (Exit (A := list byte * gmap Z (list byte)) EXIT_FAILURE) in H.
    apply H. intros number key Hin. rewrite lookup_empty in Hin. discriminate.
Defined.

Lemma main_fragment_size_effective_witness :
  clamp_fragment_size
    (falcon_fragment_size
       (main_pqc_options (fun _ => None) None (Some (-1)) (fun _ => 0)))
    MAX_SIGNATURE_FRAGMENT_SIZE
  = MAX_SIGNATURE_FRAGMENT_SIZE.
Proof.
  destruct (main_fragment_size_effective (fun _ => None) None (Some (-1)) (fun _ => 0))
    as [_ Heff].
  - intros _. lia.
  - intros n [= <-]. lia.
  - exact Heff.
Defined.

Lemma prepare_signed_fragments_exits_witness :
  prepare_signed_fragments Demo.sha256sum Demo.ECDSA_size Demo.ecdsa_sign
    Demo.falcon_sign Demo.calculate_speed_kph Demo.calculate_heading
    Demo.tbsData_image Demo.sizeof_certificate 0 0 1000 Disk.keyless_sender
  = Exit 1 /\
  1 = EXIT_FAILURE /\
  (scheme (pqc (this Disk.keyless_sender)) = ECDSA /\
   MAX_SIGNATURE_FRAGMENT_SIZE
   < to_uint32 (Demo.ECDSA_size (private_ec_key (this Disk.keyless_sender)))
   \/
   scheme (pqc (this Disk.keyless_sender)) = FALCON /\
   falcon_private_key (this Disk.keyless_sender) = []).
Proof.
  split; [reflexivity|].
  apply (prepare_signed_fragments_exits Demo.sha256sum Demo.ECDSA_size
           Demo.ecdsa_sign Demo.falcon_sign Demo.calculate_speed_kph
           Demo.calculate_heading Demo.tbsData_image Demo.sizeof_certificate
           0 0 1000 Disk.keyless_sender 1).
  reflexivity.
Defined.

Lemma trace_lines_and_generate_bsm_witness :
  (exists msg,
     generate_bsm Demo.calculate_speed_kph Demo.calculate_heading Disk.vehicle 0
     = Done msg) /\
  generate_bsm Demo.calculate_speed_kph Demo.calculate_heading Disk.vehicle 1
  = Undefined.
Proof.
  split.
  - destruct (trace_lines_and_generate_bsm Demo.calculate_speed_kph
                Demo.calculate_heading Disk.stof Disk.files 7
                (literal "1,22,333") Disk.vehicle 0) as [Hdefined _].
    + reflexivity.
    + reflexivity.
    + apply Hdefined. split; [lia|]. split.
      * exists 3%nat. split; [reflexivity|lia].
      * intros Hne. by destruct Hne.
  - destruct (trace_lines_and_generate_bsm Demo.calculate_speed_kph
                Demo.calculate_heading Disk.stof Disk.files 7
                (literal "1,22,333") Disk.vehicle 1) as [Hdefined Hout].
    + reflexivity.
    + reflexivity.
    + apply Hout. intros msg Hmsg.
      destruct Hdefined as [Hfields _].
      destruct Hfields as (_ & (n & Hn & _) & _); [by exists msg|].
      vm_compute in Hn. discriminate.
Defined.

Lemma Vehicle_ctor_result_witness :
  Vehicle_ctor Demo.key_file Disk.OQS_SIG_falcon_512_length_secret_key Disk.stof
    Disk.files 7 Disk.options (zeros Demo.sizeof_certificate)
    (zeros CERTIFICATE_SIGNATURE_SIZE) 0
  = Done (Returns Disk.vehicle) /\
  zlength (falcon_private_key Disk.vehicle) = 1 /\
  prepare_signed_fragments Demo.sha256sum Demo.ECDSA_size Demo.ecdsa_sign
    Demo.falcon_sign Demo.calculate_speed_kph Demo.calculate_heading
    Demo.tbsData_image Demo.sizeof_certificate 0 0 1000
    {| this := Disk.vehicle; calls := [] |}
  <> Exit EXIT_FAILURE.
Proof.
  split; [reflexivity|].
  destruct (Vehicle_ctor_result Demo.sha256sum Demo.ECDSA_size Demo.ecdsa_sign
              Demo.falcon_sign Demo.calculate_speed_kph Demo.calculate_heading
              Demo.tbsData_image Demo.sizeof_certificate Demo.key_file
              Disk.OQS_SIG_falcon_512_length_secret_key Disk.stof Disk.files 7
              Disk.options (zeros Demo.sizeof_certificate)
              (zeros CERTIFICATE_SIGNATURE_SIZE) 0 Disk.vehicle)
    as (_ & _ & _ & _ & _ & Hfalcon).
  - reflexivity.
  - destruct Hfalcon as (_ & Hlength & Hnever). split; [exact Hlength|].
    apply Hnever.
    + unfold Disk.OQS_SIG_falcon_512_length_secret_key. lia.
    + repeat split.
Defined.

Lemma receive_loop_counts_witness :
  exists st' rs,
    receive_loop Demo.sha256sum Demo.ecdsa_verify Demo.falcon_verify
      Demo.tbsData_image Demo.sizeof_certificate Demo.key_file
      Demo.falcon_public_key_file 1 receiver_initial
      [(Demo.half 0, 10); (Demo.half 1, 11); (Demo.half 0, 12)]
    = Done (st', rs) /\
    completed_messages st' = 1 /\ length rs = 2%nat.
Proof.
  destruct (receive_loop Demo.sha256sum Demo.ecdsa_verify Demo.falcon_verify
              Demo.tbsData_image Demo.sizeof_certificate Demo.key_file
              Demo.falcon_public_key_file 1 receiver_initial
              [(Demo.half 0, 10); (Demo.half 1, 11); (Demo.half 0, 12)])
    as [[st' rs]| |] eqn:Hrun; try (vm_compute in Hrun; discriminate).
  exists st', rs. split; [reflexivity|].
  destruct (receive_loop_counts Demo.sha256sum Demo.ecdsa_verify Demo.falcon_verify
              Demo.tbsData_image Demo.sizeof_certificate Demo.key_file
              Demo.falcon_public_key_file 1
              [(Demo.half 0, 10); (Demo.half 1, 11); (Demo.half 0, 12)]
              receiver_initial st' rs Hrun)
    as (Hcount & _ & Hmost & Hstop & _).
  assert (Hrs : length rs = 2%nat).
  { apply (f_equal (fun o => match o with
                             | Done (_, rs) => length rs
                             | _ => 0%nat
                             end)) in Hrun.
    vm_compute in Hrun. symmetry. exact Hrun. }
  split; [|exact Hrs].
  assert (completed_messages st' <= 1) by (apply Hmost; simpl; lia).
  assert (1 <= completed_messages st') by (apply Hstop; rewrite Hrs; simpl; lia).
  lia.
Defined.

Lemma receive_loop_other_spdus_witness :
  exists st' rs,
    receive_loop Demo.sha256sum Demo.ecdsa_verify Demo.falcon_verify
      Demo.tbsData_image Demo.sizeof_certificate Demo.key_file
      Demo.falcon_public_key_file 1 receiver_initial
      [(Demo.half 0, 10); (Demo.half 1, 11)]
    = Done (st', rs) /\
    pending_messages st' !! make_message_key 5 9 = None.
Proof.
  destruct (receive_loop Demo.sha256sum Demo.ecdsa_verify Demo.falcon_verify
              Demo.tbsData_image Demo.sizeof_certificate Demo.key_file
              Demo.falcon_public_key_file 1 receiver_initial
              [(Demo.half 0, 10); (Demo.half 1, 11)])
    as [[st' rs]| |] eqn:Hrun; try (vm_compute in Hrun; discriminate).
  exists st', rs. split; [reflexivity|].
  rewrite (receive_loop_other_spdus Demo.sha256sum Demo.ecdsa_verify
             Demo.falcon_verify Demo.tbsData_image Demo.sizeof_certificate
             Demo.key_file Demo.falcon_public_key_file 1 5 9
             [(Demo.half 0, 10); (Demo.half 1, 11)] receiver_initial st' rs Hrun).
  - reflexivity.
  - lia.
  - lia.
  - repeat apply Forall_cons_2; try apply Forall_nil_2;
      simpl; (split; [lia|]); (split; [lia|]); left; lia.
Defined.

Lemma zero_fragment_count_completes_witness :
  exists st' c,
    receive_datagram Demo.sha256sum Demo.ecdsa_verify Demo.falcon_verify
      Demo.tbsData_image Demo.sizeof_certificate Demo.key_file
      Demo.falcon_public_key_file receiver_initial Disk.empty_spdu 10
    = Done (st', {| initialised := true; completed := Some c |}) /\
    completed_signature c = zeros 4 /\
    completed_messages st' = 1.
Proof.
  destruct (zero_fragment_count_completes Demo.sha256sum Demo.ecdsa_verify
              Demo.falcon_verify Demo.tbsData_image Demo.sizeof_certificate
              Demo.key_file Demo.falcon_public_key_file receiver_initial
              Disk.empty_spdu 10 [] [] [])
    as (st' & c & Hrun & _ & Hsignature & _ & _ & Hcount & _).
  - unfold well_formed. vm_compute. repeat split; congruence.
  - reflexivity.
  - reflexivity.
  - reflexivity.
  - reflexivity.
  - intros _. reflexivity.
  - unfold INT64_MIN, INT64_MAX. simpl. lia.
  - exists st', c. split; [exact Hrun|]. split; [exact Hsignature|exact Hcount].
Defined.

Lemma receive_metric_span_witness :
  exists st' rs,
    receive_loop Demo.sha256sum Demo.ecdsa_verify Demo.falcon_verify
      Demo.tbsData_image Demo.sizeof_certificate Demo.key_file
      Demo.falcon_public_key_file 1 receiver_initial
      [(Demo.half 0, 10); (Demo.half 1, 12); (Demo.half 0, 15)]
    = Done (st', rs) /\
    receive_metric st'
    = Done (Some {| total_us := 2; first_us := 10; last_us := 12 |}).
Proof.
  destruct (receive_loop Demo.sha256sum Demo.ecdsa_verify Demo.falcon_verify
              Demo.tbsData_image Demo.sizeof_certificate Demo.key_file
              Demo.falcon_public_key_file 1 receiver_initial
              [(Demo.half 0, 10); (Demo.half 1, 12); (Demo.half 0, 15)])
    as [[st' rs]| |] eqn:Hrun; try (vm_compute in Hrun; discriminate).
  exists st', rs. split; [reflexivity|].
  assert (Hrs : length rs = 2%nat).
  { apply (f_equal (fun o => match o with
                             | Done (_, rs) => length rs
                             | _ => 0%nat
                             end)) in Hrun.
    vm_compute in Hrun. symmetry. exact Hrun. }
  assert (Hdone : completed_messages st' = 1).
  { apply (f_equal (fun o => match o with
                             | Done (st, _) => completed_messages st
                             | _ => 0
                             end)) in Hrun.
    vm_compute in Hrun. symmetry. exact Hrun. }
  destruct (receive_metric_span Demo.sha256sum Demo.ecdsa_verify Demo.falcon_verify
              Demo.tbsData_image Demo.sizeof_certificate Demo.key_file
              Demo.falcon_public_key_file 1
              [(Demo.half 0, 10); (Demo.half 1, 12); (Demo.half 0, 15)]
              st' rs Hrun) as [_ Hspan].
  - repeat apply Forall_cons_2; try apply Forall_nil_2;
      unfold INT64_MAX; simpl; lia.
  - intros i j di ti dj tj Hij Hi Hj.
    destruct i as [|[|[|i]]], j as [|[|[|j]]]; simpl in Hi, Hj;
      try discriminate; try lia;
      injection Hi as _ <-; injection Hj as _ <-; lia.
  - destruct Hspan as (d0 & t0 & dl & tl & rl & Hfirst & Hlast & _ & _ & _ & Hmetric).
    + lia.
    + lia.
    + rewrite Hrs in Hlast. simpl in Hfirst, Hlast.
      injection Hfirst as _ <-. injection Hlast as _ <-. exact Hmetric.
Defined.

Lemma falcon_fragments_any_order_witness :
  exists fragments s' st' rs,
    sign_message_falcon Demo.falcon_sign Demo.tbsData_image Demo.template
      (Demo.sender FALCON) = Done (fragments, s') /\
    receive_loop Demo.sha256sum Demo.ecdsa_verify Demo.falcon_verify
      Demo.tbsData_image Demo.sizeof_certificate Demo.key_file
      Demo.falcon_public_key_file 1 receiver_initial
      (zip (reverse fragments) [10; 11; 12])
    = Done (st', rs) /\
    length rs = 3%nat /\
    completed_messages st' = 1.
Proof.
  destruct (falcon_fragments_any_order Demo.sha256sum Demo.ecdsa_verify
              Demo.falcon_sign Demo.falcon_verify Demo.tbsData_image
              Demo.sizeof_certificate Demo.key_file Demo.falcon_public_key_file
              Demo.template (Demo.sender FALCON) 1 receiver_initial [] [] [])
    as (fragments & s' & Hsign & Hany).
  - discriminate.
  - simpl. lia.
  - vm_compute. discriminate.
  - reflexivity.
  - reflexivity.
  - reflexivity.
  - reflexivity.
  - simpl. lia.
  - assert (Hlen : length fragments = 3%nat).
    { apply (f_equal (fun o => match o with
                               | Done (fs, _) => length fs
                               | _ => 0%nat
                               end)) in Hsign.
      vm_compute in Hsign. symmetry. exact Hsign. }
    destruct (Hany (reverse fragments) [10; 11; 12])
      as (st' & rs & b & c & t_last & Hrun & Hrs & _ & _ & _ & _ & _ & Hcount).
    + apply reverse_Permutation.
    + intros Hnil. rewrite Hnil in Hlen. discriminate Hlen.
    + rewrite length_reverse, Hlen. reflexivity.
    + repeat apply Forall_cons_2; try apply Forall_nil_2;
        unfold INT64_MIN, INT64_MAX; simpl; lia.
    + exists fragments, s', st', (rs ++ [{| initialised := b; completed := Some c |}]).
      split; [exact Hsign|]. split; [exact Hrun|]. split.
      * rewrite length_app. rewrite length_reverse, Hlen in Hrs. simpl. lia.
      * rewrite Hcount. reflexivity.
Defined.

Lemma honest_spdu_accepted_witness :
  (exists fragment s' st' rs c,
     prepare_signed_fragments Demo.sha256sum Demo.ECDSA_size Demo.ecdsa_sign
       Demo.falcon_sign Demo.calculate_speed_kph Demo.calculate_heading
       Demo.tbsData_image Demo.sizeof_certificate 0 0 1000 Edge.ecdsa_sender
     = Done ([fragment], s') /\
     receive_loop Demo.sha256sum Demo.ecdsa_verify Demo.falcon_verify
       Demo.tbsData_image Demo.sizeof_certificate Demo.key_file
       Demo.falcon_public_key_file 1 receiver_initial [(fragment, 2010)]
     = Done (st', rs) /\
     completed <$> last rs = Some (Some c) /\
     completed_valid c = true) /\
  (exists fragments s' st' rs c,
     prepare_signed_fragments Demo.sha256sum Demo.ECDSA_size Demo.ecdsa_sign
       Demo.falcon_sign Demo.calculate_speed_kph Demo.calculate_heading
       Demo.tbsData_image Demo.sizeof_certificate 0 0 1000 (Demo.sender FALCON)
     = Done (fragments, s') /\
     receive_loop Demo.sha256sum Demo.ecdsa_verify Demo.falcon_verify
       Demo.tbsData_image Demo.sizeof_certificate Demo.key_file
       Demo.falcon_public_key_file 1 receiver_initial
       (zip (reverse fragments) [2010; 2011; 2012])
     = Done (st', rs) /\
     completed <$> last rs = Some (Some c) /\
     completed_valid c = true).
Proof.
  split.
  - destruct (honest_spdu_accepted Demo.sha256sum Demo.ECDSA_size Demo.ecdsa_sign
                Demo.ecdsa_verify Demo.falcon_sign Demo.falcon_verify
                Demo.calculate_speed_kph Demo.calculate_heading Demo.tbsData_image
                Demo.sizeof_certificate Demo.key_file Demo.falcon_public_key_file
                0 0 1000 Edge.ecdsa_sender
                {| latitude := 1; longitude := 2; elevation := 3;
                   speed := 0; heading := 0 |}
                1 receiver_initial [])
      as (fragments & s' & Hprepare & Hany).
    + reflexivity.
    + reflexivity.
    + vm_compute. discriminate.
    + simpl. split.
      * unfold Demo.ECDSA_size, MAX_SIGNATURE_FRAGMENT_SIZE. lia.
      * intros call digest. vm_compute. discriminate.
    + reflexivity.
    + reflexivity.
    + reflexivity.
    + reflexivity.
    + simpl. lia.
    + assert (Hlen : length fragments = 1%nat).
      { apply (f_equal (fun o => match o with
                                 | Done (fs, _) => length fs
                                 | _ => 0%nat
                                 end)) in Hprepare.
        vm_compute in Hprepare. symmetry. exact Hprepare. }
      destruct fragments as [|fragment [|]]; try discriminate Hlen.
      destruct (Hany [fragment] [2010])
        as (st' & rs & b & c & t_last & Hrun & Hnone & Hlast & _ & Hvalid & _).
      * reflexivity.
      * discriminate.
      * reflexivity.
      * repeat apply Forall_cons_2; try apply Forall_nil_2;
          unfold INT64_MIN, INT64_MAX; simpl; lia.
      * exists fragment, s', st',
          (rs ++ [{| initialised := b; completed := Some c |}]), c.
        split; [exact Hprepare|]. split; [exact Hrun|]. split.
        -- rewrite last_snoc. reflexivity.
        -- apply Hvalid. simpl in Hlast. injection Hlast as <-. lia.
  - destruct (honest_spdu_accepted Demo.sha256sum Demo.ECDSA_size Demo.ecdsa_sign
                Demo.ecdsa_verify Demo.falcon_sign Demo.falcon_verify
                Demo.calculate_speed_kph Demo.calculate_heading Demo.tbsData_image
                Demo.sizeof_certificate Demo.key_file Demo.falcon_public_key_file
                0 0 1000 (Demo.sender FALCON)
                {| latitude := 1; longitude := 2; elevation := 3;
                   speed := 0; heading := 0 |}
                1 receiver_initial [])
      as (fragments & s' & Hprepare & Hany).
    + reflexivity.
    + reflexivity.
    + vm_compute. discriminate.
    + simpl. split; [discriminate|]. split; [lia|].
      split; [intros call m; vm_compute; discriminate|].
      split; reflexivity.
    + reflexivity.
    + reflexivity.
    + reflexivity.
    + reflexivity.
    + simpl. lia.
    + assert (Hlen : length fragments = 3%nat).
      { apply (f_equal (fun o => match o with
                                 | Done (fs, _) => length fs
                                 | _ => 0%nat
                                 end)) in Hprepare.
        vm_compute in Hprepare. symmetry. exact Hprepare. }
      destruct (Hany (reverse fragments) [2010; 2011; 2012])
        as (st' & rs & b & c & t_last & Hrun & _ & Hlast & _ & Hvalid & _).
      * apply reverse_Permutation.
      * intros Hnil. rewrite Hnil in Hlen. discriminate Hlen.
      * rewrite length_reverse, Hlen. reflexivity.
      * repeat apply Forall_cons_2; try apply Forall_nil_2;
          unfold INT64_MIN, INT64_MAX; simpl; lia.
      * exists fragments, s', st',
          (rs ++ [{| initialised := b; completed := Some c |}]), c.
        split; [exact Hprepare|]. split; [exact Hrun|]. split.
        -- rewrite last_snoc. reflexivity.
        -- apply Hvalid. simpl in Hlast. injection Hlast as <-. lia.
Defined.

Lemma transmit_in_message_order_witness :
  exists s' ch',
    transmit Demo.sha256sum Demo.ECDSA_size Demo.ecdsa_sign Demo.falcon_sign
      Demo.calculate_speed_kph Demo.calculate_heading Demo.tbsData_image
      Demo.sizeof_certificate Demo.sendto_result (1 # 2) (fun _ => 0%Q)
      (fun i => 1000 * i) 1 (Demo.sender FALCON) channel_initial
    = Done (s', ch') /\
    Forall (fun f => sequence_number f = 0) (sent_fragments (events ch')) /\
    100 <= slept (events ch') <= 105.
Proof.
  destruct (transmit Demo.sha256sum Demo.ECDSA_size Demo.ecdsa_sign Demo.falcon_sign
              Demo.calculate_speed_kph Demo.calculate_heading Demo.tbsData_image
              Demo.sizeof_certificate Demo.sendto_result (1 # 2) (fun _ => 0%Q)
              (fun i => 1000 * i) 1 (Demo.sender FALCON) channel_initial)
    as [[s' ch']| |] eqn:Hrun; try (vm_compute in Hrun; discriminate).
  exists s', ch'. split; [reflexivity|].
  destruct (transmit_in_message_order Demo.sha256sum Demo.ECDSA_size Demo.ecdsa_sign
              Demo.falcon_sign Demo.calculate_speed_kph Demo.calculate_heading
              Demo.tbsData_image Demo.sizeof_certificate Demo.sendto_result
              (1 # 2) (fun _ => 0%Q) (fun i => 1000 * i) 1
              (Demo.sender FALCON) s' channel_initial ch' Hrun)
    as (sent & Hsent & Hids & _ & _ & Hslept).
  - lia.
  - simpl in Hsent, Hslept. rewrite Hsent. split; [|lia].
    eapply Forall_impl; [exact Hids|]. simpl. intros f [_ Hseq]. lia.
Defined.

Lemma transmit_completes_witness :
  exists s' ch',
    transmit Demo.sha256sum Demo.ECDSA_size Demo.ecdsa_sign Demo.falcon_sign
      Demo.calculate_speed_kph Demo.calculate_heading Demo.tbsData_image
      Demo.sizeof_certificate Demo.sendto_result (1 # 3) (fun i => (1 # 4)%Q)
      (fun i => 1000 * i) 1 (Demo.sender ECDSA) channel_initial
    = Done (s', ch').
Proof.
  apply (transmit_completes Demo.sha256sum Demo.ECDSA_size Demo.ecdsa_sign
           Demo.falcon_sign Demo.calculate_speed_kph Demo.calculate_heading
           Demo.tbsData_image Demo.sizeof_certificate Demo.sendto_result).
  - intros call digest key. vm_compute. discriminate.
  - intros call m key. vm_compute. discriminate.
  - intros k. unfold Demo.sendto_result. lia.
  - unfold provisioned. simpl. split; [reflexivity|].
    unfold Demo.ECDSA_size, CERTIFICATE_SIGNATURE_SIZE, MAX_SIGNATURE_FRAGMENT_SIZE. lia.
  - intros i Hi. assert (i = 0) as -> by lia.
    exists [1; 2; 3]. split; [reflexivity|]. simpl. lia.
Defined.

Lemma print_spdu_scheme_label_witness :
  let spdu := set_signature_scheme 2 Demo.template in
  payload_signature_check Demo.sha256sum Demo.ecdsa_verify Demo.falcon_verify
    Demo.tbsData_image Demo.falcon_public_key_file spdu [] 0 []
  = Done (Demo.falcon_verify
            (Demo.tbsData_image (tbsData (signedData (data spdu)))) [] []) /\
  print_spdu (fun t => t) spdu true !! 5%nat
  = Some (tab :: literal "Scheme:" ++ tab :: literal "ECDSA").
Proof.
  intros spdu.
  destruct (print_spdu_scheme_label Demo.sha256sum Demo.ecdsa_verify
              Demo.falcon_verify Demo.tbsData_image Demo.falcon_public_key_file
              (fun t => t) spdu true [] 0 [] []) as (_ & _ & Hother).
  - reflexivity.
  - apply Hother; simpl; lia.
Defined.

Lemma hex_to_bytes_cases_witness :
  hex_to_bytes (literal "abc") = Throws "Hex string length must be even" /\
  hex_to_bytes (literal "1z") = Throws "Invalid hex character" /\
  (exists bytes,
     hex_to_bytes (literal "1F") = Returns bytes /\
     zlength (literal "1F") = 2 * zlength bytes).
Proof.
  split; [|split].
  - destruct (hex_to_bytes_cases (literal "abc")) as [Hodd _].
    apply Hodd. vm_compute. discriminate.
  - destruct (hex_to_bytes_cases (literal "1z")) as (_ & Hdigit & _).
    apply Hdigit; [reflexivity|].
    intros Hall. apply Forall_cons in Hall as [_ Hall].
    apply Forall_cons in Hall as [Hz _].
    unfold is_hex_digit, char_code in Hz. simpl in Hz. lia.
  - destruct (hex_to_bytes_cases (literal "1F")) as (_ & _ & Hgood & _).
    apply Hgood; [reflexivity|].
    repeat apply Forall_cons_2; try apply Forall_nil_2;
      unfold is_hex_digit, char_code; simpl; lia.
Defined.

Lemma generate_bsm_defined_witness :
  exists msg,
    generate_bsm Demo.calculate_speed_kph Demo.calculate_heading
      (Demo.vehicle ECDSA) 0 = Done msg /\
    speed msg = 0 /\ heading msg = 0.
Proof.
  destruct (generate_bsm_defined Demo.calculate_speed_kph Demo.calculate_heading
              (Demo.vehicle ECDSA) 0) as (_ & Hdefined & Hfields).
  destruct Hdefined as [_ Hdefined].
  destruct Hdefined as [msg Hmsg].
  - split; [lia|]. exists [1; 2; 3]. split; [reflexivity|].
    split; [simpl; lia|]. intros Hne. by destruct Hne.
  - exists msg. split; [exact Hmsg|].
    destruct (Hfields msg Hmsg) as (lat & lon & elev & more & _ & _ & _ & _ & Hzero & _).
    apply Hzero. reflexivity.
Defined.

Lemma load_trace_rows_witness :
  Files.load_trace Disk.stof Disk.files 8 [] = Exit EXIT_FAILURE /\
  Files.load_trace Disk.stof Disk.files 7 [[0]] = Done (Returns [[0]; [1; 2; 3]]).
Proof.
  split.
  - destruct (load_trace_rows Disk.stof Disk.files 8 []) as [Hmissing _].
    apply Hmissing. reflexivity.
  - destruct (load_trace_rows Disk.stof Disk.files 7 [[0]]) as [_ Hopened].
    destruct (Hopened (literal "1,22,333")) as (_ & Hrows & _); [reflexivity|].
    apply Hrows. exists [[1; 2; 3]]. split; [reflexivity|].
    apply Forall2_cons_2; [|apply Forall2_nil_2].
    repeat apply Forall2_cons_2; try apply Forall2_nil_2; reflexivity.
Defined.

Lemma transmit_needs_trace_rows_witness :
  zlength (timestep (this (Demo.sender ECDSA))) < 2 /\
  forall result,
    transmit Demo.sha256sum Demo.ECDSA_size Demo.ecdsa_sign Demo.falcon_sign
      Demo.calculate_speed_kph Demo.calculate_heading Demo.tbsData_image
      Demo.sizeof_certificate Demo.sendto_result 0 (fun _ => 0%Q)
      (fun i => 1000 * i) 2 (Demo.sender ECDSA) channel_initial
    <> Done result.
Proof.
  split; [vm_compute; reflexivity|].
  destruct (transmit_needs_trace_rows Demo.sha256sum Demo.ECDSA_size Demo.ecdsa_sign
              Demo.falcon_sign Demo.calculate_speed_kph Demo.calculate_heading
              Demo.tbsData_image Demo.sizeof_certificate Demo.sendto_result
              0 (fun _ => 0%Q) (fun i => 1000 * i) 2 (Demo.sender ECDSA)
              channel_initial) as [_ Hshort].
  apply Hshort. vm_compute. reflexivity.
Defined.

Lemma load_falcon_private_key_accepts_witness :
  Files.load_falcon_private_key 1 Disk.files 7 = Done [xab] /\
  Files.load_falcon_private_key 1
    (fun _ => Some (literal "ab" ++ [Files.newline])) 7
  = Exit EXIT_FAILURE.
Proof.
  split.
  - destruct (load_falcon_private_key_accepts 1 Disk.files 7) as [Hkey _].
    apply Hkey. exists (literal "ab"). split; [reflexivity|].
    split; [|split; reflexivity].
    repeat apply Forall_cons_2; try apply Forall_nil_2;
      unfold is_hex_digit, char_code; simpl; lia.
  - destruct (load_falcon_private_key_accepts 1
                (fun _ => Some (literal "ab" ++ [Files.newline])) 7)
      as (_ & _ & Hnewline).
    apply (Hnewline (literal "ab")). reflexivity.
Defined.

Lemma get_test_port_range_witness :
  let getenv := fun _ : string => Some (literal "70000") in
  let strtol := fun _ : list ascii => (70000, 5) in
  get_test_port getenv strtol = 6666 /\
  transmit_port getenv strtol true = receive_port getenv strtol true.
Proof.
  intros getenv strtol.
  destruct (get_test_port_range getenv strtol) as (_ & _ & Hparsed & Hports).
  split.
  - rewrite (Hparsed (literal "70000")); reflexivity.
  - apply Hports. reflexivity.
Defined.

Lemma packet_loss_rate_clamped_witness :
  let getenv := fun _ : string => Some (literal "nan") in
  let strtod := fun _ : list ascii => NaN in
  (exists env, getenv "V2X_PACKET_LOSS_RATE" = Some env /\ strtod env = NaN) /\
  drop_test (packet_loss_rate getenv strtod) 0 = false.
Proof.
  intros getenv strtod.
  destruct (packet_loss_rate_clamped getenv strtod) as (_ & _ & _ & Hnan & Htest).
  split.
  - apply Hnan. reflexivity.
  - rewrite (Htest (fun _ => 0%Q) 0%nat). reflexivity.
Defined.

Lemma main_arguments_accepts_witness :
  let args0 := {| tech_choice := CV2X; sim_mode := RECEIVER;
                  tkgui := true; webgui := true; test := false |} in
  main_arguments
    [literal "v2verifier"; literal "dsrc"; literal "transmitter"; literal "nogui"]
    args0
  = Done {| tech_choice := DSRC; sim_mode := TRANSMITTER;
            tkgui := true; webgui := false; test := false |} /\
  main_arguments [literal "v2verifier"; literal "dsrc"; literal "transmitter"] args0
  = Undefined.
Proof.
  intros args0. split.
  - destruct (main_arguments_accepts
                [literal "v2verifier"; literal "dsrc"; literal "transmitter";
                 literal "nogui"] args0) as [Haccepts _].
    apply Haccepts.
    exists (literal "v2verifier"), (literal "dsrc"), (literal "transmitter"),
      (literal "nogui"), [].
    split; [reflexivity|]. split; [by left|]. split; [by left|].
    split; [by left|]. split; [by right; right|]. reflexivity.
  - destruct (main_arguments_accepts
                [literal "v2verifier"; literal "dsrc"; literal "transmitter"] args0)
      as (_ & Hnull & _).
    apply (Hnull (literal "v2verifier") (literal "dsrc") (literal "transmitter"));
      [reflexivity|by left|by left].
Defined.
